(** * Chapter splitting of a PDF: the detector, the filename sanitizer,
      the splitter, the page-text extractor and the pipeline entry point
      of [split_pdf_by_chapters.py], embedded as Rocq functions.

    Conventions of the embedding.

    - A Python [str] is a list of characters.  Characters are the code
      points U+0000..U+00FF (Latin-1), carried by [ascii]; the degree sign
      of the unit vocabulary is the single character 176.  The character
      classes [\s], [\d], [\w], [str.strip], [str.lower] and the
      case-insensitive comparison of [re] are the restrictions of the
      Python 3 definitions to that range.
    - A Python [int] is a [Z].
    - A [dict] is an association list in insertion order, which is the
      order [dict.items()] enumerates.
    - [re] is modelled by a backtracking matcher that lists the successful
      matches of a pattern in the priority order of Python's engine; the
      head of that list is the match [re.search] reports.
    - The iteration order of a [set] is not specified: [detect_chapters]
      is a relation between a mapping and the values a run can return.
    - An exception is a [None] result ([IndexError] of [reader.pages[i]]),
      or an explicit case of the input ([Fails] for a page whose
      [extract_text()] raises, no [document] for a file [PdfReader] cannot
      open).  What a run prints is kept only for [main], as a list of
      events. *)

From Stdlib Require Import Ascii String DecimalString DecimalPos DecimalZ.
From Stdlib Require Import List Bool Arith ZArith Lia.
From Stdlib Require Import Permutation Sorted.
Import ListNotations.

(** ** Characters and strings *)

Module Chars.

Definition str := list ascii.

Definition code (c : ascii) : nat := nat_of_ascii c.

Definition chr (n : nat) : ascii := ascii_of_nat n.

(** A string literal of the source. *)
Definition lit (s : string) : str := list_ascii_of_string s.

Definition between (lo hi n : nat) : bool := (lo <=? n) && (n <=? hi).

(** [str.isspace] on one character, which is also [\s] of [re]. *)
Definition is_space (c : ascii) : bool :=
  let n := code c in
  between 9 13 n || between 28 32 n || (n =? 133) || (n =? 160).

(** [\d] of [re]: the decimal digits. *)
Definition is_digit (c : ascii) : bool := between 48 57 (code c).

(** [str.isalnum] on one character. *)
Definition is_alnum (c : ascii) : bool :=
  let n := code c in
  between 48 57 n || between 65 90 n || between 97 122 n
  || (n =? 170) || (n =? 178) || (n =? 179) || (n =? 181)
  || (n =? 185) || (n =? 186) || between 188 190 n
  || between 192 214 n || between 216 246 n || between 248 255 n.

(** [\w] of [re]: alphanumeric or the underscore. *)
Definition is_word (c : ascii) : bool := is_alnum c || (code c =? 95).

(** Lower-casing of one character, as [str.lower] and [re.IGNORECASE] do. *)
Definition to_lower (c : ascii) : ascii :=
  let n := code c in
  if between 65 90 n || (between 192 222 n && negb (n =? 215))
  then chr (n + 32) else c.

Definition ascii_eqb (a b : ascii) : bool := Ascii.eqb a b.

Definition newline : ascii := chr 10.
Definition space : ascii := chr 32.

(** [s.lower()] *)
Definition lower (s : str) : str := map to_lower s.

(** [s.lstrip()], [s.rstrip()], [s.strip()] *)
Fixpoint lstrip (s : str) : str :=
  match s with
  | c :: s' => if is_space c then lstrip s' else s
  | [] => []
  end.

Definition rstrip (s : str) : str := rev (lstrip (rev s)).

Definition strip (s : str) : str := rstrip (lstrip s).

(** [s.split(sep)] for a one-character separator: always at least one
    piece, the empty string giving one empty piece. *)
Fixpoint split (sep : ascii) (s : str) : list str :=
  match s with
  | [] => [[]]
  | c :: s' =>
      if ascii_eqb c sep then [] :: split sep s'
      else match split sep s' with
           | piece :: pieces => (c :: piece) :: pieces
           | [] => [[c]]
           end
  end.

(** [s.count(c)] for a one-character argument. *)
Definition count (c : ascii) (s : str) : nat :=
  length (filter (ascii_eqb c) s).

Fixpoint starts_with (p s : str) : bool :=
  match p, s with
  | [], _ => true
  | a :: p', b :: s' => ascii_eqb a b && starts_with p' s'
  | _ :: _, [] => false
  end.

(** [p in s] for strings. *)
Fixpoint contains (p s : str) : bool :=
  starts_with p s ||
  match s with
  | [] => false
  | _ :: s' => contains p s'
  end.

(** [s == ""], the falsity of a string. *)
Definition is_empty (s : str) : bool :=
  match s with [] => true | _ :: _ => false end.

(** [re.sub(r'\s+', repl, s)]: each maximal run of whitespace becomes one
    copy of [repl].  [in_run] tells that the previous character was
    whitespace, already replaced. *)
Fixpoint sub_ws_from (repl : str) (in_run : bool) (s : str) : str :=
  match s with
  | [] => []
  | c :: s' =>
      if is_space c
      then (if in_run then sub_ws_from repl true s'
            else repl ++ sub_ws_from repl true s')
      else c :: sub_ws_from repl false s'
  end.

Definition sub_ws (repl s : str) : str := sub_ws_from repl false s.

End Chars.
Import Chars.

(** ** The fragment of [re] the program uses *)

Module Re.

(** A member of a bracketed set, or a class escape. *)
Inductive item :=
| ILit (c : ascii)
| IRange (lo hi : ascii)
| IDigit
| IWord
| ISpace.

Record charset := CSet { cs_negated : bool; cs_items : list item }.

Inductive regex :=
| Eps
| Bol                                         (* ^ *)
| Eol                                         (* $ *)
| Chr (cs : charset)                          (* one character *)
| Rep (cs : charset) (lo : nat) (hi : option nat)  (* greedy x*, x+, x{m,n} *)
| Opt (r : regex)                             (* greedy r? *)
| Seq (r1 r2 : regex)
| Alt (r1 r2 : regex)
| Group (r : regex).                          (* the capturing group *)

Record pattern := Pattern { ignorecase : bool; body : regex }.

(** The characters [lo..hi] of a range. *)
Definition range_chars (lo hi : ascii) : list ascii :=
  map chr (seq (code lo) (S (code hi) - code lo)).

(** Membership of one character in one item.  Under IGNORECASE the
    engine lower-cases the members of the set and tests the lower-cased
    character against them. *)
Definition item_mem (ic : bool) (it : item) (c : ascii) : bool :=
  match it with
  | ILit l =>
      if ic then ascii_eqb (to_lower l) (to_lower c) else ascii_eqb l c
  | IRange lo hi =>
      if ic
      then existsb (fun x => ascii_eqb (to_lower x) (to_lower c))
                   (range_chars lo hi)
      else between (code lo) (code hi) (code c)
  | IDigit => is_digit (if ic then to_lower c else c)
  | IWord => is_word (if ic then to_lower c else c)
  | ISpace => is_space (if ic then to_lower c else c)
  end.

Definition cs_mem (ic : bool) (cs : charset) (c : ascii) : bool :=
  xorb (cs_negated cs) (existsb (fun it => item_mem ic it c) (cs_items cs)).

(** A position of the matcher: the offset in the subject, the text that
    remains there, and what the group captured so far. *)
Record mstate := MState { m_pos : nat; m_rest : str; m_grp : option str }.

Definition hi_zero (hi : option nat) : bool :=
  match hi with Some 0 => true | _ => false end.

(** The positions a greedy repetition can stop at, longest first. *)
Fixpoint rep_from (ic : bool) (cs : charset) (lo : nat) (hi : option nat)
    (p : nat) (s : str) : list (nat * str) :=
  let stop := match lo with 0 => [(p, s)] | S _ => [] end in
  match s with
  | [] => stop
  | c :: s' =>
      if cs_mem ic cs c && negb (hi_zero hi)
      then rep_from ic cs (pred lo) (option_map pred hi) (S p) s' ++ stop
      else stop
  end.

(** All the ways [r] matches at [st], in the order a backtracking engine
    tries them. *)
Fixpoint run (ic : bool) (r : regex) (st : mstate) : list mstate :=
  match r with
  | Eps => [st]
  | Bol => if m_pos st =? 0 then [st] else []
  | Eol =>
      match m_rest st with
      | [] => [st]
      | [c] => if ascii_eqb c newline then [st] else []
      | _ => []
      end
  | Chr cs =>
      match m_rest st with
      | c :: s' =>
          if cs_mem ic cs c then [MState (S (m_pos st)) s' (m_grp st)] else []
      | [] => []
      end
  | Rep cs lo hi =>
      map (fun ps => MState (fst ps) (snd ps) (m_grp st))
          (rep_from ic cs lo hi (m_pos st) (m_rest st))
  | Opt r1 => run ic r1 st ++ [st]
  | Seq r1 r2 => flat_map (run ic r2) (run ic r1 st)
  | Alt r1 r2 => run ic r1 st ++ run ic r2 st
  | Group r1 =>
      map (fun st' =>
             MState (m_pos st') (m_rest st')
                    (Some (firstn (m_pos st' - m_pos st) (m_rest st))))
          (run ic r1 st)
  end.

(** [re.search]: the first start offset at which the pattern matches, and
    the first match there. *)
Fixpoint search_from (ic : bool) (r : regex) (p : nat) (s : str)
    : option mstate :=
  match run ic r (MState p s None) with
  | st :: _ => Some st
  | [] =>
      match s with
      | [] => None
      | _ :: s' => search_from ic r (S p) s'
      end
  end.

Definition re_search (pat : pattern) (s : str) : option mstate :=
  search_from (ignorecase pat) (body pat) 0 s.

(** [re.fullmatch]: some match of the pattern from offset 0 ends at the
    end of the string. *)
Definition re_fullmatch (pat : pattern) (s : str) : bool :=
  existsb (fun st => is_empty (m_rest st))
          (run (ignorecase pat) (body pat) (MState 0 s None)).

(** Constructors for the notation of a pattern. *)
Definition one (c : ascii) : charset := CSet false [ILit c].
Definition digit : charset := CSet false [IDigit].
Definition word : charset := CSet false [IWord].
Definition white : charset := CSet false [ISpace].
Definition any_of (its : list item) : charset := CSet false its.
Definition none_of (its : list item) : charset := CSet true its.

Definition star (cs : charset) : regex := Rep cs 0 None.
Definition plus (cs : charset) : regex := Rep cs 1 None.

Fixpoint text (s : str) : regex :=
  match s with
  | [] => Eps
  | [c] => Chr (one c)
  | c :: s' => Seq (Chr (one c)) (text s')
  end.

Fixpoint seqs (rs : list regex) : regex :=
  match rs with
  | [] => Eps
  | [r] => r
  | r :: rs' => Seq r (seqs rs')
  end.

Fixpoint alts (rs : list regex) : regex :=
  match rs with
  | [] => Chr (CSet false [])
  | [r] => r
  | r :: rs' => Alt r (alts rs')
  end.

End Re.
Import Re.

(** ** Chapter Detector: [detect_chapters] *)

Module Detector.

(** A chapter mark: [(page_num, chapter_title)]. *)
Definition mark := (Z * str)%type.

(** The degree sign, U+00B0. *)
Definition degree : ascii := chr 176.

(** [\.] *)
Definition dot : regex := Chr (one "."%char).

(** The set [[A-Z]] and the sets that end the first two patterns. *)
Definition upper_AZ : charset := any_of [IRange "A"%char "Z"%char].

Definition topic_tail : charset :=
  any_of [IRange "A"%char "Z"%char; IRange "a"%char "z"%char; ISpace;
          ILit ":"%char; ILit ","%char; ILit "&"%char; ILit "/"%char;
          ILit "("%char; ILit ")"%char; ILit "-"%char].

Definition numbered_tail : charset :=
  any_of [IRange "A"%char "Z"%char; IRange "a"%char "z"%char; ISpace;
          ILit ":"%char; ILit ","%char; ILit "&"%char; ILit "-"%char].

(** [[^\n]], which is also what [.] matches. *)
Definition not_newline : charset := none_of [ILit newline].

(** [(?i)^\s*(Topic\s+[IVX]+:\s*[A-Z][A-Za-z\s:,&/()-]+)] *)
Definition topic_pattern : pattern :=
  Pattern true
    (seqs [Bol; star white;
           Group (seqs [text (lit "Topic"); plus white;
                        plus (any_of [ILit "I"%char; ILit "V"%char;
                                      ILit "X"%char]);
                        Chr (one ":"%char); star white;
                        Chr upper_AZ; plus topic_tail])]).

(** [(?i)^\s*(\d+\.\s+[A-Z][A-Za-z\s:,&-]+)$] *)
Definition numbered_pattern : pattern :=
  Pattern true
    (seqs [Bol; star white;
           Group (seqs [plus digit; dot; plus white;
                        Chr upper_AZ; plus numbered_tail]);
           Eol]).

(** [(?i)^\s*chapter\s+(\d+\.?\s*[A-Z][^\n]+)] *)
Definition chapter_digits_pattern : pattern :=
  Pattern true
    (seqs [Bol; star white; text (lit "chapter"); plus white;
           Group (seqs [plus digit; Opt dot; star white;
                        Chr upper_AZ; plus not_newline])]).

(** [(?i)^\s*chapter\s+(\w+\.?\s*[A-Z][^\n]+)] *)
Definition chapter_word_pattern : pattern :=
  Pattern true
    (seqs [Bol; star white; text (lit "chapter"); plus white;
           Group (seqs [plus word; Opt dot; star white;
                        Chr upper_AZ; plus not_newline])]).

Definition chapter_patterns : list pattern :=
  [topic_pattern; numbered_pattern;
   chapter_digits_pattern; chapter_word_pattern].

(** The unit vocabularies of the two rejection patterns. *)
Definition measurement_units : list str :=
  [lit "psi"; lit "ft"; lit "m"; lit "cm"; lit "kg"; lit "lbm"; lit "hr";
   [degree; "F"%char]; [degree; "C"%char]; lit "kPa"; lit "Btu"].

Definition flow_units : list str :=
  [lit "mol"; lit "m3"; lit "ft3"; lit "L/s"].

(** [^\d+\.?\d*\s*(psi|ft|m|cm|kg|lbm|hr|\xb0F|\xb0C|kPa|Btu)], the
    degree sign written by its code *)
Definition measurement_pattern : pattern :=
  Pattern false
    (seqs [Bol; plus digit; Opt dot; star digit; star white;
           Group (alts (map text measurement_units))]).

(** [^\d+\.?\d*\s+(mol|m3|ft3|L/s)] *)
Definition flow_pattern : pattern :=
  Pattern false
    (seqs [Bol; plus digit; Opt dot; star digit; plus white;
           Group (alts (map text flow_units))]).

(** The truth value of a match object. *)
Definition found (m : option mstate) : bool :=
  match m with Some _ => true | None => false end.

(** The false-positive filter of lines 71-75. *)
Definition title_ok (chapter_title : str) : bool :=
  (10 <? length chapter_title)
  && negb (found (re_search measurement_pattern chapter_title))
  && negb (found (re_search flow_pattern chapter_title))
  && negb (contains (lit "equation") (lower chapter_title))
  && (count "."%char chapter_title <=? 2).

(** [re.sub(r'\s+', ' ', match.group(1).strip())] *)
Definition title_of_group (group1 : str) : str :=
  sub_ws [space] (strip group1).

(** The loop over [chapter_patterns] for one line: the title appended for
    the line, if any.  A pattern whose title the filter refuses does not
    end the loop.  Group 1 takes part in every match of the four patterns
    (lemma [chapter_patterns_capture]), so the branch without a group is
    never taken. *)
Fixpoint scan_patterns (patterns : list pattern) (line : str)
    : option str :=
  match patterns with
  | [] => None
  | pat :: later =>
      match re_search pat line with
      | Some m =>
          match m_grp m with
          | Some g =>
              let chapter_title := title_of_group g in
              if title_ok chapter_title then Some chapter_title
              else scan_patterns later line
          | None => scan_patterns later line
          end
      | None => scan_patterns later line
      end
  end.

(** The body of the loop over the lines of a page. *)
Definition line_marks (page_num : Z) (line : str) : list mark :=
  let line := strip line in
  if is_empty line then []
  else match scan_patterns chapter_patterns line with
       | Some chapter_title => [(page_num, chapter_title)]
       | None => []
       end.

(** The body of the loop over [page_texts.items()]. *)
Definition page_marks (page_num : Z) (txt : str) : list mark :=
  if is_empty (strip txt) then []
  else flat_map (line_marks page_num) (firstn 5 (split newline txt)).

(** The list [chapters] when the loops end. *)
Definition found_chapters (page_texts : list (Z * str)) : list mark :=
  flat_map (fun kv => page_marks (fst kv) (snd kv)) page_texts.

Definition mark_eq_dec (a b : mark) : {a = b} + {a <> b}.
Proof.
  decide equality.
  - apply (list_eq_dec ascii_dec).
  - apply Z.eq_dec.
Defined.

Definition mark_eqb (a b : mark) : bool :=
  if mark_eq_dec a b then true else false.

(** [list(set(chapters))]: the elements of [chapters], each once, in the
    iteration order of the set, which Python leaves unspecified (it
    depends on the hashes of the titles).  [is_listing chapters l] tells
    that [l] is one of the possible enumerations. *)
Fixpoint distinct (l : list mark) : bool :=
  match l with
  | [] => true
  | x :: l' => negb (existsb (mark_eqb x) l') && distinct l'
  end.

Definition subset (l1 l2 : list mark) : bool :=
  forallb (fun x => existsb (mark_eqb x) l2) l1.

Definition is_listing (chapters l : list mark) : bool :=
  distinct l && subset l chapters && subset chapters l.

(** [chapters.sort(key=lambda x: x[0])]: a stable sort on the page. *)
Fixpoint insert_by_page (x : mark) (l : list mark) : list mark :=
  match l with
  | [] => [x]
  | y :: l' =>
      if (fst x <=? fst y)%Z then x :: l else y :: insert_by_page x l'
  end.

Definition sort_by_page (l : list mark) : list mark :=
  fold_right insert_by_page [] l.

(** [detect_chapters page_texts r]: [r] is a value the function can
    return on [page_texts]. *)
Definition detect_chapters (page_texts : list (Z * str)) (r : list mark)
    : Prop :=
  exists l, is_listing (found_chapters page_texts) l = true
            /\ r = sort_by_page l.

(** The enumeration that keeps the last occurrence of each mark. *)
Definition detect_chapters_in_order (page_texts : list (Z * str))
    : list mark :=
  sort_by_page (nodup mark_eq_dec (found_chapters page_texts)).

End Detector.
Import Detector.

(** ** Filename Sanitizer: [create_chapter_filename] *)

Module Sanitizer.

(** [re.sub(cs, '', s)] for a pattern that is one bracketed set. *)
Definition delete_chars (cs : charset) (s : str) : str :=
  filter (fun c => negb (cs_mem false cs c)) s.

(** [[^\w\s-]] *)
Definition problematic : charset :=
  none_of [IWord; ISpace; ILit "-"%char].

(** The decimal digits of an integer, with a minus sign when negative. *)
Definition decimal (n : Z) : str :=
  lit (NilZero.string_of_int (Z.to_int n)).

(** [f"{n:02d}"]: zero-filled to the least width 2. *)
Definition format_02d (n : Z) : str :=
  let digits := decimal n in
  if length digits <? 2 then "0"%char :: digits else digits.

(** The value of [clean_title] on line 101. *)
Definition slug (chapter_title : str) : str :=
  let clean_title := delete_chars problematic chapter_title in
  let clean_title := sub_ws (lit "_") (strip clean_title) in
  firstn 50 clean_title.

Definition create_chapter_filename (chapter_title : str) (chapter_num : Z)
    : str :=
  lit "Chapter_" ++ format_02d chapter_num ++ lit "_"
  ++ slug chapter_title ++ lit ".pdf".

End Sanitizer.
Import Sanitizer.

(** ** PDF Splitter: [split_pdf_by_chapters] *)

Module Splitter.

(** A chapter file on disk: its path, and the pages of the source it
    holds, as indices of the source, in the order they were added. *)
Record chapter_file := ChapterFile { path : str; pages : list Z }.

(** [os.path.join(a, b)] on POSIX. *)
Definition path_join (a b : str) : str :=
  match b with
  | "/"%char :: _ => b
  | _ =>
      match rev a with
      | [] => b
      | "/"%char :: _ => a ++ b
      | _ => a ++ "/"%char :: b
      end
  end.

(** [range(start, stop)] *)
Definition range (start stop : Z) : list Z :=
  map (fun k => (start + Z.of_nat k)%Z) (seq 0 (Z.to_nat (stop - start))).

(** [reader.pages[i]]: a negative index counts from the end, an index
    outside the document raises IndexError ([None]). *)
Definition get_page (total_pages i : Z) : option Z :=
  let j := if (i <? 0)%Z then (total_pages + i)%Z else i in
  if (j <? 0)%Z || (total_pages <=? j)%Z then None else Some j.

(** The inner loop of lines 134-136. *)
Fixpoint add_pages (total_pages : Z) (page_nums : list Z)
    : option (list Z) :=
  match page_nums with
  | [] => Some []
  | page_num :: rest =>
      if (page_num <? total_pages)%Z
      then match get_page total_pages page_num with
           | Some p => option_map (cons p) (add_pages total_pages rest)
           | None => None
           end
      else add_pages total_pages rest
  end.

(** Lines 126-129. *)
Definition end_page (total_pages : Z) (chapters : list mark) (i : nat) : Z :=
  match nth_error chapters (S i) with
  | Some next => (fst next - 1)%Z
  | None => (total_pages - 1)%Z
  end.

(** One turn of the loop over [enumerate(chapters)]. *)
Definition write_chapter (total_pages : Z) (output_dir : str)
    (chapters : list mark) (i : nat) (m : mark) : option chapter_file :=
  let start_page := fst m in
  let end_page := end_page total_pages chapters i in
  match add_pages total_pages (range start_page (end_page + 1)) with
  | Some ps =>
      let filename := create_chapter_filename (snd m) (Z.of_nat i + 1) in
      Some (ChapterFile (path_join output_dir filename) ps)
  | None => None
  end.

(** The loop from index [i] on: the files written, and whether the loop
    ran to its end. *)
Fixpoint split_loop (total_pages : Z) (output_dir : str)
    (chapters : list mark) (i : nat) (todo : list mark)
    : list chapter_file * bool :=
  match todo with
  | [] => ([], true)
  | m :: todo' =>
      match write_chapter total_pages output_dir chapters i m with
      | Some f =>
          let (fs, finished) :=
            split_loop total_pages output_dir chapters (S i) todo' in
          (f :: fs, finished)
      | None => ([], false)
      end
  end.

(** The files the call writes, in order, and the list it returns
    ([None] when an exception leaves the function). *)
Definition split_pdf_by_chapters (total_pages : nat) (output_dir : str)
    (chapters : list mark) : list chapter_file * option (list str) :=
  let (fs, finished) :=
    split_loop (Z.of_nat total_pages) output_dir chapters 0 chapters in
  (fs, if finished then Some (map path fs) else None).

End Splitter.
Import Splitter.

(** ** Page Text Extractor: [extract_text_from_pdf] *)

Module Extractor.

(** What [page.extract_text()] does on one page. *)
Inductive extraction :=
| Text (t : str)
| Fails.

(** An opened document: its pages in document order. *)
Definition pdf := list extraction.

(** [d[k] = v] on a dict kept in insertion order. *)
Fixpoint dict_set (k : Z) (v : str) (d : list (Z * str)) : list (Z * str) :=
  match d with
  | [] => [(k, v)]
  | (k', v') :: d' =>
      if (k =? k')%Z then (k, v) :: d' else (k', v') :: dict_set k v d'
  end.

(** [d.get(k)] *)
Fixpoint dict_get (k : Z) (d : list (Z * str)) : option str :=
  match d with
  | [] => None
  | (k', v) :: d' => if (k =? k')%Z then Some v else dict_get k d'
  end.

(** The loop over [enumerate(reader.pages)], from [page_num] on. *)
Fixpoint extract_loop (page_num : nat) (pages : list extraction)
    (page_texts : list (Z * str)) : list (Z * str) :=
  match pages with
  | [] => page_texts
  | page :: rest =>
      let page_texts :=
        match page with
        | Text t => dict_set (Z.of_nat page_num) t page_texts
        | Fails => dict_set (Z.of_nat page_num) [] page_texts
        end in
      extract_loop (S page_num) rest page_texts
  end.

Definition extract_text_from_pdf (reader : pdf) : list (Z * str) :=
  extract_loop 0 reader [].

End Extractor.
Import Extractor.

(** ** The pipeline entry point: [main] *)

Module Pipeline.

(** The lines [main] prints, by their role. *)
Inductive message :=
| Processing | OutputDirectory | InputNotFound
| Extracting | Extracted (n : nat)
| Detecting | NoChaptersDetected | WillAttemptSections
| Detected (n : nat) | DetectedAt (page_num : Z) (title : str)
| NoChaptersToProcess
| Splitting (n : nat)
| Created (n : nat) | CreatedFile (name : str) | AllSaved
| ErrorDuringProcessing.

(** What a run does that can be observed: the lines of [main] itself,
    the call of the splitter, the files the splitter writes. *)
Inductive event :=
| Print (m : message)
| SplitterCalled (chapters : list mark)
| FileWritten (f : chapter_file)
| Traceback.

(** What the run finds outside the program: whether [input_pdf] exists
    and, if [PdfReader] opens it, the document. *)
Record world := World {
  input_exists : bool;
  document : option pdf;
  output_dir : str
}.

(** [os.path.basename] on POSIX. *)
Fixpoint basename_from (acc s : str) : str :=
  match s with
  | [] => acc
  | c :: s' =>
      if ascii_eqb c "/"%char then basename_from [] s'
      else basename_from (acc ++ [c]) s'
  end.

Definition basename (p : str) : str := basename_from [] p.

Definition no_marks (l : list mark) : bool :=
  match l with [] => true | _ :: _ => false end.

(** Lines 232-242, with the handler of line 244 for an exception of the
    splitter. *)
Definition split_and_report (w : world) (total_pages : nat)
    (chapters : list mark) : list event :=
  let (written, created_files) :=
    split_pdf_by_chapters total_pages (output_dir w) chapters in
  [Print (Splitting (length chapters)); SplitterCalled chapters]
  ++ map FileWritten written
  ++ match created_files with
     | Some created =>
         Print (Created (length created))
         :: map (fun p => Print (CreatedFile (basename p))) created
         ++ [Print AllSaved]
     | None => [Print ErrorDuringProcessing; Traceback]
     end.

(** Lines 217-242: the run from the value [detected_chapters] on. *)
Definition after_detection (w : world) (total_pages : nat)
    (detected_chapters : list mark) : list event :=
  if no_marks detected_chapters
  then [Print NoChaptersDetected; Print WillAttemptSections]
  else
    let chapters := detected_chapters in
    Print (Detected (length detected_chapters))
    :: map (fun m => Print (DetectedAt (fst m) (snd m))) detected_chapters
    ++ (if no_marks chapters then [Print NoChaptersToProcess]
        else split_and_report w total_pages chapters).

(** [main w detected tr]: in the world [w] the run observes [tr], the
    detector having returned [detected] if it was reached. *)
Definition main (w : world) (detected : option (list mark))
    (tr : list event) : Prop :=
  let head := [Print Processing; Print OutputDirectory] in
  if negb (input_exists w)
  then detected = None /\ tr = head ++ [Print InputNotFound]
  else
    match document w with
    | None =>
        detected = None
        /\ tr = head ++ [Print Extracting; Print ErrorDuringProcessing;
                         Traceback]
    | Some reader =>
        let page_texts := extract_text_from_pdf reader in
        exists r,
          detect_chapters page_texts r
          /\ detected = Some r
          /\ tr = head
                  ++ [Print Extracting; Print (Extracted (length page_texts));
                      Print Detecting]
                  ++ after_detection w (length reader) r
    end.

End Pipeline.
Import Pipeline.

(** ** Manual Override Collector: [manual_chapter_input] *)

Module Manual.

(** What one call of [input()] gives: the line typed, or
    KeyboardInterrupt.  When the list of what is typed is used up,
    [input()] raises EOFError. *)
Inductive keyboard :=
| Line (s : str)
| Interrupt.

Section Loop.

(** [int(s)] on a string: [None] stands for ValueError.  The numerals
    the builtin accepts are not part of the program. *)
Variable int_of : str -> option Z.

(** The [while True] loop of lines 163-186: the list [chapters] when
    the loop is left by [break], or [None] when EOFError, which no
    handler of the loop catches, leaves the function. *)
Fixpoint input_loop (chapters : list mark) (inputs : list keyboard)
    : option (list mark) :=
  match inputs with
  | [] => None
  | Interrupt :: _ => Some chapters
  | Line page_input :: rest =>
      if is_empty (strip page_input) then Some chapters
      else
        match int_of page_input with
        | None => input_loop chapters rest
        | Some n =>
            let page_num := (n - 1)%Z in
            if (page_num <? 0)%Z then input_loop chapters rest
            else
              match rest with
              | [] => None
              | Interrupt :: _ => Some chapters
              | Line typed :: rest' =>
                  let title := strip typed in
                  if is_empty title then input_loop chapters rest'
                  else input_loop (chapters ++ [(page_num, title)]) rest'
              end
        end
  end.

Definition manual_chapter_input (inputs : list keyboard)
    : option (list mark) :=
  option_map sort_by_page (input_loop [] inputs).

End Loop.

(** Plain decimal numerals, with whitespace around them: numerals that
    [int] accepts, used to run the loop on sample input. *)
Definition int_of_digits (s : str) : option Z :=
  let t := strip s in
  if is_empty t then None
  else if forallb is_digit t
       then option_map Z.of_uint
              (NilEmpty.uint_of_string (string_of_list_ascii t))
       else None.

End Manual.
Import Manual.

(** ** The extraction batches: [main] of [simple_extract.py] and of the
       two [simple_extract_with_images.py] *)

Module Batch.

(** [s.endswith(suffix)] *)
Definition ends_with (suffix s : str) : bool :=
  starts_with (rev suffix) (rev s).

(** [s[:-n]] for a positive [n]. *)
Definition drop_last (n : nat) (s : str) : str :=
  firstn (length s - n) s.

(** [a <= b] on strings: by code points, a prefix first. *)
Fixpoint str_leb (a b : str) : bool :=
  match a, b with
  | [], _ => true
  | _ :: _, [] => false
  | x :: a', y :: b' =>
      if code x <? code y then true
      else if code y <? code x then false
      else str_leb a' b'
  end.

(** [names.sort()] *)
Fixpoint insert_name (x : str) (l : list str) : list str :=
  match l with
  | [] => [x]
  | y :: l' => if str_leb x y then x :: l else y :: insert_name x l'
  end.

Definition sort_names (l : list str) : list str :=
  fold_right insert_name [] l.

(** The list [pdf_files] of a run, for what [os.listdir] returned. *)
Definition pdf_files (listing : list str) : list str :=
  sort_names (filter (ends_with (lit ".pdf")) listing).

Definition str_eqb (a b : str) : bool :=
  if list_eq_dec ascii_dec a b then true else false.

(** What a run does with one file of [pdf_files]. *)
Inductive step :=
| Skipped (pdf_file : str)
| Attempted (pdf_file : str)
| Saved (output_file : str)
| Failed (pdf_file : str).

(** What the body of the [try] does for one file: an exception before
    the output file is opened; the output file opened and written, then
    an exception (in [json.dump], or in the report of the number of
    questions); or the file written and reported.  [content] is what the
    output file holds afterwards. *)
Inductive outcome (data : Type) :=
| Raises
| WrittenThenRaises (content : data)
| Written (content : data).

Arguments Raises {data}.
Arguments WrittenThenRaises {data} content.
Arguments Written {data} content.

Section Run.

Variable data : Type.

(** The body of the [try] on [pdf_path]. *)
Variable agent_extract : str -> outcome data.

(** The two directories, and the paths that exist when the run begins. *)
Variables chapter_pdfs_dir out_dir : str.
Variable present : str -> bool.

(** [os.path.exists(p)], the files [written] so far being on the disk. *)
Definition path_exists (written : list (str * data)) (p : str) : bool :=
  present p || existsb (fun kv => str_eqb p (fst kv)) written.

Definition output_file_of (pdf_file : str) : str :=
  path_join out_dir (drop_last 4 pdf_file ++ lit ".json").

(** The loop over [pdf_files]: what is done file by file, and the files
    written, the latest first.  [skip_existing] tells the scripts that
    test [os.path.exists(output_file)] from the one that does not. *)
Fixpoint process (skip_existing : bool) (todo : list str)
    (written : list (str * data)) : list step * list (str * data) :=
  match todo with
  | [] => ([], written)
  | pdf_file :: rest =>
      let pdf_path := path_join chapter_pdfs_dir pdf_file in
      let output_file := output_file_of pdf_file in
      if skip_existing && path_exists written output_file
      then
        let (steps, written') := process skip_existing rest written in
        (Skipped pdf_file :: steps, written')
      else
        match agent_extract pdf_path with
        | Written extracted_data =>
            let (steps, written') :=
              process skip_existing rest
                      ((output_file, extracted_data) :: written) in
            (Attempted pdf_file :: Saved output_file :: steps, written')
        | WrittenThenRaises partial =>
            let (steps, written') :=
              process skip_existing rest
                      ((output_file, partial) :: written) in
            (Attempted pdf_file :: Failed pdf_file :: steps, written')
        | Raises =>
            let (steps, written') := process skip_existing rest written in
            (Attempted pdf_file :: Failed pdf_file :: steps, written')
        end
  end.

End Run.

(** [simple_extract.py], from the listing of [chapter_pdfs_dir] on
    (lines 54-80): creating the agent and the output directory is taken
    to succeed; [listing] is what [os.listdir] returns. *)
Module SimpleExtract.

Definition main (data : Type) (agent_extract : str -> outcome data)
    (chapter_pdfs_dir out_dir : str) (present : str -> bool)
    (listing : list str) : list step * list (str * data) :=
  process data agent_extract chapter_pdfs_dir out_dir present false
          (pdf_files listing) [].

End SimpleExtract.

(** [llamaextracter/simple_extract_with_images.py] (lines 62-93) and
    [Data_processing_Vital_textbooks/simple_extract_with_images.py]
    (lines 70-101), whose loops are the same. *)
Module SimpleExtractWithImages.

Definition main (data : Type) (agent_extract : str -> outcome data)
    (chapter_pdfs_dir out_dir : str) (present : str -> bool)
    (listing : list str) : list step * list (str * data) :=
  process data agent_extract chapter_pdfs_dir out_dir present true
          (pdf_files listing) [].

End SimpleExtractWithImages.

End Batch.
Import Batch.

(** * The vocabulary of the properties *)

Module Vocabulary.

(** ** The meaning of a pattern *)

(** What it means for [r] to match from [st] to [st'], stated without
    reference to the order of the attempts. *)
Fixpoint denote (ic : bool) (r : regex) (st st' : mstate) : Prop :=
  match r with
  | Eps => st' = st
  | Bol => m_pos st = 0 /\ st' = st
  | Eol => (m_rest st = [] \/ m_rest st = [newline]) /\ st' = st
  | Chr cs =>
      exists c, m_rest st = c :: m_rest st'
                /\ cs_mem ic cs c = true
                /\ m_pos st' = S (m_pos st) /\ m_grp st' = m_grp st
  | Rep cs lo hi =>
      exists w, m_rest st = w ++ m_rest st'
                /\ Forall (fun c => cs_mem ic cs c = true) w
                /\ lo <= length w
                /\ match hi with Some h => length w <= h | None => True end
                /\ m_pos st' = m_pos st + length w /\ m_grp st' = m_grp st
  | Opt r1 => denote ic r1 st st' \/ st' = st
  | Seq r1 r2 => exists mid, denote ic r1 st mid /\ denote ic r2 mid st'
  | Alt r1 r2 => denote ic r1 st st' \/ denote ic r2 st st'
  | Group r1 =>
      exists e, denote ic r1 st e
                /\ st' = MState (m_pos e) (m_rest e)
                           (Some (firstn (m_pos e - m_pos st) (m_rest st)))
  end.

(** Patterns that end with an unbounded greedy repetition. *)
Inductive ends_greedy (ic : bool) (P : ascii -> Prop) : regex -> Prop :=
| eg_rep cs lo :
    (forall c, P c -> cs_mem ic cs c = true) ->
    ends_greedy ic P (Rep cs lo None)
| eg_seq r1 r2 : ends_greedy ic P r2 -> ends_greedy ic P (Seq r1 r2).

(** The text matched by a pattern without anchors. *)
Fixpoint lang (ic : bool) (r : regex) (w : str) : Prop :=
  match r with
  | Eps => w = []
  | Bol | Eol => False
  | Chr cs => exists c, w = [c] /\ cs_mem ic cs c = true
  | Rep cs lo hi =>
      Forall (fun c => cs_mem ic cs c = true) w
      /\ lo <= length w
      /\ match hi with Some h => length w <= h | None => True end
  | Opt r1 => lang ic r1 w \/ w = []
  | Seq r1 r2 => exists w1 w2, w = w1 ++ w2 /\ lang ic r1 w1 /\ lang ic r2 w2
  | Alt r1 r2 => lang ic r1 w \/ lang ic r2 w
  | Group r1 => lang ic r1 w
  end.

(** Patterns without [^] and [$]. *)
Fixpoint anchor_free (r : regex) : bool :=
  match r with
  | Bol | Eol => false
  | Eps | Chr _ | Rep _ _ _ => true
  | Opt r1 | Group r1 => anchor_free r1
  | Seq r1 r2 | Alt r1 r2 => anchor_free r1 && anchor_free r2
  end.

(** The set the first character of a match belongs to, when the pattern
    begins with one. *)
Fixpoint first_cs (r : regex) : option charset :=
  match r with
  | Chr cs => Some cs
  | Rep cs (S _) _ => Some cs
  | Seq r1 _ => first_cs r1
  | Group r1 => first_cs r1
  | _ => None
  end.

(** Patterns every match of which sets the group. *)
Fixpoint captures (r : regex) : bool :=
  match r with
  | Group _ => true
  | Seq r1 r2 => captures r1 || captures r2
  | Alt r1 r2 => captures r1 && captures r2
  | _ => false
  end.

(** ** Titles the filter refuses *)

(** A number as the rejection patterns read it: digits, then possibly a
    period, then possibly more digits. *)
Definition is_number (n : str) : Prop :=
  exists a d b,
    n = a ++ d ++ b /\ a <> []
    /\ Forall (fun c => is_digit c = true) a
    /\ (d = [] \/ d = ["."%char])
    /\ Forall (fun c => is_digit c = true) b.

(** The title begins with a number, then at least [gap] whitespace
    characters, then a unit of [units]. *)
Definition begins_with_quantity (gap : nat) (units : list str) (t : str)
    : Prop :=
  exists n ws u rest,
    t = n ++ ws ++ u ++ rest
    /\ is_number n
    /\ Forall (fun c => is_space c = true) ws /\ gap <= length ws
    /\ In u units.

(** The title contains "equation" in some mix of cases. *)
Definition mentions_equation (t : str) : Prop :=
  exists pre mid post, t = pre ++ mid ++ post /\ lower mid = lit "equation".

(** What follows [^] in the two rejection patterns: [\d+\.?\d*], then
    [\s*] or [\s+], then the group of the units. *)
Definition quantity_regex (gap : nat) (units : list str) : regex :=
  Seq (plus digit)
    (Seq (Opt dot)
       (Seq (star digit)
          (Seq (Rep white gap None) (Group (alts (map text units)))))).

(** The reading of the spec's words: the title begins with a number
    immediately followed by a unit of the vocabulary. *)
Definition spec_number_then_unit (t : str) : Prop :=
  exists n u rest,
    t = n ++ u ++ rest /\ n <> []
    /\ Forall (fun c => is_digit c = true) n
    /\ In u (measurement_units ++ flow_units).

(** ** Lines the patterns match *)

(** The character that follows the leading whitespace of a line a
    pattern matches: T or t for the first, a digit for the second, C or c
    for the last two. *)
Definition lead_set (k : nat) : charset :=
  match k with
  | 0 => one "T"%char
  | 1 => digit
  | _ => one "c"%char
  end.

(** What follows the leading whitespace, the seven letters of "chapter"
    and the whitespace after them. *)
Definition after_chapter (line : str) : str :=
  lstrip (skipn 7 (lstrip line)).

(** ** The order of the marks *)

(** The order of the result: by page, ascending. *)
Definition page_le (a b : mark) : Prop := (fst a <= fst b)%Z.

(** ** Filenames *)

(** The value a string of decimal digits denotes. *)
Definition digits_value (s : str) : option Z :=
  option_map Z.of_uint (NilEmpty.uint_of_string (string_of_list_ascii s)).

(** Two decimal digits for the ordinals up to 99. *)
Definition two_digits_of (n : Z) (s : str) : bool :=
  match s with
  | [a; b] =>
      is_digit a && is_digit b
      && (10 * (Z.of_nat (code a) - 48) + (Z.of_nat (code b) - 48) =? n)%Z
  | _ => false
  end.

(** The characters of a slug: alphanumeric, underscore or hyphen. *)
Definition slug_char (c : ascii) : bool :=
  is_alnum c || ascii_eqb c "_"%char || ascii_eqb c "-"%char.

(** What the code keeps: word characters (alphanumeric or underscore),
    whitespace and hyphen. *)
Definition code_keep (c : ascii) : bool :=
  is_alnum c || ascii_eqb c "_"%char || is_space c || ascii_eqb c "-"%char.

(** What the spec keeps of a title: strip what is not alphanumeric,
    whitespace or hyphen; then collapse whitespace runs to one
    underscore; then keep 50 characters. *)
Definition spec_keep (c : ascii) : bool :=
  is_alnum c || is_space c || ascii_eqb c "-"%char.

(** The slug in the words of the spec. *)
Definition spec_slug (chapter_title : str) : str :=
  firstn 50 (sub_ws (lit "_") (filter spec_keep chapter_title)).

(** The pattern of the spec: [Chapter_\d{2}_.{0,50}\.pdf] *)
Definition spec_filename_pattern : pattern :=
  Pattern false
    (seqs [text (lit "Chapter_"); Rep digit 2 (Some 2); Chr (one "_"%char);
           Rep not_newline 0 (Some 50); Chr (one "."%char);
           text (lit "pdf")]).

(** The same with two digits or more: [Chapter_\d{2,}_.{0,50}\.pdf] *)
Definition long_filename_pattern : pattern :=
  Pattern false
    (seqs [text (lit "Chapter_"); Rep digit 2 None; Chr (one "_"%char);
           Rep not_newline 0 (Some 50); Chr (one "."%char);
           text (lit "pdf")]).

(** ** Extracted pages *)

(** The entry of a page: its text, or the empty string. *)
Definition text_of (page : extraction) : str :=
  match page with Text t => t | Fails => [] end.

(** The entries of consecutive pages, the first of them numbered [k]. *)
Definition numbered (k : nat) (pages : list extraction) : list (Z * str) :=
  combine (map Z.of_nat (seq k (length pages))) (map text_of pages).

(** ** Chapter files *)

(** The file the loop writes at index [i] for a mark whose page index
    is not negative. *)
Definition chapter_file_at (total : Z) (dir : str) (chapters : list mark)
    (i : nat) (m : mark) : chapter_file :=
  ChapterFile
    (path_join dir (create_chapter_filename (snd m) (Z.of_nat i + 1)%Z))
    (range (fst m) (Z.min (end_page total chapters i + 1)%Z total)).

(** The files of the marks [todo], the first of them at index [k]. *)
Fixpoint files_from (total : Z) (dir : str) (chapters : list mark)
    (k : nat) (todo : list mark) : list chapter_file :=
  match todo with
  | [] => []
  | m :: todo' =>
      chapter_file_at total dir chapters k m
      :: files_from total dir chapters (S k) todo'
  end.

(** What [os.path.join] puts before a chapter filename. *)
Definition join_prefix (dir : str) : str :=
  match rev dir with
  | [] => []
  | "/"%char :: _ => dir
  | _ => dir ++ ["/"%char]
  end.

(** ** Sample documents *)

(** The scenario of two chapters on four pages. *)
Definition two_chapter_pages : list (Z * str) :=
  [(0%Z, lit "Topic I: Mass and Energy Balances" ++ newline :: lit "...");
   (1%Z, lit "some content");
   (2%Z, lit "Chapter 2. Thermodynamics" ++ newline :: lit "...");
   (3%Z, lit "more content")].

(** The marks of that scenario. *)
Definition two_chapter_marks : list mark :=
  [(0%Z, lit "Topic I: Mass and Energy Balances");
   (2%Z, lit "2. Thermodynamics")].

(** One mapping, a page of which carries two headings, enumerated in
    two orders. *)
Definition two_topics_first : list (Z * str) :=
  [(0%Z, lit "Topic I: Mass and Energy" ++ newline
         :: lit "Topic II: Heat Transfer Basics");
   (1%Z, lit "Chapter 2. Thermodynamics")].

Definition two_topics_last : list (Z * str) :=
  [(1%Z, lit "Chapter 2. Thermodynamics");
   (0%Z, lit "Topic I: Mass and Energy" ++ newline
         :: lit "Topic II: Heat Transfer Basics")].

End Vocabulary.
Import Vocabulary.

(** * More vocabulary, for the properties beyond the claims *)

Module MoreVocabulary.

(** A title is tidy when it is not empty, neither begins nor ends with
    whitespace, and its only whitespace is single U+0020 characters.
    [after_space] tells that the previous character was a space, or that
    the title begins. *)
Fixpoint tidy_from (after_space : bool) (t : str) : bool :=
  match t with
  | [] => negb after_space
  | c :: t' =>
      if is_space c
      then ascii_eqb c space && negb after_space && tidy_from true t'
      else tidy_from false t'
  end.

Definition tidy (t : str) : bool := tidy_from true t.

(** The character a line begins with when it can yield a mark: T, t, a
    decimal digit, C or c. *)
Definition heading_lead (c : ascii) : bool :=
  ascii_eqb (to_lower c) "t"%char || is_digit c
  || ascii_eqb (to_lower c) "c"%char.

(** [reader.pages[i]] with the index counted from the end when negative. *)
Definition wrap_page (total p : Z) : Z :=
  if (p <? 0)%Z then (total + p)%Z else p.

(** A mark makes the splitter raise when its start page lies before the
    first page counted from the end and its range is not empty. *)
Definition offends (total : Z) (chapters : list mark) (i : nat) (m : mark)
    : Prop :=
  (fst m < - total)%Z /\ (fst m <= end_page total chapters i)%Z.

(** The file of a mark that does not make the splitter raise. *)
Definition copied_file (total : Z) (dir : str) (chapters : list mark)
    (i : nat) (m : mark) : chapter_file :=
  ChapterFile
    (path_join dir (create_chapter_filename (snd m) (Z.of_nat i + 1)%Z))
    (map (wrap_page total)
         (range (fst m) (Z.min (end_page total chapters i + 1)%Z total))).

(** The files of the marks [todo], the first of them at index [k]. *)
Fixpoint copied_from (total : Z) (dir : str) (chapters : list mark)
    (k : nat) (todo : list mark) : list chapter_file :=
  match todo with
  | [] => []
  | m :: todo' =>
      copied_file total dir chapters k m
      :: copied_from total dir chapters (S k) todo'
  end.

(** The filenames of the marks [todo], the first of them at index [k]. *)
Fixpoint filenames_from (k : nat) (todo : list mark) : list str :=
  match todo with
  | [] => []
  | m :: todo' =>
      create_chapter_filename (snd m) (Z.of_nat k + 1)%Z
      :: filenames_from (S k) todo'
  end.

(** What a run of [main] prints and does once the detector has returned
    the marks [r], not empty, on a document of [n] pages. *)
Definition splitting_run (w : world) (n : nat) (r : list mark)
    : list event :=
  [Print Processing; Print OutputDirectory; Print Extracting;
   Print (Extracted n); Print Detecting; Print (Detected (length r))]
  ++ map (fun m => Print (DetectedAt (fst m) (snd m))) r
  ++ [Print (Splitting (length r)); SplitterCalled r]
  ++ map FileWritten (files_from (Z.of_nat n) (output_dir w) r 0 r)
  ++ [Print (Created (length r))]
  ++ map (fun name => Print (CreatedFile name)) (filenames_from 0 r)
  ++ [Print AllSaved].

(** What is typed when each page number and title of [pairs] is entered
    in turn. *)
Definition typed_pairs (pairs : list (str * str)) : list keyboard :=
  flat_map (fun pt => [Line (fst pt); Line (snd pt)]) pairs.

(** The marks of [l] on page [p], in the order of [l]. *)
Definition on_page (p : Z) (l : list mark) : list mark :=
  filter (fun m => (fst m =? p)%Z) l.

(** The entry [pt] is accepted by the loop as the mark [m]. *)
Definition entered (int_of : str -> option Z) (pt : str * str) (m : mark)
    : Prop :=
  strip (fst pt) <> [] /\ int_of (fst pt) = Some (fst m + 1)%Z
  /\ (0 <= fst m)%Z /\ snd m = strip (snd pt) /\ snd m <> [].

(** ** The extraction batches *)

(** The order of [sort()] on names. *)
Definition name_le (a b : str) : Prop := str_leb a b = true.

(** A name as [os.listdir] returns it: no path separator in it. *)
Definition plain_name (f : str) : Prop := ~ In "/"%char f.

(** The files a run handles, skipped or passed to the agent, in order. *)
Definition handled (steps : list step) : list str :=
  flat_map (fun s => match s with
                     | Skipped f | Attempted f => [f]
                     | _ => []
                     end) steps.

(** The files a run passes to the agent, in order. *)
Definition attempted (steps : list step) : list str :=
  flat_map (fun s => match s with Attempted f => [f] | _ => [] end) steps.

Definition is_raises {data : Type} (o : outcome data) : bool :=
  match o with Raises => true | _ => false end.

(** What the script that skips existing outputs does with one file when
    no earlier file of the run has the same output: its steps, and the
    file it leaves. *)
Definition file_steps (data : Type) (agent_extract : str -> outcome data)
    (chapter_pdfs_dir out_dir : str) (present : str -> bool)
    (pdf_file : str) : list step :=
  if present (output_file_of out_dir pdf_file) then [Skipped pdf_file]
  else match agent_extract (path_join chapter_pdfs_dir pdf_file) with
       | Written _ =>
           [Attempted pdf_file; Saved (output_file_of out_dir pdf_file)]
       | _ => [Attempted pdf_file; Failed pdf_file]
       end.

Definition file_left (data : Type) (agent_extract : str -> outcome data)
    (chapter_pdfs_dir out_dir : str) (present : str -> bool)
    (pdf_file : str) : list (str * data) :=
  if present (output_file_of out_dir pdf_file) then []
  else match agent_extract (path_join chapter_pdfs_dir pdf_file) with
       | Written d | WrittenThenRaises d =>
           [(output_file_of out_dir pdf_file, d)]
       | Raises => []
       end.

(** ** More sample documents *)

(** A run on a document of two pages, the first of which gives no text
    and the second of which begins with a heading. *)
Definition one_chapter_world : world :=
  World true
        (Some [Fails; Text (lit "Chapter 4. Fluid Dynamics and Pressure")])
        (lit "out").

Definition one_chapter_marks : list mark :=
  [(1%Z, lit "4. Fluid Dynamics and Pressure")].

Definition one_chapter_file : chapter_file :=
  ChapterFile (lit "out/Chapter_01_4_Fluid_Dynamics_and_Pressure.pdf")
              [1%Z].

(** A document whose first page carries two headings. *)
Definition two_topics_document : pdf :=
  map (fun kv => Text (snd kv)) two_topics_first.

Definition two_topics_marks : list mark :=
  [(0%Z, lit "Topic I: Mass and Energy");
   (0%Z, lit "Topic II: Heat Transfer Basics");
   (1%Z, lit "2. Thermodynamics")].

(** Five lines without a heading. *)
Definition five_plain_lines : str :=
  lit "1" ++ newline :: lit "2" ++ newline :: lit "3" ++ newline
  :: lit "4" ++ newline :: lit "5".

End MoreVocabulary.
Import MoreVocabulary.

(** * Properties *)

(** ** Page Text Extractor *)

Section ExtractorFacts.

Lemma dict_set_fresh k v d :
  Forall (fun kv => fst kv <> k) d -> dict_set k v d = d ++ [(k, v)].
Proof.
  induction 1 as [|[k' v'] d Hk Hd IH]; simpl; [reflexivity|].
  simpl in Hk. destruct (Z.eqb_spec k k') as [->|_]; [contradiction|].
  now rewrite IH.
Qed.

Lemma extract_loop_numbered pages : forall k acc,
  Forall (fun kv => (fst kv < Z.of_nat k)%Z) acc ->
  extract_loop k pages acc = acc ++ numbered k pages.
Proof.
  induction pages as [|page rest IH]; intros k acc Hacc; simpl.
  - unfold numbered. simpl. now rewrite app_nil_r.
  - assert (Hset : forall v, dict_set (Z.of_nat k) v acc
                             = acc ++ [(Z.of_nat k, v)]).
    { intro v. apply dict_set_fresh.
      eapply Forall_impl; [|exact Hacc]. simpl. intros kv H. lia. }
    assert (Hnext : forall v,
               Forall (fun kv => (fst kv < Z.of_nat (S k))%Z)
                      (acc ++ [(Z.of_nat k, v)])).
    { intro v. apply Forall_app. split.
      - eapply Forall_impl; [|exact Hacc]. simpl. intros kv H. lia.
      - constructor; [simpl; lia|constructor]. }
    unfold numbered. simpl.
    destruct page as [t|]; rewrite Hset, IH by apply Hnext;
      unfold numbered; simpl; now rewrite <- app_assoc.
Qed.

Lemma numbered_keys k pages :
  map fst (numbered k pages) = map Z.of_nat (seq k (length pages)).
Proof.
  unfold numbered. revert k.
  induction pages as [|page rest IH]; intro k; simpl; [reflexivity|].
  now rewrite IH.
Qed.

Lemma numbered_get : forall ps k i page,
  nth_error ps i = Some page ->
  dict_get (Z.of_nat (k + i)) (numbered k ps) = Some (text_of page).
Proof.
  induction ps as [|p0 ps IH]; intros k i page H.
  - destruct i; discriminate.
  - unfold numbered. cbn [length seq map combine dict_get].
    destruct i as [|i]; simpl in H.
    + inversion H; subst. rewrite Nat.add_0_r, Z.eqb_refl. reflexivity.
    + destruct (Z.eqb_spec (Z.of_nat (k + S i)) (Z.of_nat k)) as [E|_];
        [lia|].
      replace (k + S i) with (S k + i) by lia. now apply IH.
Qed.

End ExtractorFacts.

(** C3. For a document of [page_count] pages, the mapping returned by
    [extract_text_from_pdf] has the keys 0, 1, ..., page_count - 1, each
    once and in that order; the entry of a page whose extraction fails is
    the empty string, and the entry of every other page is its text,
    whatever fails before or after it. *)
Theorem extract_text_total_keys (reader : pdf) :
  map fst (extract_text_from_pdf reader)
  = map Z.of_nat (seq 0 (length reader))
  /\ extract_text_from_pdf reader
     = combine (map Z.of_nat (seq 0 (length reader))) (map text_of reader)
  /\ (forall i, nth_error reader i = Some Fails ->
                dict_get (Z.of_nat i) (extract_text_from_pdf reader)
                = Some [])
  /\ (forall i t, nth_error reader i = Some (Text t) ->
                  dict_get (Z.of_nat i) (extract_text_from_pdf reader)
                  = Some t).
Proof.
  assert (H : extract_text_from_pdf reader = numbered 0 reader).
  { unfold extract_text_from_pdf.
    rewrite extract_loop_numbered by constructor. reflexivity. }
  rewrite H. split; [apply numbered_keys|]. split; [reflexivity|].
  split.
  - intros i Hi. exact (numbered_get reader 0 i Fails Hi).
  - intros i t Hi. exact (numbered_get reader 0 i (Text t) Hi).
Qed.

Lemma extract_text_total_keys_witness :
  nth_error [Text (lit "first page"); Fails; Text (lit "third page")] 1
  = Some Fails
  /\ nth_error [Text (lit "first page"); Fails; Text (lit "third page")] 2
     = Some (Text (lit "third page"))
  /\ dict_get 1 (extract_text_from_pdf
                   [Text (lit "first page"); Fails; Text (lit "third page")])
     = Some []
  /\ dict_get 2 (extract_text_from_pdf
                   [Text (lit "first page"); Fails; Text (lit "third page")])
     = Some (lit "third page").
Proof.
  assert (H1 : nth_error [Text (lit "first page"); Fails;
                          Text (lit "third page")] 1 = Some Fails)
    by reflexivity.
  assert (H2 : nth_error [Text (lit "first page"); Fails;
                          Text (lit "third page")] 2
               = Some (Text (lit "third page")))
    by reflexivity.
  split; [exact H1|]. split; [exact H2|].
  destruct (extract_text_total_keys
              [Text (lit "first page"); Fails; Text (lit "third page")])
    as [_ [_ [F T]]].
  split; [exact (F 1%nat H1)|exact (T 2%nat _ H2)].
Defined.

(** ** The matcher *)

Module ReFacts.

Lemma rep_from_in ic cs : forall s lo hi p q s',
  In (q, s') (rep_from ic cs lo hi p s)
  <-> exists w, s = w ++ s'
                /\ Forall (fun c => cs_mem ic cs c = true) w
                /\ lo <= length w
                /\ match hi with Some h => length w <= h | None => True end
                /\ q = p + length w.
Proof.
  assert (Hstop : forall (lo p : nat) (s : str) (q : nat) (s' : str),
             In (q, s') (match lo with 0 => [(p, s)] | S _ => [] end)
             <-> lo = 0 /\ q = p /\ s' = s).
  { intros [|lo] p s q s'; simpl; split.
    - intros [E|[]]. inversion E. auto.
    - intros [_ [-> ->]]. now left.
    - intros [].
    - intros [E _]. discriminate. }
  induction s as [|c s IH]; intros lo hi p q s'.
  - simpl. rewrite Hstop. split.
    + intros [-> [-> ->]]. exists []. simpl. repeat split; auto.
      destruct hi; lia.
    + intros [w [E [_ [Hlo [_ ->]]]]].
      symmetry in E. apply app_eq_nil in E. destruct E as [-> ->].
      simpl in *. repeat split; lia.
  - cbn [rep_from].
    assert (Hnil : (lo = 0 /\ q = p /\ s' = c :: s)
                   <-> exists w, c :: s = w ++ s' /\ w = []
                                 /\ lo <= length w /\ q = p + length w).
    { split.
      - intros [-> [-> ->]]. exists []. simpl. repeat split; auto.
      - intros [w [E [-> [Hlo ->]]]]. simpl in *. repeat split; auto; lia. }
    destruct (cs_mem ic cs c) eqn:Hc; simpl andb.
    + destruct (hi_zero hi) eqn:Hz; simpl negb; cbv iota.
      * destruct hi as [[|h]|]; try discriminate.
        rewrite Hstop, Hnil. split.
        -- intros [w [E [-> [Hlo ->]]]]. exists []. repeat split; auto.
        -- intros [w [E [Hw [Hlo [Hhi ->]]]]].
           assert (w = []) by (destruct w; [reflexivity|simpl in Hhi; lia]).
           subst w. exists []. repeat split; auto.
      * rewrite in_app_iff, IH, Hstop, Hnil. split.
        -- intros [[w [E [Hw [Hlo [Hhi ->]]]]]|[w [E [-> [Hlo ->]]]]].
           ++ exists (c :: w). simpl. subst s.
              repeat split; auto; try lia.
              destruct hi as [[|h]|]; simpl in *; try discriminate; lia.
           ++ exists []. simpl in *. repeat split; auto.
              destruct hi; lia.
        -- intros [[|c' w] [E [Hw [Hlo [Hhi ->]]]]].
           ++ right. exists []. repeat split; auto.
           ++ left. simpl in E. inversion E; subst. inversion Hw; subst.
              exists w. simpl in *. repeat split; auto; try lia.
              destruct hi as [[|h]|]; simpl in *; try discriminate; lia.
    + rewrite Hstop, Hnil. split.
      * intros [w [E [-> [Hlo ->]]]]. exists []. repeat split; auto.
        destruct hi; simpl; lia.
      * intros [[|c' w] [E [Hw [Hlo [Hhi ->]]]]].
        -- exists []. repeat split; auto.
        -- simpl in E. inversion E; subst. inversion Hw; subst. congruence.
Qed.

(** The matcher lists exactly the matches. *)
Theorem run_denote ic : forall r st st',
  In st' (run ic r st) <-> denote ic r st st'.
Proof.
  induction r as [| | |cs|cs lo hi|r1 IH1|r1 IH1 r2 IH2|r1 IH1 r2 IH2|r1 IH1];
    intros st st'; cbn [run denote].
  - simpl. intuition.
  - destruct (Nat.eqb_spec (m_pos st) 0); simpl; intuition.
  - destruct (m_rest st) as [|c [|c' s]] eqn:E; simpl.
    + intuition.
    + unfold ascii_eqb. destruct (Ascii.eqb_spec c newline) as [->|Hc]; simpl.
      * intuition.
      * split; [intros []|]. intros [[H|H] _]; [discriminate|].
        inversion H. contradiction.
    + split; [intros []|]. intros [[H|H] _]; discriminate.
  - destruct st as [p s g]. destruct st' as [p' s' g']. simpl.
    destruct s as [|c s]; simpl.
    + split; [intros []|]. intros [c [E _]]. discriminate.
    + destruct (cs_mem ic cs c) eqn:Hc; simpl.
      * split.
        -- intros [E|[]]. inversion E; subst. exists c. auto.
        -- intros [c0 [E [_ [-> ->]]]]. inversion E; subst. now left.
      * split; [intros []|]. intros [c0 [E [Hc0 _]]].
        inversion E; subst. congruence.
  - destruct st as [p s g]. destruct st' as [p' s' g']. simpl.
    rewrite in_map_iff. split.
    + intros [[q t] [E H]]. simpl in E. inversion E; subst.
      apply rep_from_in in H. destruct H as [w [-> [Hw [Hlo [Hhi ->]]]]].
      exists w. repeat split; auto.
    + intros [w [-> [Hw [Hlo [Hhi [-> ->]]]]]].
      exists (p + length w, s'). split; [reflexivity|].
      apply rep_from_in. exists w. repeat split; auto.
  - rewrite in_app_iff, IH1. simpl. intuition.
  - rewrite in_flat_map. split.
    + intros [mid [H1 H2]]. exists mid. now rewrite <- IH1, <- IH2.
    + intros [mid [H1 H2]]. exists mid. now rewrite IH1, IH2.
  - now rewrite in_app_iff, IH1, IH2.
  - rewrite in_map_iff. split.
    + intros [e [E H]]. exists e. now rewrite <- IH1.
    + intros [e [H E]]. exists e. now rewrite IH1.
Qed.

(** A match consumes a prefix of what remained. *)
Lemma denote_suffix ic : forall r st st',
  denote ic r st st' ->
  exists w, m_rest st = w ++ m_rest st'
            /\ m_pos st' = m_pos st + length w.
Proof.
  induction r as [| | |cs|cs lo hi|r1 IH1|r1 IH1 r2 IH2|r1 IH1 r2 IH2|r1 IH1];
    intros st st'; cbn [denote].
  - intros ->. exists []. simpl. auto.
  - intros [_ ->]. exists []. simpl. auto.
  - intros [_ ->]. exists []. simpl. auto.
  - intros [c [E [_ [P _]]]]. exists [c]. simpl. split; [exact E|lia].
  - intros [w [E [_ [_ [_ [P _]]]]]]. exists w. auto.
  - intros [H| ->]; [now apply IH1|]. exists []. simpl. auto.
  - intros [mid [H1 H2]].
    destruct (IH1 _ _ H1) as [w1 [E1 P1]].
    destruct (IH2 _ _ H2) as [w2 [E2 P2]].
    exists (w1 ++ w2). rewrite <- app_assoc, <- E2, length_app.
    split; [auto|lia].
  - intros [H|H]; [now apply IH1|now apply IH2].
  - intros [e [H ->]]. simpl. now apply IH1.
Qed.

Lemma run_suffix ic r st st' :
  In st' (run ic r st) ->
  exists w, m_rest st = w ++ m_rest st'
            /\ m_pos st' = m_pos st + length w.
Proof. intro H. apply run_denote in H. now apply denote_suffix in H. Qed.

(** A pattern that begins with [^] matches at offset 0 or nowhere. *)
Lemma search_from_later ic r : forall s p g,
  0 < p -> run ic (Seq Bol r) (MState p s g) = [].
Proof.
  intros s p g Hp. cbn [run m_pos].
  destruct (Nat.eqb_spec p 0); [lia|reflexivity].
Qed.

Lemma search_anchored ic r s :
  search_from ic (Seq Bol r) 0 s = hd_error (run ic r (MState 0 s None)).
Proof.
  assert (Hlater : forall s p, 0 < p -> search_from ic (Seq Bol r) p s = None).
  { induction s0 as [|c s0 IH]; intros p Hp; cbn [search_from];
      rewrite search_from_later by exact Hp; [reflexivity|].
    apply IH. lia. }
  destruct s as [|c s]; cbn [search_from].
  - cbn [run m_pos Nat.eqb flat_map]. rewrite app_nil_r.
    now destruct (run ic r _).
  - cbn [run m_pos Nat.eqb flat_map]. rewrite app_nil_r.
    destruct (run ic r _); [|reflexivity]. apply Hlater. lia.
Qed.

Lemma hd_error_in {A} (l : list A) x : hd_error l = Some x -> In x l.
Proof. destruct l; simpl; [discriminate|]. intros [= ->]. now left. Qed.

Lemma hd_error_some {A} (l : list A) : l <> [] -> exists x, hd_error l = Some x.
Proof. destruct l as [|x l]; [congruence|]. intros _. now exists x. Qed.

Lemma hd_error_flat_map {A B} (f : A -> list B) : forall l y,
  hd_error (flat_map f l) = Some y ->
  exists x, In x l /\ hd_error (f x) = Some y.
Proof.
  induction l as [|x l IH]; intros y H; simpl in H; [discriminate|].
  destruct (f x) as [|z zs] eqn:E; simpl in H.
  - destruct (IH y H) as [x' [Hin Hx']]. exists x'.
    split; [now right|exact Hx'].
  - inversion H; subst. exists x. split; [now left|]. now rewrite E.
Qed.

Lemma hd_error_map {A B} (f : A -> B) l :
  hd_error (map f l) = option_map f (hd_error l).
Proof. now destruct l. Qed.

Lemma hd_error_app {A} (l l' : list A) :
  hd_error (l ++ l')
  = match hd_error l with Some x => Some x | None => hd_error l' end.
Proof. now destruct l. Qed.

(** A greedy repetition without upper bound, over text it accepts
    whole, first stops at the end of the text. *)
Lemma rep_from_all ic cs : forall s lo p,
  Forall (fun c => cs_mem ic cs c = true) s ->
  hd_error (rep_from ic cs lo None p s)
  = if lo <=? length s then Some (p + length s, []) else None.
Proof.
  induction s as [|c s IH]; intros lo p H.
  - destruct lo; simpl; [now rewrite Nat.add_0_r|reflexivity].
  - inversion H as [|? ? Hc Hs]; subst. cbn [rep_from].
    rewrite Hc. simpl andb. cbv iota. cbn [option_map].
    rewrite hd_error_app, (IH (pred lo) (S p) Hs).
    destruct lo as [|lo]; cbn [pred length].
    + simpl. do 2 f_equal. lia.
    + change (S lo <=? S (length s)) with (lo <=? length s).
      destruct (lo <=? length s); [|reflexivity].
      do 2 f_equal. lia.
Qed.

(** On text the last repetition accepts whole, the first match of such
    a pattern runs to the end of the text. *)
Lemma ends_greedy_first ic P r :
  ends_greedy ic P r ->
  forall st st', Forall P (m_rest st) ->
    hd_error (run ic r st) = Some st' -> m_rest st' = [].
Proof.
  induction 1 as [cs lo Hcs|r1 r2 H IH]; intros st st' Hst Hhd.
  - cbn [run] in Hhd. rewrite hd_error_map in Hhd.
    rewrite rep_from_all in Hhd.
    + destruct (lo <=? _); simpl in Hhd; [|discriminate].
      now inversion Hhd.
    + eapply Forall_impl; [|exact Hst]. exact Hcs.
  - cbn [run] in Hhd. apply hd_error_flat_map in Hhd.
    destruct Hhd as [mid [Hmid Hhd]].
    apply (IH mid st'); [|exact Hhd].
    apply run_suffix in Hmid. destruct Hmid as [w [E _]].
    rewrite E in Hst. now apply Forall_app in Hst.
Qed.

Lemma denote_lang ic : forall r st st',
  denote ic r st st' ->
  anchor_free r = true ->
  exists w, m_rest st = w ++ m_rest st' /\ lang ic r w.
Proof.
  induction r as [| | |cs|cs lo hi|r1 IH1|r1 IH1 r2 IH2|r1 IH1 r2 IH2|r1 IH1];
    intros st st'; cbn [denote lang anchor_free]; try discriminate.
  - intros -> _. now exists [].
  - intros [c [E [Hc _]]] _. exists [c]. split; [exact E|]. now exists c.
  - intros [w [E [Hw [Hlo [Hhi _]]]]] _. exists w. auto.
  - intros [H| ->] Ha.
    + destruct (IH1 _ _ H Ha) as [w [E Hw]]. exists w. auto.
    + exists []. auto.
  - intros [mid [H1 H2]] Ha. apply andb_true_iff in Ha. destruct Ha as [A1 A2].
    destruct (IH1 _ _ H1 A1) as [w1 [E1 L1]].
    destruct (IH2 _ _ H2 A2) as [w2 [E2 L2]].
    exists (w1 ++ w2). rewrite <- app_assoc, <- E2. split; [exact E1|].
    now exists w1, w2.
  - intros [H|H] Ha; apply andb_true_iff in Ha; destruct Ha as [A1 A2].
    + destruct (IH1 _ _ H A1) as [w [E Hw]]. exists w. auto.
    + destruct (IH2 _ _ H A2) as [w [E Hw]]. exists w. auto.
  - intros [e [H ->]] Ha. simpl. now apply IH1.
Qed.

Lemma lang_denote ic : forall r w st s',
  lang ic r w -> m_rest st = w ++ s' ->
  exists st', denote ic r st st' /\ m_rest st' = s'
              /\ m_pos st' = m_pos st + length w.
Proof.
  induction r as [| | |cs|cs lo hi|r1 IH1|r1 IH1 r2 IH2|r1 IH1 r2 IH2|r1 IH1];
    intros w st s'; cbn [denote lang]; try contradiction.
  - intros -> E. exists st. simpl in *. repeat split; auto.
  - intros [c [-> Hc]] E. simpl in E.
    exists (MState (S (m_pos st)) s' (m_grp st)). simpl.
    split; [exists c; repeat split; auto|]. split; [reflexivity|lia].
  - intros [Hw [Hlo Hhi]] E.
    exists (MState (m_pos st + length w) s' (m_grp st)). simpl.
    split; [exists w; repeat split; auto|]. auto.
  - intros [H| ->] E.
    + destruct (IH1 _ _ _ H E) as [st' [D R]]. exists st'. auto.
    + exists st. simpl in *. repeat split; auto.
  - intros [w1 [w2 [-> [L1 L2]]]] E. rewrite <- app_assoc in E.
    destruct (IH1 _ _ _ L1 E) as [mid [D1 [R1 P1]]].
    destruct (IH2 _ _ _ L2 R1) as [st' [D2 [R2 P2]]].
    exists st'. split; [now exists mid|]. split; [exact R2|].
    rewrite length_app. lia.
  - intros [H|H] E.
    + destruct (IH1 _ _ _ H E) as [st' [D R]]. exists st'. auto.
    + destruct (IH2 _ _ _ H E) as [st' [D R]]. exists st'. auto.
  - intros H E. destruct (IH1 _ _ _ H E) as [e [D [R P]]].
    eexists. split; [exists e; split; [exact D|reflexivity]|].
    simpl. auto.
Qed.

(** When a pattern [^r] is found in a string. *)
Lemma found_anchored ic r t :
  anchor_free r = true ->
  (exists m, re_search (Pattern ic (Seq Bol r)) t = Some m)
  <-> exists w rest, t = w ++ rest /\ lang ic r w.
Proof.
  intro Ha. unfold re_search. cbn [ignorecase body].
  rewrite search_anchored. split.
  - intros [m H]. apply hd_error_in, run_denote in H.
    destruct (denote_lang _ _ _ _ H Ha) as [w [E L]]. simpl in E.
    now exists w, (m_rest m).
  - intros [w [rest [E L]]].
    destruct (lang_denote ic r w (MState 0 t None) rest L E) as [st' [D _]].
    apply run_denote in D. apply hd_error_some.
    intro Hnil. rewrite Hnil in D. contradiction.
Qed.

Lemma lang_text_exact : forall u w,
  lang false (text u) w <-> w = u.
Proof.
  assert (Hone : forall c x, cs_mem false (one c) x = true <-> x = c).
  { intros c x. unfold cs_mem, one. simpl.
    rewrite orb_false_r. unfold ascii_eqb.
    destruct (Ascii.eqb_spec c x); split; congruence. }
  induction u as [|c u IH]; intro w.
  - simpl. tauto.
  - destruct u as [|c' u].
    + simpl. split.
      * intros [x [-> Hx]]. apply Hone in Hx. now subst.
      * intros ->. exists c. split; [reflexivity|]. now apply Hone.
    + change (text (c :: c' :: u)) with (Seq (Chr (one c)) (text (c' :: u))).
      cbn [lang]. split.
      * intros [w1 [w2 [-> [[x [-> Hx]] H2]]]]. apply Hone in Hx.
        apply IH in H2. now subst.
      * intros ->. exists [c], (c' :: u). split; [reflexivity|].
        split; [exists c; split; [reflexivity|now apply Hone]|].
        now apply IH.
Qed.

Lemma lang_alts ic : forall rs w,
  lang ic (alts rs) w <-> exists r, In r rs /\ lang ic r w.
Proof.
  induction rs as [|r rs IH]; intro w.
  - simpl. split; [|intros [r [[] _]]].
    intros [c [_ H]]. discriminate.
  - destruct rs as [|r' rs].
    + simpl. split.
      * intro H. exists r. auto.
      * intros [r0 [[<-|[]] H]]. exact H.
    + change (alts (r :: r' :: rs)) with (Alt r (alts (r' :: rs))).
      cbn [lang]. rewrite IH. split.
      * intros [H|[r0 [Hin H]]]; [exists r; split; [now left|exact H]|].
        exists r0. split; [now right|exact H].
      * intros [r0 [[<-|Hin] H]]; [now left|]. right. now exists r0.
Qed.

Lemma anchor_free_alts_text us : anchor_free (alts (map text us)) = true.
Proof.
  assert (Ht : forall u, anchor_free (text u) = true).
  { induction u as [|c [|c' u] IH]; try reflexivity. exact IH. }
  induction us as [|u [|u' us] IH]; try reflexivity.
  - apply Ht.
  - change (anchor_free (text u) && anchor_free (alts (map text (u' :: us)))
            = true).
    now rewrite Ht, IH.
Qed.

Lemma first_cs_sound ic : forall r cs st st',
  first_cs r = Some cs -> denote ic r st st' ->
  exists c rest, m_rest st = c :: rest /\ cs_mem ic cs c = true.
Proof.
  induction r as [| | |cs0|cs0 lo hi|r1 IH1|r1 IH1 r2 IH2|r1 IH1 r2 IH2|r1 IH1];
    intros cs st st'; cbn [first_cs denote]; try discriminate.
  - intros [= <-] [c [E [Hc _]]]. now exists c, (m_rest st').
  - destruct lo as [|lo]; [discriminate|].
    intros [= <-] [w [E [Hw [Hlo _]]]].
    destruct w as [|c w]; [simpl in Hlo; lia|].
    inversion Hw; subst. exists c, (w ++ m_rest st'). auto.
  - intros H [mid [H1 _]]. eapply IH1; eauto.
  - intros H [e [H1 _]]. eapply IH1; eauto.
Qed.

Lemma text_first_cs c u : first_cs (text (c :: u)) = Some (one c).
Proof. now destruct u. Qed.

Lemma text_anchor_free u : anchor_free (text u) = true.
Proof. induction u as [|c [|c' u] IH]; try reflexivity. exact IH. Qed.

Lemma lang_text_length ic : forall u w,
  lang ic (text u) w -> length w = length u.
Proof.
  induction u as [|c u IH]; intro w.
  - simpl. now intros ->.
  - destruct u as [|c' u].
    + simpl. intros [x [-> _]]. reflexivity.
    + change (text (c :: c' :: u)) with (Seq (Chr (one c)) (text (c' :: u))).
      cbn [lang]. intros [w1 [w2 [-> [[x [-> _]] H2]]]].
      apply IH in H2. simpl in *. now rewrite H2.
Qed.

Lemma lstrip_ws w s :
  Forall (fun c => is_space c = true) w -> lstrip (w ++ s) = lstrip s.
Proof.
  induction 1 as [|c w Hc Hw IH]; simpl; [reflexivity|]. now rewrite Hc.
Qed.

Lemma lstrip_solid c s : is_space c = false -> lstrip (c :: s) = c :: s.
Proof. intro H. simpl. now rewrite H. Qed.

(** The first character after the leading whitespace of a line that a
    pattern [^\s*r] matches. *)
Lemma lead_char ic r cs line m :
  (forall c, cs_mem ic white c = is_space c) ->
  first_cs r = Some cs ->
  (forall c, cs_mem ic cs c = true -> is_space c = false) ->
  re_search (Pattern ic (Seq Bol (Seq (star white) r))) line = Some m ->
  exists c rest, lstrip line = c :: rest /\ cs_mem ic cs c = true.
Proof.
  intros Hwhite Hfirst Hsolid H. unfold re_search in H.
  cbn [ignorecase body] in H. rewrite search_anchored in H.
  apply hd_error_in, run_denote in H. cbn [denote star] in H.
  destruct H as [mid [[w [E [Hw _]]] H]]. simpl in E.
  destruct (first_cs_sound ic r cs mid m Hfirst H) as [c [rest [Er Hc]]].
  exists c, rest. split; [|exact Hc].
  rewrite E, Er, lstrip_ws, lstrip_solid; auto.
  eapply Forall_impl; [|exact Hw]. intros x Hx. now rewrite <- Hwhite.
Qed.

(** The group of the first match of [^\s*u\s+(g)] on a line where the
    last, greedy repetition of [g] accepts every character: all of the
    line after [u] and the whitespace that follows it. *)
Lemma anchored_group_rest ic c0 u g cs (P : ascii -> Prop) line m :
  (forall c, cs_mem ic white c = is_space c) ->
  (forall c, cs_mem ic (one c0) c = true -> is_space c = false) ->
  first_cs g = Some cs ->
  (forall c, cs_mem ic cs c = true -> is_space c = false) ->
  ends_greedy ic P g ->
  Forall P line ->
  re_search (Pattern ic
               (Seq Bol
                  (Seq (star white)
                     (Seq (text (c0 :: u))
                        (Seq (plus white) (Group g))))))
            line = Some m ->
  m_grp m = Some (lstrip (skipn (length (c0 :: u)) (lstrip line))).
Proof.
  intros Hwhite Hc0 Hfirst Hsolid Hgreedy Hline H.
  assert (Hws : forall w, Forall (fun c => cs_mem ic white c = true) w ->
                          Forall (fun c => is_space c = true) w).
  { intros w Hw. eapply Forall_impl; [|exact Hw].
    intros x Hx. now rewrite <- Hwhite. }
  unfold re_search in H. cbn [ignorecase body] in H.
  rewrite search_anchored in H. cbn [run] in H.
  apply hd_error_flat_map in H. destruct H as [s1 [H1 H]].
  apply hd_error_flat_map in H. destruct H as [s2 [H2 H]].
  apply hd_error_flat_map in H. destruct H as [s3 [H3 H]].
  rewrite hd_error_map in H.
  destruct (hd_error (run ic g s3)) as [e|] eqn:He; [|discriminate].
  simpl in H. inversion H; subst m; clear H. cbn [m_grp]. f_equal.
  (* the leading whitespace *)
  change (In s1 (run ic (star white) (MState 0 line None))) in H1.
  apply run_denote in H1. cbn [denote star] in H1.
  destruct H1 as [w1 [E1 [Hw1 _]]]. simpl in E1.
  (* the literal text *)
  change (In s2 (run ic (text (c0 :: u)) s1)) in H2.
  apply run_denote in H2.
  destruct (first_cs_sound ic _ _ _ _ (text_first_cs c0 u) H2)
    as [x [r1 [Ex Hx]]].
  destruct (denote_lang ic _ _ _ H2 (text_anchor_free _)) as [tw [E2 L2]].
  apply lang_text_length in L2.
  (* the whitespace before the group *)
  change (In s3 (run ic (plus white) s2)) in H3.
  apply run_denote in H3. cbn [denote plus] in H3.
  destruct H3 as [w3 [E3 [Hw3 _]]].
  (* the group *)
  assert (He' := hd_error_in _ _ He). apply run_denote in He'.
  destruct (first_cs_sound ic g cs s3 e Hfirst He') as [y [r3 [Ey Hy]]].
  destruct (denote_suffix ic g s3 e He') as [w [Ew Pw]].
  assert (Hend : m_rest e = []).
  { apply (ends_greedy_first ic P g Hgreedy s3 e); [|exact He].
    rewrite E1, E2, E3 in Hline.
    apply Forall_app in Hline. destruct Hline as [_ Hline].
    apply Forall_app in Hline. destruct Hline as [_ Hline].
    now apply Forall_app in Hline. }
  rewrite Hend, app_nil_r in Ew.
  replace (m_pos e - m_pos s3) with (length w) by lia.
  rewrite Ew, firstn_all.
  rewrite E1, lstrip_ws by now apply Hws.
  rewrite Ex, lstrip_solid by now apply Hc0.
  rewrite <- Ex, E2, <- L2, skipn_app, skipn_all, Nat.sub_diag.
  cbn [skipn app]. rewrite E3, lstrip_ws by now apply Hws.
  rewrite Ey, lstrip_solid by now apply Hsolid.
  now rewrite <- Ey.
Qed.

Lemma denote_keeps_group ic : forall r st st',
  denote ic r st st' -> m_grp st <> None -> m_grp st' <> None.
Proof.
  induction r as [| | |cs|cs lo hi|r1 IH1|r1 IH1 r2 IH2|r1 IH1 r2 IH2|r1 IH1];
    intros st st'; cbn [denote].
  - now intros ->.
  - now intros [_ ->].
  - now intros [_ ->].
  - intros [c [_ [_ [_ E]]]]. now rewrite E.
  - intros [w [_ [_ [_ [_ [_ E]]]]]]. now rewrite E.
  - intros [H| ->]; [now apply IH1|auto].
  - intros [mid [H1 H2]] H. eapply IH2; eauto.
  - intros [H|H]; [now apply IH1|now apply IH2].
  - intros [e [_ ->]] _. discriminate.
Qed.

Lemma captures_sound ic : forall r st st',
  captures r = true -> denote ic r st st' -> m_grp st' <> None.
Proof.
  induction r as [| | |cs|cs lo hi|r1 IH1|r1 IH1 r2 IH2|r1 IH1 r2 IH2|r1 IH1];
    intros st st'; cbn [captures denote]; try discriminate.
  - intros Hc [mid [H1 H2]]. apply orb_true_iff in Hc.
    destruct (captures r2) eqn:E2; [now apply (IH2 mid)|].
    destruct Hc as [Hc|Hc]; [|discriminate].
    eapply denote_keeps_group; [exact H2|]. now apply (IH1 st).
  - intros Hc [H|H]; apply andb_true_iff in Hc; destruct Hc as [C1 C2].
    + now apply (IH1 st).
    + now apply (IH2 st).
  - intros _ [e [_ ->]]. discriminate.
Qed.

Lemma search_captures ic r line m :
  captures r = true ->
  re_search (Pattern ic (Seq Bol r)) line = Some m ->
  exists g, m_grp m = Some g.
Proof.
  intros Hc H. unfold re_search in H. cbn [ignorecase body] in H.
  rewrite search_anchored in H. apply hd_error_in, run_denote in H.
  apply (captures_sound ic r _ _ Hc) in H.
  destruct (m_grp m) as [g|]; [now exists g|congruence].
Qed.

End ReFacts.
Import ReFacts.

(** ** Strings *)

Section StringFacts.

Lemma lstrip_Forall_gen (P : ascii -> Prop) s :
  Forall P s -> Forall P (lstrip s).
Proof.
  induction 1 as [|c s Hc Hs IH]; simpl; [constructor|].
  destruct (is_space c); [exact IH|now constructor].
Qed.

Lemma strip_Forall_gen (P : ascii -> Prop) s :
  Forall P s -> Forall P (strip s).
Proof.
  intro H. unfold strip, rstrip.
  apply Forall_rev, lstrip_Forall_gen, Forall_rev, lstrip_Forall_gen, H.
Qed.

End StringFacts.

(** ** Chapter Detector: the false-positive filter *)

Section FilterFacts.

Lemma cs_mem_digit c : cs_mem false digit c = is_digit c.
Proof. unfold cs_mem, digit. simpl. now rewrite orb_false_r. Qed.

Lemma cs_mem_white c : cs_mem false white c = is_space c.
Proof. unfold cs_mem, white. simpl. now rewrite orb_false_r. Qed.

Lemma cs_mem_dot c : cs_mem false (one "."%char) c = true <-> c = "."%char.
Proof.
  unfold cs_mem, one. cbn [cs_negated cs_items existsb item_mem xorb].
  rewrite orb_false_r. unfold ascii_eqb.
  destruct (Ascii.eqb_spec "."%char c); split; congruence.
Qed.

Lemma Forall_ext_eq (f g : ascii -> bool) (w : str) :
  (forall c, f c = g c) ->
  Forall (fun c => f c = true) w <-> Forall (fun c => g c = true) w.
Proof.
  intro E. split; intro H; (eapply Forall_impl; [|exact H]); simpl;
    intros c Hc; [rewrite <- E|rewrite E]; exact Hc.
Qed.

Lemma quantity_regex_lang gap units w :
  lang false (quantity_regex gap units) w
  <-> exists n ws u,
        w = n ++ ws ++ u /\ is_number n
        /\ Forall (fun c => is_space c = true) ws /\ gap <= length ws
        /\ In u units.
Proof.
  unfold quantity_regex, plus, star, dot. cbn [lang]. split.
  - intros [a [w2 [-> [[Ha [Hla _]] H2]]]].
    destruct H2 as [d [w4 [-> [Hd H4]]]].
    destruct H4 as [b [w6 [-> [[Hb _] H6]]]].
    destruct H6 as [ws [u [-> [[Hws [Hgap _]] Hu]]]].
    apply lang_alts in Hu. destruct Hu as [r [Hr Hu]].
    apply in_map_iff in Hr. destruct Hr as [u0 [<- Hu0]].
    apply lang_text_exact in Hu. subst u.
    exists (a ++ d ++ b), ws, u0.
    split; [now rewrite <- !app_assoc|]. split.
    + exists a, d, b. split; [reflexivity|].
      split; [destruct a; simpl in Hla; [lia|congruence]|].
      split; [now apply (Forall_ext_eq _ _ a cs_mem_digit)|].
      split; [|now apply (Forall_ext_eq _ _ b cs_mem_digit)].
      destruct Hd as [[c [-> Hc]]| ->]; [right|now left].
      apply cs_mem_dot in Hc. now subst.
    + split; [now apply (Forall_ext_eq _ _ ws cs_mem_white)|]. auto.
  - intros [n [ws [u [-> [Hn [Hws [Hgap Hu]]]]]]].
    destruct Hn as [a [d [b [-> [Hna [Ha [Hd Hb]]]]]]].
    exists a, (d ++ b ++ ws ++ u). split; [now rewrite <- !app_assoc|].
    split.
    { split; [now apply (Forall_ext_eq _ _ a cs_mem_digit)|].
      split; [destruct a; simpl; [congruence|lia]|exact I]. }
    exists d, (b ++ ws ++ u). split; [reflexivity|]. split.
    { destruct Hd as [->| ->]; [now right|left].
      exists "."%char. split; [reflexivity|]. now apply cs_mem_dot. }
    exists b, (ws ++ u). split; [reflexivity|]. split.
    { split; [now apply (Forall_ext_eq _ _ b cs_mem_digit)|].
      split; [lia|exact I]. }
    exists ws, u. split; [reflexivity|]. split.
    { split; [now apply (Forall_ext_eq _ _ ws cs_mem_white)|]. auto. }
    apply lang_alts. exists (text u). split; [now apply in_map|].
    now apply lang_text_exact.
Qed.

Lemma quantity_regex_anchor_free gap units :
  anchor_free (quantity_regex gap units) = true.
Proof.
  unfold quantity_regex. cbn [anchor_free plus star dot andb].
  apply anchor_free_alts_text.
Qed.

Lemma found_quantity gap units t :
  found (re_search (Pattern false (Seq Bol (quantity_regex gap units))) t)
  = true
  <-> begins_with_quantity gap units t.
Proof.
  assert (Hf : forall o : option mstate,
             found o = true <-> exists m, o = Some m).
  { intros [m|]; simpl; split; try discriminate; eauto.
    intros [m H]. discriminate. }
  rewrite Hf, found_anchored by apply quantity_regex_anchor_free.
  split.
  - intros [w [rest [-> L]]]. apply quantity_regex_lang in L.
    destruct L as [n [ws [u [-> [Hn [Hws [Hgap Hu]]]]]]].
    exists n, ws, u, rest. split; [now rewrite <- !app_assoc|]. auto.
  - intros [n [ws [u [rest [-> [Hn [Hws [Hgap Hu]]]]]]]].
    exists (n ++ ws ++ u), rest. split; [now rewrite <- !app_assoc|].
    apply quantity_regex_lang. now exists n, ws, u.
Qed.

Lemma found_measurement t :
  found (re_search measurement_pattern t) = true
  <-> begins_with_quantity 0 measurement_units t.
Proof. exact (found_quantity 0 measurement_units t). Qed.

Lemma found_flow t :
  found (re_search flow_pattern t) = true
  <-> begins_with_quantity 1 flow_units t.
Proof. exact (found_quantity 1 flow_units t). Qed.

Lemma starts_with_spec : forall p s,
  starts_with p s = true <-> exists post, s = p ++ post.
Proof.
  induction p as [|a p IH]; intro s; simpl.
  - split; [now exists s|reflexivity].
  - destruct s as [|b s].
    + split; [discriminate|]. intros [post H]. discriminate.
    + rewrite andb_true_iff, IH. unfold ascii_eqb. split.
      * intros [E [post ->]]. apply Ascii.eqb_eq in E. subst. now exists post.
      * intros [post E]. inversion E; subst. split; [apply Ascii.eqb_refl|].
        now exists post.
Qed.

Lemma contains_spec p : forall s,
  contains p s = true <-> exists pre post, s = pre ++ p ++ post.
Proof.
  induction s as [|c s IH]; cbn [contains];
    rewrite orb_true_iff, starts_with_spec.
  - split.
    + intros [[post E]|H]; [|discriminate]. now exists [], post.
    + intros [pre [post E]]. left. destruct pre; [now exists post|discriminate].
  - rewrite IH. split.
    + intros [[post E]|[pre [post E]]]; [now exists [], post|].
      exists (c :: pre), post. simpl. now rewrite E.
    + intros [[|c' pre] [post E]]; [left; now exists post|].
      right. simpl in E. inversion E; subst. now exists pre, post.
Qed.

Lemma contains_equation t :
  contains (lit "equation") (lower t) = true <-> mentions_equation t.
Proof.
  rewrite contains_spec. unfold mentions_equation, lower. split.
  - intros [pre [post E]].
    apply map_eq_app in E. destruct E as [pre0 [r [-> [<- E]]]].
    apply map_eq_app in E. destruct E as [mid [post0 [-> [E <-]]]].
    now exists pre0, mid, post0.
  - intros [pre [mid [post [-> E]]]].
    exists (map to_lower pre), (map to_lower post).
    now rewrite !map_app, E.
Qed.

(** The filter, clause by clause. *)
Lemma title_ok_spec t :
  title_ok t = true
  <-> 10 < length t
      /\ ~ begins_with_quantity 0 measurement_units t
      /\ ~ begins_with_quantity 1 flow_units t
      /\ ~ mentions_equation t
      /\ count "."%char t <= 2.
Proof.
  unfold title_ok. rewrite !andb_true_iff, !negb_true_iff.
  rewrite Nat.ltb_lt, Nat.leb_le.
  rewrite <- found_measurement, <- found_flow, <- contains_equation.
  rewrite !not_true_iff_false. tauto.
Qed.

(** A title the loop appends has passed the filter. *)
Lemma scan_patterns_ok : forall patterns line t,
  scan_patterns patterns line = Some t -> title_ok t = true.
Proof.
  induction patterns as [|pat later IH]; intros line t; simpl; [discriminate|].
  destruct (re_search pat line) as [m|]; [|apply IH].
  destruct (m_grp m) as [g|]; [|apply IH].
  destruct (title_ok (title_of_group g)) eqn:E; [|apply IH].
  now intros [= <-].
Qed.

Lemma found_chapters_ok page_texts m :
  In m (found_chapters page_texts) -> title_ok (snd m) = true.
Proof.
  unfold found_chapters. rewrite in_flat_map.
  intros [[page_num txt] [_ H]]. cbn [fst snd] in H.
  unfold page_marks in H. destruct (is_empty (strip txt)); [contradiction|].
  apply in_flat_map in H. destruct H as [line [_ H]].
  unfold line_marks in H. destruct (is_empty (strip line)); [contradiction|].
  destruct (scan_patterns chapter_patterns (strip line)) as [t|] eqn:E;
    [|contradiction].
  destruct H as [<-|[]]. simpl. eapply scan_patterns_ok, E.
Qed.

End FilterFacts.

(** ** Chapter Detector: the heading patterns *)

Section PatternFacts.

Ltac each_char c :=
  destruct c as [[] [] [] [] [] [] [] []]; vm_compute;
  try reflexivity; try discriminate; try congruence.

Lemma white_ic c : cs_mem true white c = is_space c.
Proof. each_char c. Qed.

Lemma lead_T_solid c :
  cs_mem true (one "T"%char) c = true -> is_space c = false.
Proof. each_char c. Qed.

Lemma lead_c_solid c :
  cs_mem true (one "c"%char) c = true -> is_space c = false.
Proof. each_char c. Qed.

Lemma lead_digit_solid c : cs_mem true digit c = true -> is_space c = false.
Proof. each_char c. Qed.

Lemma lead_word_solid c : cs_mem true word c = true -> is_space c = false.
Proof. each_char c. Qed.

Lemma lead_T_not_digit c :
  cs_mem true (one "T"%char) c = true -> cs_mem true digit c = false.
Proof. each_char c. Qed.

Lemma lead_T_not_c c :
  cs_mem true (one "T"%char) c = true -> cs_mem true (one "c"%char) c = false.
Proof. each_char c. Qed.

Lemma lead_digit_not_c c :
  cs_mem true digit c = true -> cs_mem true (one "c"%char) c = false.
Proof. each_char c. Qed.

Lemma not_newline_ic c : c <> newline -> cs_mem true not_newline c = true.
Proof. each_char c. Qed.

Lemma pattern_lead k pat line m :
  nth_error chapter_patterns k = Some pat ->
  re_search pat line = Some m ->
  exists c rest, lstrip line = c :: rest /\ cs_mem true (lead_set k) c = true.
Proof.
  intros Hk H.
  destruct k as [|[|[|[|k]]]]; simpl in Hk; try (destruct k; discriminate);
    inversion Hk; subst pat; clear Hk; cbn [lead_set].
  - eapply (lead_char true _ (one "T"%char) line m white_ic);
      [| |exact H]; [reflexivity|exact lead_T_solid].
  - eapply (lead_char true _ digit line m white_ic);
      [| |exact H]; [reflexivity|exact lead_digit_solid].
  - eapply (lead_char true _ (one "c"%char) line m white_ic);
      [| |exact H]; [reflexivity|exact lead_c_solid].
  - eapply (lead_char true _ (one "c"%char) line m white_ic);
      [| |exact H]; [reflexivity|exact lead_c_solid].
Qed.

Lemma lead_sets_apart j k c :
  j < k -> k < 4 -> (j < 2 \/ k < 2) ->
  cs_mem true (lead_set j) c = true -> cs_mem true (lead_set k) c = false.
Proof.
  intros Hjk Hk Hlow.
  destruct j as [|[|j]]; destruct k as [|[|[|[|k]]]]; try lia; cbn [lead_set].
  - apply lead_T_not_digit.
  - apply lead_T_not_c.
  - apply lead_T_not_c.
  - apply lead_digit_not_c.
  - apply lead_digit_not_c.
Qed.

(** Group 1 takes part in every match of the four patterns. *)
Lemma chapter_patterns_capture pat line m :
  In pat chapter_patterns -> re_search pat line = Some m ->
  exists g, m_grp m = Some g.
Proof.
  intros Hin H. simpl in Hin.
  destruct Hin as [<-|[<-|[<-|[<-|[]]]]];
    (eapply search_captures; [|exact H]); reflexivity.
Qed.

Lemma chapter_digits_group line m :
  Forall (fun c => c <> newline) line ->
  re_search chapter_digits_pattern line = Some m ->
  m_grp m = Some (after_chapter line).
Proof.
  intros Hline H.
  apply (anchored_group_rest true "c"%char (lit "hapter")
           (seqs [plus digit; Opt dot; star white; Chr upper_AZ;
                  plus not_newline]) digit
           (fun c => c <> newline) line m white_ic lead_c_solid
           eq_refl lead_digit_solid); [|exact Hline|exact H].
  do 4 apply eg_seq. apply eg_rep. exact not_newline_ic.
Qed.

Lemma chapter_word_group line m :
  Forall (fun c => c <> newline) line ->
  re_search chapter_word_pattern line = Some m ->
  m_grp m = Some (after_chapter line).
Proof.
  intros Hline H.
  apply (anchored_group_rest true "c"%char (lit "hapter")
           (seqs [plus word; Opt dot; star white; Chr upper_AZ;
                  plus not_newline]) word
           (fun c => c <> newline) line m white_ic lead_c_solid
           eq_refl lead_word_solid); [|exact Hline|exact H].
  do 4 apply eg_seq. apply eg_rep. exact not_newline_ic.
Qed.

(** The pieces of [split] hold no separator, and [strip] adds none. *)
Lemma split_pieces sep : forall s piece,
  In piece (split sep s) -> Forall (fun c => c <> sep) piece.
Proof.
  induction s as [|c s IH]; intros piece H; simpl in H.
  - destruct H as [<-|[]]. constructor.
  - unfold ascii_eqb in H. destruct (Ascii.eqb_spec c sep) as [->|Hc].
    + destruct H as [<-|H]; [constructor|now apply IH].
    + destruct (split sep s) as [|p ps] eqn:E.
      * destruct H as [<-|[]]. constructor; [exact Hc|constructor].
      * destruct H as [<-|H].
        -- constructor; [exact Hc|]. apply IH. now left.
        -- apply IH. now right.
Qed.

Lemma firstn_In {A} : forall n (l : list A) x, In x (firstn n l) -> In x l.
Proof.
  induction n as [|n IH]; intros l x H; [contradiction|].
  destruct l as [|y l]; [contradiction|].
  destruct H as [<-|H]; [now left|right; now apply IH].
Qed.

Lemma inspected_line_clean txt l :
  In l (firstn 5 (split newline txt)) ->
  Forall (fun c => c <> newline) (strip l).
Proof.
  intro H. apply strip_Forall_gen. eapply split_pieces, firstn_In, H.
Qed.

Lemma scan_step_match pat later line m g :
  re_search pat line = Some m -> m_grp m = Some g ->
  scan_patterns (pat :: later) line
  = if title_ok (title_of_group g) then Some (title_of_group g)
    else scan_patterns later line.
Proof. intros H1 H2. cbn [scan_patterns]. now rewrite H1, H2. Qed.

Lemma scan_step_skip pat later line :
  re_search pat line = None ->
  scan_patterns (pat :: later) line = scan_patterns later line.
Proof. intro H. cbn [scan_patterns]. now rewrite H. Qed.

Lemma scan_patterns_none : forall patterns line,
  Forall (fun q => re_search q line = None) patterns ->
  scan_patterns patterns line = None.
Proof.
  induction 1 as [|q qs Hq Hqs IH]; simpl; [reflexivity|]. now rewrite Hq.
Qed.

End PatternFacts.

(** ** Chapter Detector: duplicates and order *)

Section OrderFacts.

Open Scope Z_scope.

Lemma mark_eqb_eq a b : mark_eqb a b = true <-> a = b.
Proof.
  unfold mark_eqb. destruct (mark_eq_dec a b); split; congruence.
Qed.

Lemma existsb_mark x l : existsb (mark_eqb x) l = true <-> In x l.
Proof.
  rewrite existsb_exists. split.
  - intros [y [Hy E]]. apply mark_eqb_eq in E. now subst.
  - intro H. exists x. split; [exact H|now apply mark_eqb_eq].
Qed.

Lemma distinct_NoDup l : distinct l = true <-> NoDup l.
Proof.
  induction l as [|x l IH]; simpl.
  - split; [constructor|reflexivity].
  - rewrite andb_true_iff, negb_true_iff, IH, <- not_true_iff_false,
      existsb_mark.
    split.
    + intros [H1 H2]. now constructor.
    + intro H. inversion H. auto.
Qed.

Lemma subset_incl l1 l2 : subset l1 l2 = true <-> incl l1 l2.
Proof.
  unfold subset, incl. rewrite forallb_forall. split.
  - intros H x Hx. now apply existsb_mark, H.
  - intros H x Hx. now apply existsb_mark, H.
Qed.

Lemma is_listing_spec chapters l :
  is_listing chapters l = true
  <-> NoDup l /\ forall x, In x l <-> In x chapters.
Proof.
  unfold is_listing.
  rewrite !andb_true_iff, distinct_NoDup, !subset_incl. unfold incl.
  split.
  - intros [[H1 H2] H3]. split; [exact H1|]. intro x. split; auto.
  - intros [H1 H2]. repeat split; auto; intros x Hx; now apply H2.
Qed.

Lemma nodup_listing chapters :
  is_listing chapters (nodup mark_eq_dec chapters) = true.
Proof.
  apply is_listing_spec. split; [apply NoDup_nodup|].
  intro x. apply nodup_In.
Qed.

Lemma insert_by_page_perm x : forall l,
  Permutation (insert_by_page x l) (x :: l).
Proof.
  induction l as [|y l IH]; simpl; [reflexivity|].
  destruct (fst x <=? fst y); [reflexivity|].
  rewrite IH. apply perm_swap.
Qed.

Lemma sort_by_page_perm : forall l, Permutation (sort_by_page l) l.
Proof.
  induction l as [|x l IH]; simpl; [reflexivity|].
  rewrite insert_by_page_perm. now constructor.
Qed.

Lemma insert_by_page_sorted x : forall l,
  Sorted page_le l -> Sorted page_le (insert_by_page x l).
Proof.
  induction l as [|y l IH]; intro H; simpl.
  - repeat constructor.
  - destruct (Z.leb_spec (fst x) (fst y)) as [Hle|Hgt].
    + constructor; [exact H|]. now constructor.
    + inversion H as [|? ? Hs Hhd]; subst. constructor; [now apply IH|].
      destruct l as [|z l]; simpl.
      * constructor. unfold page_le. lia.
      * destruct (fst x <=? fst z).
        -- constructor. unfold page_le. lia.
        -- constructor. now inversion Hhd.
Qed.

Lemma sort_by_page_sorted : forall l, Sorted page_le (sort_by_page l).
Proof.
  induction l as [|x l IH]; simpl; [constructor|].
  now apply insert_by_page_sorted.
Qed.

Lemma page_le_trans : Relations_1.Transitive page_le.
Proof. intros a b c. unfold page_le. lia. Qed.

(** Two sorted enumerations of the same pages are the same list. *)
Lemma sorted_pages_unique : forall l1 l2 : list Z,
  Sorted Z.le l1 -> Sorted Z.le l2 -> Permutation l1 l2 -> l1 = l2.
Proof.
  induction l1 as [|x l1 IH]; intros l2 H1 H2 HP.
  - apply Permutation_nil in HP. now subst.
  - destruct l2 as [|y l2];
      [apply Permutation_sym, Permutation_nil in HP; discriminate|].
    apply Sorted_StronglySorted in H1; [|intros a b c; apply Z.le_trans].
    apply Sorted_StronglySorted in H2; [|intros a b c; apply Z.le_trans].
    inversion H1 as [|? ? S1 F1]; subst. inversion H2 as [|? ? S2 F2]; subst.
    assert (x = y).
    { assert (Hx : In x (y :: l2))
        by (eapply Permutation_in; [exact HP|now left]).
      assert (Hy : In y (x :: l1))
        by (eapply Permutation_in; [apply Permutation_sym, HP|now left]).
      rewrite Forall_forall in F1, F2.
      destruct Hx as [->|Hx]; [reflexivity|].
      destruct Hy as [->|Hy]; [reflexivity|].
      apply F2 in Hx. apply F1 in Hy. lia. }
    subst y. f_equal. apply Permutation_cons_inv in HP.
    apply IH; auto using StronglySorted_Sorted.
Qed.

(** Two sorted enumerations of the same marks are the same list when no
    two marks share a page. *)
Lemma sorted_marks_unique : forall r1 r2 : list mark,
  Sorted page_le r1 -> Sorted page_le r2 -> Permutation r1 r2 ->
  NoDup (map fst r1) -> r1 = r2.
Proof.
  induction r1 as [|x r1 IH]; intros r2 H1 H2 HP Hk.
  - apply Permutation_nil in HP. now subst.
  - destruct r2 as [|y r2];
      [apply Permutation_sym, Permutation_nil in HP; discriminate|].
    apply Sorted_StronglySorted in H1; [|exact page_le_trans].
    apply Sorted_StronglySorted in H2; [|exact page_le_trans].
    inversion H1 as [|? ? S1 F1]; subst. inversion H2 as [|? ? S2 F2]; subst.
    inversion Hk as [|? ? Hx1 Hk1]; subst.
    assert (x = y).
    { assert (Hx : In x (y :: r2))
        by (eapply Permutation_in; [exact HP|now left]).
      assert (Hy : In y (x :: r1))
        by (eapply Permutation_in; [apply Permutation_sym, HP|now left]).
      rewrite Forall_forall in F1, F2.
      destruct Hx as [->|Hx]; [reflexivity|].
      destruct Hy as [->|Hy]; [reflexivity|].
      assert (E : fst x = fst y).
      { apply F2 in Hx. apply (F1 y) in Hy. unfold page_le in *. lia. }
      exfalso. apply Hx1. rewrite E. now apply in_map. }
    subst y. f_equal. apply Permutation_cons_inv in HP.
    apply IH; auto using StronglySorted_Sorted.
Qed.

Lemma sorted_map_fst r : Sorted page_le r -> Sorted Z.le (map fst r).
Proof.
  induction 1 as [|x r Hs IH Hhd]; simpl; constructor; [exact IH|].
  destruct Hhd; simpl; constructor. assumption.
Qed.

Lemma found_chapters_perm pt pt' :
  Permutation pt pt' ->
  Permutation (found_chapters pt) (found_chapters pt').
Proof. intro H. unfold found_chapters. now apply Permutation_flat_map. Qed.

(** What every value returned on a mapping has in common. *)
Lemma detect_chapters_facts page_texts r :
  detect_chapters page_texts r ->
  Sorted page_le r /\ NoDup r
  /\ forall m, In m r <-> In m (found_chapters page_texts).
Proof.
  intros [l [Hl ->]]. apply is_listing_spec in Hl. destruct Hl as [Hnd Hin].
  split; [apply sort_by_page_sorted|]. split.
  - eapply Permutation_NoDup; [apply Permutation_sym, sort_by_page_perm|].
    exact Hnd.
  - intro m. rewrite <- Hin. split; apply Permutation_in.
    + apply sort_by_page_perm.
    + apply Permutation_sym, sort_by_page_perm.
Qed.

Lemma detect_chapters_total page_texts :
  detect_chapters page_texts (detect_chapters_in_order page_texts).
Proof.
  exists (nodup mark_eq_dec (found_chapters page_texts)).
  split; [apply nodup_listing|reflexivity].
Qed.

End OrderFacts.

(** ** Filename Sanitizer *)

Section SanitizerFacts.

Lemma decimal_nonneg n :
  (0 <= n)%Z ->
  exists d, d <> Decimal.Nil /\ Z.of_uint d = n
            /\ decimal n = lit (NilEmpty.string_of_uint d).
Proof.
  intro Hn. destruct n as [|p|p]; [| |lia].
  - exists Decimal.zero. repeat split. discriminate.
  - exists (Pos.to_uint p). split; [apply DecimalPos.Unsigned.to_uint_nonnil|].
    split.
    + unfold Z.of_uint. now rewrite DecimalPos.Unsigned.of_to.
    + unfold decimal. simpl.
      generalize (DecimalPos.Unsigned.to_uint_nonnil p).
      destruct (Pos.to_uint p); simpl; intro H; try reflexivity.
      now destruct H.
Qed.

Lemma uint_digits d :
  Forall (fun c => is_digit c = true) (lit (NilEmpty.string_of_uint d)).
Proof. induction d; simpl; constructor; auto. Qed.

Lemma uint_nonempty d :
  d <> Decimal.Nil -> lit (NilEmpty.string_of_uint d) <> [].
Proof. destruct d; simpl; congruence. Qed.

Lemma format_02d_digits n :
  (0 <= n)%Z -> Forall (fun c => is_digit c = true) (format_02d n).
Proof.
  intro Hn. destruct (decimal_nonneg n Hn) as [d [_ [_ Hd]]].
  unfold format_02d. rewrite Hd.
  destruct (_ <? 2); [constructor; [reflexivity|]|]; apply uint_digits.
Qed.

Lemma format_02d_width n : (0 <= n)%Z -> 2 <= length (format_02d n).
Proof.
  intro Hn. unfold format_02d.
  destruct (Nat.ltb_spec (length (decimal n)) 2) as [Hlt|Hge]; [|exact Hge].
  destruct (decimal_nonneg n Hn) as [d [Hnil [_ Hd]]].
  apply uint_nonempty in Hnil. rewrite <- Hd in Hnil.
  destruct (decimal n); [congruence|simpl; lia].
Qed.

Lemma format_02d_value n :
  (0 <= n)%Z -> digits_value (format_02d n) = Some n.
Proof.
  intro Hn. destruct (decimal_nonneg n Hn) as [d [_ [Hv Hd]]].
  unfold format_02d, digits_value. rewrite Hd.
  destruct (_ <? 2); simpl;
    unfold lit; rewrite string_of_list_ascii_of_string, NilEmpty.usu;
    simpl; now rewrite <- Hv.
Qed.

Lemma format_02d_inj n n' :
  (0 <= n)%Z -> (0 <= n')%Z -> format_02d n = format_02d n' -> n = n'.
Proof.
  intros Hn Hn' E. apply format_02d_value in Hn, Hn'.
  rewrite E in Hn. congruence.
Qed.

(** Digits up to an underscore are determined by the whole string. *)
Lemma digits_then_underscore : forall a b x y : str,
  Forall (fun c => is_digit c = true) a ->
  Forall (fun c => is_digit c = true) b ->
  a ++ "_"%char :: x = b ++ "_"%char :: y -> a = b.
Proof.
  induction a as [|c a IH]; intros b x y Ha Hb E.
  - destruct b as [|c' b]; [reflexivity|].
    simpl in E. inversion E; subst. inversion Hb; subst. discriminate.
  - destruct b as [|c' b].
    + simpl in E. inversion E; subst. inversion Ha; subst. discriminate.
    + simpl in E. inversion E; subst.
      inversion Ha; subst. inversion Hb; subst.
      f_equal. eapply IH; eauto.
Qed.

(** Two ordinals that are not negative never give the same filename. *)
Lemma create_chapter_filename_ordinal t t' n n' :
  (0 <= n)%Z -> (0 <= n')%Z ->
  create_chapter_filename t n = create_chapter_filename t' n' -> n = n'.
Proof.
  intros Hn Hn' E. unfold create_chapter_filename in E.
  apply app_inv_head in E.
  apply format_02d_inj; try assumption.
  apply (digits_then_underscore _ _ (slug t ++ lit ".pdf")
           (slug t' ++ lit ".pdf")).
  - now apply format_02d_digits.
  - now apply format_02d_digits.
  - exact E.
Qed.

Lemma format_02d_two_digits n :
  (0 <= n <= 99)%Z -> two_digits_of n (format_02d n) = true.
Proof.
  intro Hn.
  assert (H : forallb (fun k => two_digits_of (Z.of_nat k)
                                              (format_02d (Z.of_nat k)))
                      (seq 0 100) = true) by (vm_compute; reflexivity).
  rewrite forallb_forall in H.
  specialize (H (Z.to_nat n)). rewrite Z2Nat.id in H by lia.
  apply H. apply in_seq. lia.
Qed.

(** What the whitespace substitution keeps. *)
Lemma sub_ws_from_Forall (P : ascii -> Prop) repl : forall s b,
  Forall P repl ->
  Forall (fun c => is_space c = false -> P c) s ->
  Forall P (sub_ws_from repl b s).
Proof.
  induction s as [|c s IH]; intros b Hr Hs; simpl; [constructor|].
  inversion Hs as [|? ? Hc Hs']; subst.
  destruct (is_space c) eqn:E.
  - destruct b; [now apply IH|]. apply Forall_app. split; [exact Hr|].
    now apply IH.
  - constructor; [now apply Hc|now apply IH].
Qed.

Lemma firstn_Forall (P : ascii -> Prop) : forall n s,
  Forall P s -> Forall P (firstn n s).
Proof.
  induction n as [|n IH]; intros s H; [constructor|].
  destruct H; simpl; constructor; auto.
Qed.

Lemma problematic_spec c :
  cs_mem false problematic c
  = negb (is_alnum c || ascii_eqb c "_"%char || is_space c
          || ascii_eqb c "-"%char).
Proof.
  destruct c as [[] [] [] [] [] [] [] []]; vm_compute; reflexivity.
Qed.

Lemma kept_not_space c :
  is_alnum c || ascii_eqb c "_"%char || is_space c || ascii_eqb c "-"%char
  = true ->
  is_space c = false -> slug_char c = true /\ c <> newline.
Proof.
  destruct c as [[] [] [] [] [] [] [] []]; vm_compute;
    intros H1 H2; try discriminate; split; congruence.
Qed.

Lemma slug_chars t :
  Forall (fun c => slug_char c = true /\ c <> newline) (slug t).
Proof.
  unfold slug. apply firstn_Forall. unfold sub_ws.
  apply sub_ws_from_Forall.
  - constructor; [|constructor]. split; [reflexivity|discriminate].
  - apply strip_Forall_gen. unfold delete_chars.
    apply Forall_forall. intros c Hc. apply filter_In in Hc.
    destruct Hc as [_ Hc]. rewrite problematic_spec, negb_involutive in Hc.
    now apply kept_not_space.
Qed.

Lemma slug_length t : length (slug t) <= 50.
Proof. unfold slug. apply firstn_le_length. Qed.

End SanitizerFacts.

(** ** PDF Splitter *)

Section SplitterFacts.

Open Scope Z_scope.

Lemma range_nil a b : b <= a -> range a b = [].
Proof.
  intro H. unfold range. replace (Z.to_nat (b - a)) with 0%nat by lia.
  reflexivity.
Qed.

Lemma range_cons a b : a < b -> range a b = a :: range (a + 1) b.
Proof.
  intro H. unfold range.
  replace (Z.to_nat (b - a)) with (S (Z.to_nat (b - (a + 1)))) by lia.
  simpl. f_equal; [lia|].
  rewrite <- seq_shift, map_map. apply map_ext. intro k. lia.
Qed.

Lemma range_length a b : length (range a b) = Z.to_nat (b - a).
Proof. unfold range. now rewrite length_map, length_seq. Qed.

Lemma seq_from n : forall m, seq n m = map (Nat.add n) (seq 0 m).
Proof.
  intro m. revert n. induction m as [|m IH]; intro n; [reflexivity|].
  simpl. rewrite Nat.add_0_r. f_equal.
  rewrite (IH (S n)), (IH 1%nat), map_map.
  apply map_ext. intro k. lia.
Qed.

Lemma range_app a b c : a <= b -> b <= c -> range a b ++ range b c = range a c.
Proof.
  intros Hab Hbc. unfold range.
  replace (Z.to_nat (c - a))
    with (Z.to_nat (b - a) + Z.to_nat (c - b))%nat by lia.
  rewrite seq_app, map_app. f_equal. simpl.
  rewrite (seq_from (Z.to_nat (b - a))), map_map.
  apply map_ext. intro k. lia.
Qed.

Lemma in_range a b x : In x (range a b) <-> a <= x < b.
Proof.
  unfold range. rewrite in_map_iff. split.
  - intros [k [<- Hk]]. apply in_seq in Hk. lia.
  - intro H. exists (Z.to_nat (x - a)). split; [lia|].
    apply in_seq. lia.
Qed.

(** The pages the inner loop adds for a range that starts at a page
    index that is not negative: the part of the range inside the
    document. *)
Lemma add_pages_range total b : forall n a,
  Z.to_nat (b - a) = n -> 0 <= a ->
  add_pages total (range a b) = Some (range a (Z.min b total)).
Proof.
  induction n as [|n IH]; intros a Hn Ha.
  - rewrite (range_nil a b) by lia. rewrite range_nil by lia. reflexivity.
  - rewrite (range_cons a b) by lia. simpl.
    destruct (Z.ltb_spec a total) as [Hlt|Hge].
    + unfold get_page.
      destruct (Z.ltb_spec a 0) as [?|_]; [lia|].
      destruct (Z.ltb_spec a 0) as [?|_]; [lia|].
      destruct (Z.leb_spec total a) as [?|_]; [lia|]. simpl.
      rewrite IH by lia. simpl.
      now rewrite (range_cons a (Z.min b total)) by lia.
    + rewrite IH by lia. f_equal.
      rewrite !range_nil by lia. reflexivity.
Qed.

(** The end page at the index that follows [done]: one before the next
    mark, or the last page. *)
Lemma end_page_next total done m todo :
  end_page total (done ++ m :: todo) (length done)
  = match todo with
    | next :: _ => fst next - 1
    | [] => total - 1
    end.
Proof.
  unfold end_page.
  replace (S (length done)) with (length (done ++ [m]))
    by (rewrite length_app; simpl; lia).
  replace (done ++ m :: todo) with ((done ++ [m]) ++ todo)
    by (now rewrite <- app_assoc).
  rewrite nth_error_app2 by lia. rewrite Nat.sub_diag.
  destruct todo; reflexivity.
Qed.

(** With start pages strictly increasing and inside the document, the
    files from an index on hold, one after the other, the pages from the
    start page of that index to the last page. *)
Lemma files_from_cover total dir chapters : forall todo done,
  chapters = done ++ todo ->
  Sorted Z.lt (map fst todo) ->
  Forall (fun m => fst m < total) todo ->
  Forall2 (fun m f =>
             exists i, nth_error chapters i = Some m
                       /\ pages f
                          = range (fst m) (end_page total chapters i + 1)
                       /\ fst m <= end_page total chapters i)
          todo (files_from total dir chapters (length done) todo)
  /\ concat (map pages (files_from total dir chapters (length done) todo))
     = match todo with
       | m :: _ => range (fst m) total
       | [] => []
       end.
Proof.
  induction todo as [|m todo IH]; intros done Hch Hs Hlt.
  - split; [constructor|reflexivity].
  - inversion Hs as [|? ? Hs' Hhd]; subst.
    inversion Hlt as [|? ? Hm Hlt']; subst.
    destruct (IH (done ++ [m])) as [IH2 IHc]; auto.
    { now rewrite <- app_assoc. }
    replace (length (done ++ [m])) with (S (length done)) in *
      by (rewrite length_app; simpl; lia).
    assert (Hend : fst m <= end_page total (done ++ m :: todo) (length done)
                   /\ end_page total (done ++ m :: todo) (length done) + 1
                      <= total
                   /\ match todo with
                      | next :: _ =>
                          end_page total (done ++ m :: todo) (length done) + 1
                          = fst next
                      | [] =>
                          end_page total (done ++ m :: todo) (length done) + 1
                          = total
                      end).
    { rewrite end_page_next. destruct todo as [|next todo].
      - lia.
      - inversion Hhd; subst. inversion Hlt'; subst. simpl in *. lia. }
    destruct Hend as [Hle [Hin Hnext]].
    simpl. split.
    + constructor; [|exact IH2].
      exists (length done). split; [|split; [|exact Hle]].
      * rewrite nth_error_app2 by lia. now rewrite Nat.sub_diag.
      * unfold chapter_file_at. simpl. now rewrite Z.min_l by lia.
    + rewrite IHc. rewrite Z.min_l by lia. destruct todo as [|next todo].
      * rewrite Hnext. simpl. now rewrite app_nil_r.
      * rewrite Hnext. inversion Hlt'; subst. inversion Hhd; subst.
        simpl in *. apply range_app; lia.
Qed.

Lemma Sorted_tail (l1 l2 : list Z) : Sorted Z.lt (l1 ++ l2) -> Sorted Z.lt l2.
Proof.
  induction l1 as [|a l1 IH]; simpl; [auto|].
  intro H. inversion H; subst. auto.
Qed.

(** With start pages strictly increasing and inside the document, no
    range is empty and every range ends inside the document. *)
Lemma end_page_bounds total chapters i m :
  Sorted Z.lt (map fst chapters) ->
  Forall (fun m => fst m < total) chapters ->
  nth_error chapters i = Some m ->
  fst m <= end_page total chapters i
  /\ end_page total chapters i + 1 <= total.
Proof.
  intros Hs Hlt Hi.
  destruct (nth_error_split chapters i Hi) as [done [todo [E Hlen]]].
  subst chapters i. rewrite end_page_next.
  rewrite map_app in Hs. apply Sorted_tail in Hs.
  apply Forall_app in Hlt. destruct Hlt as [_ Hlt].
  simpl in Hs. inversion Hs as [|? ? _ Hhd]; subst.
  inversion Hlt as [|? ? Hm Hlt']; subst.
  destruct todo as [|next todo]; [lia|].
  inversion Hhd; subst. inversion Hlt'; subst. simpl in *. lia.
Qed.

Lemma path_join_filename dir t n :
  path_join dir (create_chapter_filename t n)
  = join_prefix dir ++ create_chapter_filename t n.
Proof.
  unfold path_join, join_prefix. simpl.
  destruct (rev dir) as [|c r]; [reflexivity|].
  destruct (Ascii.eqb_spec c "/"%char) as [->|Hc]; [reflexivity|].
  assert (E : forall A (x y : A), match c with
                                  | "/"%char => x | _ => y end = y).
  { intros A x y.
    destruct c as [[] [] [] [] [] [] [] []]; try reflexivity.
    now destruct Hc. }
  rewrite !E. now rewrite <- app_assoc.
Qed.

End SplitterFacts.

(** The loop of the splitter on one document, one output directory and
    one list of marks. *)
Section SplitLoop.

Open Scope Z_scope.

Variables (total : Z) (dir : str) (chapters : list mark).

Lemma write_chapter_nonneg i m :
  0 <= fst m ->
  write_chapter total dir chapters i m
  = Some (chapter_file_at total dir chapters i m).
Proof.
  intro H. unfold write_chapter.
  rewrite (add_pages_range total _ _ _ eq_refl H). reflexivity.
Qed.

Lemma split_loop_nonneg : forall todo k,
  Forall (fun m => 0 <= fst m) todo ->
  split_loop total dir chapters k todo
  = (files_from total dir chapters k todo, true).
Proof.
  induction todo as [|m todo IH]; intros k H; simpl; [reflexivity|].
  inversion H as [|? ? Hm Htodo]; subst.
  rewrite write_chapter_nonneg by exact Hm.
  now rewrite IH by exact Htodo.
Qed.

Lemma files_from_length : forall todo k,
  length (files_from total dir chapters k todo) = length todo.
Proof. induction todo as [|m todo IH]; intro k; simpl; auto. Qed.

Lemma files_from_nth : forall todo k i m,
  nth_error todo i = Some m ->
  nth_error (files_from total dir chapters k todo) i
  = Some (chapter_file_at total dir chapters (k + i) m).
Proof.
  induction todo as [|m0 todo IH]; intros k i m H.
  - destruct i; discriminate.
  - destruct i as [|i]; simpl in *.
    + inversion H; subst. now rewrite Nat.add_0_r.
    + rewrite (IH (S k) i m H). do 2 f_equal. lia.
Qed.

Lemma files_from_paths : forall todo k p,
  In p (map path (files_from total dir chapters k todo)) ->
  exists i t, (k <= i)%nat
    /\ p = join_prefix dir ++ create_chapter_filename t (Z.of_nat i + 1).
Proof.
  induction todo as [|m todo IH]; intros k p H; cbn [files_from map] in H;
    [contradiction|].
  destruct H as [<-|H].
  - exists k, (snd m). split; [lia|]. apply path_join_filename.
  - destruct (IH (S k) p H) as [i [t [Hi Hp]]].
    exists i, t. split; [lia|exact Hp].
Qed.

Lemma files_from_distinct : forall todo k,
  NoDup (map path (files_from total dir chapters k todo)).
Proof.
  induction todo as [|m todo IH]; intro k; cbn [files_from map];
    constructor; [|apply IH].
  intro H. apply files_from_paths in H. destruct H as [i [t [Hi E]]].
  unfold chapter_file_at in E. cbn [path] in E.
  rewrite path_join_filename in E. apply app_inv_head in E.
  apply create_chapter_filename_ordinal in E; lia.
Qed.

End SplitLoop.

(** C1. For a list of chapter marks that is not empty, whose page indices
    are not negative, strictly increasing and all less than the number of
    pages, [split_pdf_by_chapters] returns normally; the file of each mark
    holds exactly the pages [start_page .. end_page], where [end_page] is
    one less than the next start page, or the last page index for the
    last mark, and no range is empty; the files, one after the other,
    hold each page from the first start page to the last page once, in
    order; the page counts sum to [total_pages - first start_page]. *)
Theorem split_covers_from_first_start
    (total_pages : nat) (output_dir : str) (first : mark) (rest : list mark) :
  (0 <= fst first)%Z ->
  Sorted Z.lt (map fst (first :: rest)) ->
  Forall (fun m => (fst m < Z.of_nat total_pages)%Z) (first :: rest) ->
  exists files,
    split_pdf_by_chapters total_pages output_dir (first :: rest)
    = (files, Some (map path files))
    /\ (forall i m,
           nth_error (first :: rest) i = Some m ->
           exists f,
             nth_error files i = Some f
             /\ pages f
                = range (fst m)
                    (end_page (Z.of_nat total_pages) (first :: rest) i + 1)
             /\ (fst m
                 <= end_page (Z.of_nat total_pages) (first :: rest) i)%Z
             /\ match nth_error (first :: rest) (S i) with
                | Some next =>
                    (end_page (Z.of_nat total_pages) (first :: rest) i + 1
                     = fst next)%Z
                | None =>
                    (end_page (Z.of_nat total_pages) (first :: rest) i
                     = Z.of_nat total_pages - 1)%Z
                end)
    /\ concat (map pages files) = range (fst first) (Z.of_nat total_pages)
    /\ (Z.of_nat (list_sum (map (fun f => length (pages f)) files))
        = Z.of_nat total_pages - fst first)%Z.
Proof.
  set (chapters := first :: rest). set (total := Z.of_nat total_pages).
  intros H0 Hs Hlt.
  assert (Hnn : Forall (fun m => (0 <= fst m)%Z) chapters).
  { apply Sorted_StronglySorted in Hs; [|intros x y z; apply Z.lt_trans].
    simpl in Hs. inversion Hs as [|? ? _ Hall]; subst.
    constructor; [exact H0|].
    rewrite Forall_map in Hall.
    eapply Forall_impl; [|exact Hall]. simpl. intros m Hm. lia. }
  exists (files_from total output_dir chapters 0 chapters).
  unfold split_pdf_by_chapters. fold total.
  rewrite split_loop_nonneg by exact Hnn.
  destruct (files_from_cover total output_dir chapters chapters [] eq_refl
              Hs Hlt) as [_ Hcat].
  simpl length in Hcat.
  change (concat (map pages
                     (files_from total output_dir chapters 0 chapters))
          = range (fst first) total) in Hcat.
  split; [reflexivity|]. split; [|split; [exact Hcat|]].
  - intros i m Hi.
    destruct (end_page_bounds total chapters i m Hs Hlt Hi) as [Hle Hin].
    exists (chapter_file_at total output_dir chapters i m).
    split; [now rewrite (files_from_nth _ _ _ _ 0 i m Hi)|].
    split; [unfold chapter_file_at; simpl; now rewrite Z.min_l by lia|].
    split; [exact Hle|].
    unfold end_page. destruct (nth_error chapters (S i)); lia.
  - rewrite <- (map_map pages (@length Z)), <- length_concat, Hcat.
    rewrite range_length. inversion Hlt; subst. lia.
Qed.

(** C10. For a list of chapter marks whose page indices are not negative,
    [split_pdf_by_chapters] returns normally, writes one file per mark and
    returns their paths: the returned list is as long as the list of
    marks, its paths are pairwise different, and the file of a mark whose
    start page is at or past the number of pages, or past its end page
    (the next mark starting at the same or an earlier page), is written
    with no page in it. *)
Theorem split_one_file_per_mark
    (total_pages : nat) (output_dir : str) (chapters : list mark) :
  Forall (fun m => (0 <= fst m)%Z) chapters ->
  exists files created,
    split_pdf_by_chapters total_pages output_dir chapters
    = (files, Some created)
    /\ created = map path files
    /\ length created = length chapters
    /\ NoDup created
    /\ forall i m,
         nth_error chapters i = Some m ->
         exists f,
           nth_error files i = Some f
           /\ path f = path_join output_dir
                         (create_chapter_filename (snd m) (Z.of_nat i + 1))
           /\ (pages f = []
               <-> (Z.of_nat total_pages <= fst m
                    \/ end_page (Z.of_nat total_pages) chapters i < fst m)%Z).
Proof.
  set (total := Z.of_nat total_pages). intros Hnn.
  exists (files_from total output_dir chapters 0 chapters).
  exists (map path (files_from total output_dir chapters 0 chapters)).
  unfold split_pdf_by_chapters. fold total.
  rewrite split_loop_nonneg by exact Hnn.
  split; [reflexivity|]. split; [reflexivity|].
  split; [now rewrite length_map, files_from_length|].
  split; [apply files_from_distinct|].
  intros i m Hi.
  exists (chapter_file_at total output_dir chapters i m).
  split; [now rewrite (files_from_nth _ _ _ _ 0 i m Hi)|].
  split; [reflexivity|].
  unfold chapter_file_at. simpl. split.
  - intro E. apply (f_equal (@length Z)) in E.
    rewrite range_length in E. simpl in E. lia.
  - intro H. apply range_nil. lia.
Qed.

(** ** Chapter Detector: the claims *)

(** C2. On every page-text mapping [detect_chapters] returns, and every
    value it can return is sorted ascending by page index and holds no
    mark twice: no two entries share both page index and title. *)
Theorem detect_chapters_sorted_distinct (page_texts : list (Z * str)) :
  (exists r, detect_chapters page_texts r)
  /\ forall r, detect_chapters page_texts r ->
               Sorted page_le r /\ NoDup r.
Proof.
  split.
  - exists (detect_chapters_in_order page_texts). apply detect_chapters_total.
  - intros r H. apply detect_chapters_facts in H. tauto.
Qed.

Lemma detect_chapters_sorted_distinct_witness :
  detect_chapters two_chapter_pages two_chapter_marks
  /\ Sorted page_le two_chapter_marks /\ NoDup two_chapter_marks.
Proof.
  assert (H : detect_chapters two_chapter_pages two_chapter_marks).
  { exists two_chapter_marks. split; vm_compute; reflexivity. }
  split; [exact H|].
  exact (proj2 (detect_chapters_sorted_distinct two_chapter_pages)
               two_chapter_marks H).
Defined.

(** C4, as stated, fails: the title "5L/s of water flow" begins with a
    number immediately followed by the unit L/s, it passes the filter,
    and the line "Chapter 5L/s of water flow" yields a mark with it. *)
Lemma filter_accepts_flow_unit_without_gap :
  spec_number_then_unit (lit "5L/s of water flow")
  /\ title_ok (lit "5L/s of water flow") = true
  /\ line_marks 0 (lit "Chapter 5L/s of water flow")
     = [(0%Z, lit "5L/s of water flow")]
  /\ detect_chapters [(0%Z, lit "Chapter 5L/s of water flow")]
       [(0%Z, lit "5L/s of water flow")].
Proof.
  split; [|split; [|split]].
  - exists (lit "5"), (lit "L/s"), (lit " of water flow").
    split; [reflexivity|]. split; [discriminate|].
    split; [repeat constructor|]. simpl. tauto.
  - vm_compute. reflexivity.
  - vm_compute. reflexivity.
  - exists [(0%Z, lit "5L/s of water flow")]. split; vm_compute; reflexivity.
Qed.

(** C4, amended. No mark returned by [detect_chapters] has a title that
    is shorter than 11 characters, or begins with a number (digits, an
    optional period, optional digits), optional whitespace and one of
    psi, ft, m, cm, kg, lbm, hr, degree F, degree C, kPa, Btu, or begins
    with a number,
    at least one whitespace character and one of mol, m3, ft3, L/s, or
    contains "equation" in any mix of cases, or contains more than two
    periods: the filter refuses every such candidate.  The lines
    "1.2.3 some reference" and "14 psi absolute pressure" yield no mark,
    and the line "Chapter 4. Fluid Dynamics and Pressure" yields the mark
    titled "4. Fluid Dynamics and Pressure". *)
Theorem heading_filter_rejects :
  (forall t,
      length t < 11
      \/ begins_with_quantity 0 measurement_units t
      \/ begins_with_quantity 1 flow_units t
      \/ mentions_equation t
      \/ 2 < count "."%char t ->
      title_ok t = false)
  /\ (forall page_texts r m,
         detect_chapters page_texts r -> In m r ->
         10 < length (snd m)
         /\ ~ begins_with_quantity 0 measurement_units (snd m)
         /\ ~ begins_with_quantity 1 flow_units (snd m)
         /\ ~ mentions_equation (snd m)
         /\ count "."%char (snd m) <= 2)
  /\ (forall page_num,
         line_marks page_num (lit "1.2.3 some reference") = [])
  /\ (forall page_num,
         line_marks page_num (lit "14 psi absolute pressure") = [])
  /\ (forall page_num,
         line_marks page_num (lit "Chapter 4. Fluid Dynamics and Pressure")
         = [(page_num, lit "4. Fluid Dynamics and Pressure")]).
Proof.
  split; [|split; [|split; [|split]]].
  - intros t H. apply not_true_iff_false. intro Hok.
    apply title_ok_spec in Hok. destruct Hok as [H1 [H2 [H3 [H4 H5]]]].
    destruct H as [H|[H|[H|[H|H]]]]; try contradiction; lia.
  - intros page_texts r m Hr Hm. apply title_ok_spec.
    apply detect_chapters_facts in Hr. destruct Hr as [_ [_ Hin]].
    apply Hin in Hm. now apply found_chapters_ok in Hm.
  - intro page_num. vm_compute. reflexivity.
  - intro page_num. vm_compute. reflexivity.
  - intro page_num. vm_compute. reflexivity.
Qed.

Lemma heading_filter_rejects_witness :
  begins_with_quantity 0 measurement_units (lit "14 psi absolute pressure")
  /\ title_ok (lit "14 psi absolute pressure") = false.
Proof.
  assert (H : begins_with_quantity 0 measurement_units
                (lit "14 psi absolute pressure")).
  { exists (lit "14"), [space], (lit "psi"), (lit " absolute pressure").
    split; [reflexivity|]. split.
    - exists (lit "14"), [], []. split; [reflexivity|].
      split; [discriminate|]. split; [repeat constructor|].
      split; [now left|constructor].
    - split; [repeat constructor|]. split; [simpl; lia|]. simpl. tauto. }
  split; [exact H|].
  apply (proj1 heading_filter_rejects). right. left. exact H.
Defined.

(** C5. For every line [detect_chapters] inspects, the patterns being
    tried in the order of [chapter_patterns], the first pattern that
    matches the line decides the line: group 1 took part in its match,
    and the line yields the mark with the title of that match when the
    filter accepts the title, and no mark otherwise; no later pattern
    contributes a mark of its own. *)
Theorem first_matching_pattern_decides
    (txt l : str) (earlier later : list pattern) (pat : pattern)
    (m : mstate) :
  In l (firstn 5 (split newline txt)) ->
  chapter_patterns = earlier ++ pat :: later ->
  Forall (fun q => re_search q (strip l) = None) earlier ->
  re_search pat (strip l) = Some m ->
  exists g,
    m_grp m = Some g
    /\ forall page_num,
         line_marks page_num l
         = if title_ok (title_of_group g) then [(page_num, title_of_group g)]
           else [].
Proof.
  intros Hl Hsplit Hearlier Hm.
  assert (Hclean := inspected_line_clean txt l Hl).
  set (line := strip l) in *.
  assert (Hpat : In pat chapter_patterns)
    by (rewrite Hsplit; apply in_elt).
  destruct (chapter_patterns_capture pat line m Hpat Hm) as [g Hg].
  exists g. split; [exact Hg|]. intro page_num.
  assert (Hne : is_empty line = false).
  { destruct line as [|c line']; [|reflexivity].
    exfalso. simpl in Hpat.
    destruct Hpat as [<-|[<-|[<-|[<-|[]]]]]; vm_compute in Hm; discriminate. }
  unfold line_marks. fold line. rewrite Hne.
  assert (Hscan : scan_patterns chapter_patterns line
                  = if title_ok (title_of_group g) then Some (title_of_group g)
                    else None).
  { assert (Hk : nth_error chapter_patterns (length earlier) = Some pat).
    { rewrite Hsplit, nth_error_app2, Nat.sub_diag by lia. reflexivity. }
    assert (Hlen : length earlier < 4).
    { apply (f_equal (@length pattern)) in Hsplit.
      rewrite length_app in Hsplit. simpl in Hsplit. lia. }
    destruct (pattern_lead _ pat line m Hk Hm) as [c [rest [Ec Hc]]].
    assert (Hno : forall k q, length earlier < k -> k < 4 ->
                     (length earlier < 2 \/ k < 2) ->
                     nth_error chapter_patterns k = Some q ->
                     re_search q line = None).
    { intros k q H1 H2 H3 Hq.
      destruct (re_search q line) as [m'|] eqn:E; [|reflexivity].
      destruct (pattern_lead _ q line m' Hq E) as [c' [rest' [Ec' Hc']]].
      rewrite Ec in Ec'. inversion Ec'; subst c' rest'.
      rewrite (lead_sets_apart _ _ c H1 H2 H3 Hc) in Hc'. discriminate. }
    unfold chapter_patterns in *.
    destruct earlier as [|e0 [|e1 [|e2 [|e3 earlier]]]];
      simpl in Hsplit; inversion Hsplit; subst; clear Hsplit;
      try (destruct earlier; discriminate).
    - rewrite (scan_step_match _ _ _ m g Hm Hg).
      destruct (title_ok (title_of_group g)); [reflexivity|].
      apply scan_patterns_none. repeat constructor.
      + apply (Hno 1); simpl; auto; lia.
      + apply (Hno 2); simpl; auto; lia.
      + apply (Hno 3); simpl; auto; lia.
    - inversion Hearlier as [|? ? H0 _]; subst.
      rewrite (scan_step_skip _ _ _ H0), (scan_step_match _ _ _ m g Hm Hg).
      destruct (title_ok (title_of_group g)); [reflexivity|].
      apply scan_patterns_none. repeat constructor.
      + apply (Hno 2); simpl; auto; lia.
      + apply (Hno 3); simpl; auto; lia.
    - inversion Hearlier as [|? ? H0 Hearlier']; subst.
      inversion Hearlier' as [|? ? H1 _]; subst.
      rewrite (scan_step_skip _ _ _ H0), (scan_step_skip _ _ _ H1),
        (scan_step_match _ _ _ m g Hm Hg).
      destruct (title_ok (title_of_group g)) eqn:Hok; [reflexivity|].
      destruct (re_search chapter_word_pattern line) as [m'|] eqn:E.
      + rewrite (scan_step_match _ _ _ m' g E).
        * now rewrite Hok.
        * rewrite (chapter_word_group line m' Hclean E).
          now rewrite <- (chapter_digits_group line m Hclean Hm).
      + now rewrite (scan_step_skip _ _ _ E).
    - inversion Hearlier as [|? ? H0 Hearlier']; subst.
      inversion Hearlier' as [|? ? H1 Hearlier'']; subst.
      inversion Hearlier'' as [|? ? H2 _]; subst.
      rewrite (scan_step_skip _ _ _ H0), (scan_step_skip _ _ _ H1),
        (scan_step_skip _ _ _ H2), (scan_step_match _ _ _ m g Hm Hg).
      now destruct (title_ok (title_of_group g)). }
  rewrite Hscan. now destruct (title_ok (title_of_group g)).
Qed.

Lemma first_matching_pattern_decides_witness :
  In (lit "Chapter 4. Fluid Dynamics and Pressure")
     (firstn 5 (split newline (lit "Chapter 4. Fluid Dynamics and Pressure")))
  /\ chapter_patterns
     = [topic_pattern; numbered_pattern] ++ chapter_digits_pattern
       :: [chapter_word_pattern]
  /\ Forall (fun q =>
               re_search q
                 (strip (lit "Chapter 4. Fluid Dynamics and Pressure"))
               = None)
            [topic_pattern; numbered_pattern]
  /\ re_search chapter_digits_pattern
       (strip (lit "Chapter 4. Fluid Dynamics and Pressure"))
     = Some (MState 38 [] (Some (lit "4. Fluid Dynamics and Pressure")))
  /\ exists g,
       Some (lit "4. Fluid Dynamics and Pressure") = Some g
       /\ forall page_num,
            line_marks page_num (lit "Chapter 4. Fluid Dynamics and Pressure")
            = if title_ok (title_of_group g) then [(page_num, title_of_group g)]
              else [].
Proof.
  assert (H1 : In (lit "Chapter 4. Fluid Dynamics and Pressure")
                 (firstn 5 (split newline
                              (lit "Chapter 4. Fluid Dynamics and Pressure"))))
    by (vm_compute; now left).
  assert (H2 : chapter_patterns
               = [topic_pattern; numbered_pattern] ++ chapter_digits_pattern
                 :: [chapter_word_pattern]) by reflexivity.
  assert (H3 : Forall (fun q =>
                  re_search q
                    (strip (lit "Chapter 4. Fluid Dynamics and Pressure"))
                  = None) [topic_pattern; numbered_pattern])
    by (repeat constructor).
  assert (H4 : re_search chapter_digits_pattern
                 (strip (lit "Chapter 4. Fluid Dynamics and Pressure"))
               = Some (MState 38 []
                         (Some (lit "4. Fluid Dynamics and Pressure"))))
    by (vm_compute; reflexivity).
  repeat split; try assumption.
  exact (first_matching_pattern_decides _ _ _ _ _ _ H1 H2 H3 H4).
Defined.

(** C9, as stated, fails.  Two enumerations of one mapping, a page of
    which carries two headings: one run can return the two marks of that
    page in one order and another run in the other, the set between the
    scan and the sort being enumerated in an unspecified order and the
    sort comparing pages only. *)
Lemma detect_chapters_order_counterexample :
  Permutation two_topics_first two_topics_last
  /\ NoDup (map fst two_topics_first)
  /\ detect_chapters two_topics_first
       [(0%Z, lit "Topic I: Mass and Energy");
        (0%Z, lit "Topic II: Heat Transfer Basics");
        (1%Z, lit "2. Thermodynamics")]
  /\ detect_chapters two_topics_last
       [(0%Z, lit "Topic II: Heat Transfer Basics");
        (0%Z, lit "Topic I: Mass and Energy");
        (1%Z, lit "2. Thermodynamics")]
  /\ [(0%Z, lit "Topic I: Mass and Energy");
      (0%Z, lit "Topic II: Heat Transfer Basics");
      (1%Z, lit "2. Thermodynamics")]
     <> [(0%Z, lit "Topic II: Heat Transfer Basics");
         (0%Z, lit "Topic I: Mass and Energy");
         (1%Z, lit "2. Thermodynamics")].
Proof.
  split; [apply perm_swap|].
  split; [repeat constructor; simpl; intuition discriminate|].
  split; [|split].
  - exists [(0%Z, lit "Topic I: Mass and Energy");
            (0%Z, lit "Topic II: Heat Transfer Basics");
            (1%Z, lit "2. Thermodynamics")].
    split; vm_compute; reflexivity.
  - exists [(0%Z, lit "Topic II: Heat Transfer Basics");
            (0%Z, lit "Topic I: Mass and Energy");
            (1%Z, lit "2. Thermodynamics")].
    split; vm_compute; reflexivity.
  - discriminate.
Qed.

(** C9, amended.  For two enumerations of one page-text mapping, the
    values [detect_chapters] returns hold the same marks, each once, and
    the same sequence of page indices; they are the same sequence, in
    the same order, whenever no two marks share a page index.  The order
    of two marks of one page is not determined. *)
Theorem detect_chapters_order_insensitive
    (page_texts page_texts' : list (Z * str)) (r r' : list mark) :
  Permutation page_texts page_texts' ->
  detect_chapters page_texts r ->
  detect_chapters page_texts' r' ->
  Permutation r r'
  /\ map fst r = map fst r'
  /\ (NoDup (map fst r) -> r = r').
Proof.
  intros HP Hr Hr'.
  apply detect_chapters_facts in Hr, Hr'.
  destruct Hr as [Hs [Hnd Hin]]. destruct Hr' as [Hs' [Hnd' Hin']].
  assert (Hperm : Permutation r r').
  { apply NoDup_Permutation; auto. intro m. rewrite Hin, Hin'.
    split; apply Permutation_in; [|apply Permutation_sym];
      now apply found_chapters_perm. }
  split; [exact Hperm|]. split.
  - apply sorted_pages_unique; auto using sorted_map_fst.
    now apply Permutation_map.
  - intro Hk. now apply sorted_marks_unique.
Qed.

Lemma detect_chapters_order_insensitive_witness :
  Permutation two_chapter_pages (rev two_chapter_pages)
  /\ detect_chapters two_chapter_pages two_chapter_marks
  /\ detect_chapters (rev two_chapter_pages) two_chapter_marks
  /\ NoDup (map fst two_chapter_marks)
  /\ Permutation two_chapter_marks two_chapter_marks
  /\ map fst two_chapter_marks = map fst two_chapter_marks
  /\ two_chapter_marks = two_chapter_marks.
Proof.
  assert (H1 : Permutation two_chapter_pages (rev two_chapter_pages))
    by apply Permutation_rev.
  assert (H2 : detect_chapters two_chapter_pages two_chapter_marks)
    by (exists two_chapter_marks; split; vm_compute; reflexivity).
  assert (H3 : detect_chapters (rev two_chapter_pages) two_chapter_marks)
    by (exists (rev two_chapter_marks); split; vm_compute; reflexivity).
  assert (H4 : NoDup (map fst two_chapter_marks))
    by (repeat constructor; simpl; intuition discriminate).
  destruct (detect_chapters_order_insensitive _ _ _ _ H1 H2 H3)
    as [P [E F]].
  repeat split; auto.
Defined.

(** ** Filename Sanitizer: the claims *)

Lemma fullmatch_lang ic r w :
  lang ic r w -> re_fullmatch (Pattern ic r) w = true.
Proof.
  intro L. unfold re_fullmatch. cbn [ignorecase body].
  destruct (lang_denote ic r w (MState 0 w None) [] L)
    as [st' [D [R _]]]; [simpl; now rewrite app_nil_r|].
  apply existsb_exists. exists st'. split; [now apply run_denote|].
  now rewrite R.
Qed.

Lemma cs_mem_one_same c : cs_mem false (one c) c = true.
Proof.
  unfold cs_mem, one. cbn [cs_negated cs_items existsb item_mem xorb].
  unfold ascii_eqb. now rewrite Ascii.eqb_refl.
Qed.

Lemma not_newline_mem c : c <> newline -> cs_mem false not_newline c = true.
Proof.
  destruct c as [[] [] [] [] [] [] [] []]; vm_compute;
    try reflexivity; congruence.
Qed.

(** The shape of every filename, for the digits [ds] of the ordinal. *)
Lemma filename_lang (hi : option nat) (ds : str) (t : str) :
  Forall (fun c => is_digit c = true) ds ->
  2 <= length ds ->
  match hi with Some h => length ds <= h | None => True end ->
  lang false
    (seqs [text (lit "Chapter_"); Rep digit 2 hi; Chr (one "_"%char);
           Rep not_newline 0 (Some 50); Chr (one "."%char);
           text (lit "pdf")])
    (lit "Chapter_" ++ ds ++ lit "_" ++ slug t ++ lit ".pdf").
Proof.
  intros Hd Hlen Hhi. cbn [seqs lang].
  exists (lit "Chapter_"), (ds ++ lit "_" ++ slug t ++ lit ".pdf").
  split; [reflexivity|]. split; [now apply lang_text_exact|].
  exists ds, (lit "_" ++ slug t ++ lit ".pdf").
  split; [reflexivity|]. split.
  { split; [|split; assumption].
    eapply Forall_impl; [|exact Hd]. intros c Hc. now rewrite cs_mem_digit. }
  exists (lit "_"), (slug t ++ lit ".pdf").
  split; [reflexivity|]. split.
  { exists "_"%char. split; [reflexivity|apply cs_mem_one_same]. }
  exists (slug t), (lit ".pdf").
  split; [reflexivity|]. split.
  { split; [|split; [lia|apply slug_length]].
    eapply Forall_impl; [|apply slug_chars].
    intros c [_ Hc]. now apply not_newline_mem. }
  exists (lit "."), (lit "pdf").
  split; [reflexivity|]. split.
  { exists "."%char. split; [reflexivity|apply cs_mem_one_same]. }
  now apply lang_text_exact.
Qed.

(** C6, as stated, fails: the ordinal 100 is written with three digits,
    and the filename does not match [Chapter_\d{2}_.{0,50}\.pdf], neither
    as a whole nor anywhere inside. *)
Lemma filename_of_ordinal_100 :
  create_chapter_filename (lit "Intro") 100 = lit "Chapter_100_Intro.pdf"
  /\ re_fullmatch spec_filename_pattern
       (create_chapter_filename (lit "Intro") 100)
     = false
  /\ re_search spec_filename_pattern (create_chapter_filename (lit "Intro") 100)
     = None.
Proof. repeat split; vm_compute; reflexivity. Qed.

(** C6, amended.  [create_chapter_filename] is total: every title
    (empty and symbol-only ones too) and every ordinal give a filename.
    For a positive ordinal the filename is [Chapter_], the ordinal in
    decimal digits, zero-padded to at least 2 digits, [_], a slug of at
    most 50 characters without a newline, and [.pdf]: it matches
    [Chapter_\d{2,}_.{0,50}\.pdf]; for the ordinals up to 99 the ordinal
    takes exactly 2 digits and the filename matches
    [Chapter_\d{2}_.{0,50}\.pdf]. *)
Theorem filename_shape (chapter_title : str) (chapter_num : Z) :
  (1 <= chapter_num)%Z ->
  create_chapter_filename chapter_title chapter_num
  = lit "Chapter_" ++ format_02d chapter_num ++ lit "_"
    ++ slug chapter_title ++ lit ".pdf"
  /\ Forall (fun c => is_digit c = true) (format_02d chapter_num)
  /\ 2 <= length (format_02d chapter_num)
  /\ digits_value (format_02d chapter_num) = Some chapter_num
  /\ length (slug chapter_title) <= 50
  /\ re_fullmatch long_filename_pattern
       (create_chapter_filename chapter_title chapter_num) = true
  /\ ((chapter_num <= 99)%Z ->
      length (format_02d chapter_num) = 2
      /\ re_fullmatch spec_filename_pattern
           (create_chapter_filename chapter_title chapter_num) = true).
Proof.
  intro Hn.
  assert (Hd : Forall (fun c => is_digit c = true) (format_02d chapter_num))
    by (apply format_02d_digits; lia).
  assert (Hw : 2 <= length (format_02d chapter_num))
    by (apply format_02d_width; lia).
  split; [reflexivity|]. split; [exact Hd|]. split; [exact Hw|].
  split; [apply format_02d_value; lia|]. split; [apply slug_length|].
  split.
  - apply fullmatch_lang. now apply filename_lang.
  - intro H99.
    assert (H2 : length (format_02d chapter_num) = 2).
    { assert (H := format_02d_two_digits chapter_num
                     (conj (Z.le_trans _ _ _ Z.le_0_1 Hn) H99)).
      unfold two_digits_of in H.
      destruct (format_02d chapter_num) as [|a [|b [|c ds]]];
        try discriminate. reflexivity. }
    split; [exact H2|].
    apply fullmatch_lang. apply filename_lang; auto. simpl. lia.
Qed.

Lemma filename_shape_witness :
  (1 <= 7)%Z
  /\ create_chapter_filename (lit "$$$") 7 = lit "Chapter_07_.pdf"
  /\ re_fullmatch spec_filename_pattern (create_chapter_filename (lit "$$$") 7)
     = true.
Proof.
  assert (H : (1 <= 7)%Z) by lia.
  split; [exact H|]. split; [vm_compute; reflexivity|].
  destruct (filename_shape (lit "$$$") 7 H) as [_ [_ [_ [_ [_ [_ F]]]]]].
  apply F. lia.
Defined.

(** C7, as stated, fails: an underscore of the title is neither
    alphanumeric, nor whitespace, nor a hyphen, and it survives into the
    slug; and whitespace at the ends of the title is dropped, not turned
    into underscores. *)
Lemma slug_keeps_underscore :
  slug (lit "a_b") = lit "a_b"
  /\ spec_slug (lit "a_b") = lit "ab"
  /\ slug (lit "a_b") <> spec_slug (lit "a_b")
  /\ is_alnum "_"%char = false /\ is_space "_"%char = false
  /\ Forall (fun c => is_space c = false) (lit "a_b")
  /\ slug (lit " a b ") = lit "a_b"
  /\ spec_slug (lit " a b ") = lit "_a_b_".
Proof.
  repeat split; try (vm_compute; reflexivity); try (vm_compute; discriminate).
  repeat constructor.
Qed.

(** C7, amended.  The slug embedded in the filename is obtained by
    deleting every character that is not a word character (alphanumeric
    or underscore), whitespace or hyphen, then trimming whitespace at
    both ends, then turning each run of whitespace into one underscore,
    then keeping the first 50 characters; every character of the slug is
    alphanumeric, an underscore or a hyphen.  It is the slug of the
    spec's wording when the title holds no underscore and what is kept of
    it neither begins nor ends with whitespace. *)
Theorem slug_derivation (chapter_title : str) (chapter_num : Z) :
  create_chapter_filename chapter_title chapter_num
  = lit "Chapter_" ++ format_02d chapter_num ++ lit "_"
    ++ slug chapter_title ++ lit ".pdf"
  /\ slug chapter_title
     = firstn 50 (sub_ws (lit "_") (strip (filter code_keep chapter_title)))
  /\ length (slug chapter_title) <= 50
  /\ Forall (fun c => slug_char c = true) (slug chapter_title)
  /\ (~ In "_"%char chapter_title ->
      strip (filter spec_keep chapter_title) = filter spec_keep chapter_title ->
      slug chapter_title = spec_slug chapter_title).
Proof.
  assert (Hkeep : delete_chars problematic chapter_title
                  = filter code_keep chapter_title).
  { unfold delete_chars. apply filter_ext. intro c.
    rewrite problematic_spec. apply negb_involutive. }
  split; [reflexivity|]. split; [unfold slug; now rewrite Hkeep|].
  split; [apply slug_length|]. split.
  - eapply Forall_impl; [|apply slug_chars]. now intros c [H _].
  - intros Hno Hstrip. unfold slug, spec_slug. rewrite Hkeep.
    assert (E : filter code_keep chapter_title
                = filter spec_keep chapter_title).
    { clear Hstrip Hkeep.
      induction chapter_title as [|c t IH]; simpl; [reflexivity|].
      assert (Hc : code_keep c = spec_keep c).
      { unfold code_keep, spec_keep, ascii_eqb.
        destruct (Ascii.eqb_spec c "_"%char) as [->|_].
        - exfalso. apply Hno. now left.
        - now rewrite orb_false_r. }
      rewrite Hc, IH; [reflexivity|]. intro H. apply Hno. now right. }
    now rewrite E, Hstrip.
Qed.

Lemma slug_derivation_witness :
  ~ In "_"%char (lit "Topic I: Mass & Energy")
  /\ strip (filter spec_keep (lit "Topic I: Mass & Energy"))
     = filter spec_keep (lit "Topic I: Mass & Energy")
  /\ slug (lit "Topic I: Mass & Energy")
     = spec_slug (lit "Topic I: Mass & Energy")
  /\ slug (lit "Topic I: Mass & Energy") = lit "Topic_I_Mass_Energy".
Proof.
  assert (H1 : ~ In "_"%char (lit "Topic I: Mass & Energy"))
    by (simpl; intuition discriminate).
  assert (H2 : strip (filter spec_keep (lit "Topic I: Mass & Energy"))
               = filter spec_keep (lit "Topic I: Mass & Energy"))
    by (vm_compute; reflexivity).
  split; [exact H1|]. split; [exact H2|]. split.
  - destruct (slug_derivation (lit "Topic I: Mass & Energy") 1)
      as [_ [_ [_ [_ F]]]]. exact (F H1 H2).
  - vm_compute. reflexivity.
Defined.

(** ** PDF Splitter: instances *)

Lemma split_covers_from_first_start_witness :
  (0 <= fst (0%Z, lit "Topic I: Mass and Energy Balances"))%Z
  /\ Sorted Z.lt (map fst two_chapter_marks)
  /\ Forall (fun m => (fst m < Z.of_nat 4)%Z) two_chapter_marks
  /\ exists files,
       split_pdf_by_chapters 4 (lit "out") two_chapter_marks
       = (files, Some (map path files))
       /\ map pages files = [[0; 1]; [2; 3]]%Z
       /\ concat (map pages files) = range 0 4
       /\ (Z.of_nat (list_sum (map (fun f => length (pages f)) files))
           = 4 - 0)%Z.
Proof.
  assert (H1 : (0 <= fst (0%Z, lit "Topic I: Mass and Energy Balances"))%Z)
    by (simpl; lia).
  assert (H2 : Sorted Z.lt (map fst two_chapter_marks))
    by (repeat constructor).
  assert (H3 : Forall (fun m => (fst m < Z.of_nat 4)%Z) two_chapter_marks)
    by (repeat constructor).
  split; [exact H1|]. split; [exact H2|]. split; [exact H3|].
  destruct (split_covers_from_first_start 4 (lit "out") _ _ H1 H2 H3)
    as [files [E [_ [C S]]]].
  exists files. split; [exact E|]. split; [|split; [exact C|exact S]].
  vm_compute in E. inversion E. reflexivity.
Defined.

Lemma split_one_file_per_mark_witness :
  Forall (fun m => (0 <= fst m)%Z)
         [(3%Z, lit "late"); (3%Z, lit "same page"); (9%Z, lit "past the end")]
  /\ exists files created,
       split_pdf_by_chapters 4 (lit "out")
         [(3%Z, lit "late"); (3%Z, lit "same page"); (9%Z, lit "past the end")]
       = (files, Some created)
       /\ length created = 3
       /\ NoDup created
       /\ map pages files = [[]; [3%Z]; []].
Proof.
  assert (H : Forall (fun m => (0 <= fst m)%Z)
                [(3%Z, lit "late"); (3%Z, lit "same page");
                 (9%Z, lit "past the end")])
    by (repeat constructor; simpl; lia).
  split; [exact H|].
  destruct (split_one_file_per_mark 4 (lit "out") _ H)
    as [files [created [E [_ [L [N _]]]]]].
  exists files, created. split; [exact E|]. split; [exact L|].
  split; [exact N|].
  vm_compute in E. inversion E. reflexivity.
Defined.

(** ** The pipeline entry point: the claim *)

(** C8. In every run of [main] in which the detector returns the empty
    sequence (the entry point never asks for a manual override), the
    splitter is not called and no chapter file is written; no error is
    reported; the run ends after the report that no chapters were
    detected. *)
Theorem no_chapters_no_split (w : world) (tr : list event) :
  main w (Some []) tr ->
  (forall chapters, ~ In (SplitterCalled chapters) tr)
  /\ (forall f, ~ In (FileWritten f) tr)
  /\ (forall n, ~ In (Print (Created n)) tr)
  /\ ~ In Traceback tr
  /\ ~ In (Print ErrorDuringProcessing) tr
  /\ exists n,
       tr = [Print Processing; Print OutputDirectory; Print Extracting;
             Print (Extracted n); Print Detecting;
             Print NoChaptersDetected; Print WillAttemptSections].
Proof.
  unfold main. destruct (input_exists w); simpl.
  2: { intros [H _]. discriminate. }
  destruct (document w) as [reader|].
  2: { intros [H _]. discriminate. }
  intros [r [_ [E ->]]]. inversion E; subst r. clear E.
  cbn [after_detection no_marks app].
  repeat split; try (intros; simpl; intuition discriminate).
  now eexists.
Qed.

Lemma no_chapters_no_split_witness :
  main (World true (Some [Text (lit "some content"); Fails]) (lit "out"))
       (Some [])
       [Print Processing; Print OutputDirectory; Print Extracting;
        Print (Extracted 2); Print Detecting;
        Print NoChaptersDetected; Print WillAttemptSections]
  /\ forall chapters,
       ~ In (SplitterCalled chapters)
            [Print Processing; Print OutputDirectory; Print Extracting;
             Print (Extracted 2); Print Detecting;
             Print NoChaptersDetected; Print WillAttemptSections].
Proof.
  assert (H : main (World true (Some [Text (lit "some content"); Fails])
                          (lit "out"))
                   (Some [])
                   [Print Processing; Print OutputDirectory; Print Extracting;
                    Print (Extracted 2); Print Detecting;
                    Print NoChaptersDetected; Print WillAttemptSections]).
  { unfold main. simpl. exists []. split; [|split; reflexivity].
    exists []. split; vm_compute; reflexivity. }
  split; [exact H|].
  exact (proj1 (no_chapters_no_split _ _ H)).
Defined.

(** * Properties beyond the claims *)

(** ** Stripping and collapsing whitespace *)

Section WhitespaceFacts.

Lemma lstrip_split s :
  exists ws, s = ws ++ lstrip s /\ Forall (fun c => is_space c = true) ws.
Proof.
  induction s as [|c s [ws [E H]]]; simpl.
  - now exists [].
  - destruct (is_space c) eqn:Hc.
    + exists (c :: ws). simpl. split; [now rewrite <- E|now constructor].
    + now exists [].
Qed.

Lemma lstrip_head s c r : lstrip s = c :: r -> is_space c = false.
Proof.
  induction s as [|x s IH]; simpl; [discriminate|].
  destruct (is_space x) eqn:Hx; [exact IH|]. now intros [= <- _].
Qed.

Lemma lstrip_blank s :
  lstrip s = [] <-> Forall (fun c => is_space c = true) s.
Proof.
  split.
  - intro H. destruct (lstrip_split s) as [ws [E Hws]].
    rewrite H, app_nil_r in E. now subst.
  - intro H. rewrite <- (app_nil_r s). now rewrite lstrip_ws.
Qed.

Lemma lstrip_fixed s :
  match s with c :: _ => is_space c = false | [] => True end ->
  lstrip s = s.
Proof. destruct s as [|c s]; simpl; [reflexivity|]. now intros ->. Qed.

Lemma strip_blank s :
  strip s = [] <-> Forall (fun c => is_space c = true) s.
Proof.
  unfold strip, rstrip. split.
  - intro H. apply (f_equal (@rev ascii)) in H.
    rewrite rev_involutive in H. simpl in H.
    apply lstrip_blank, Forall_rev in H. rewrite rev_involutive in H.
    apply lstrip_blank.
    destruct (lstrip s) as [|c r] eqn:E; [reflexivity|].
    apply lstrip_head in E. inversion H; subst. congruence.
  - intro H. apply lstrip_blank in H. now rewrite H.
Qed.

Lemma is_empty_nil (s : str) : is_empty s = true <-> s = [].
Proof. destruct s; simpl; split; congruence. Qed.

(** [rstrip] keeps a prefix and drops whitespace only. *)
Lemma rstrip_split s :
  exists ws, s = rstrip s ++ ws /\ Forall (fun c => is_space c = true) ws.
Proof.
  unfold rstrip. destruct (lstrip_split (rev s)) as [ws [E H]].
  exists (rev ws). split; [|now apply Forall_rev].
  rewrite <- rev_app_distr, <- E. now rewrite rev_involutive.
Qed.

Lemma rstrip_last s x r :
  rev (rstrip s) = x :: r -> is_space x = false.
Proof.
  unfold rstrip. rewrite rev_involutive. apply lstrip_head.
Qed.

(** What [strip] returns: nothing, or text that neither begins nor ends
    with whitespace. *)
Lemma strip_ends s c r :
  strip s = c :: r ->
  is_space c = false
  /\ exists x r', rev (strip s) = x :: r' /\ is_space x = false.
Proof.
  intro H. unfold strip in *. split.
  - destruct (rstrip_split (lstrip s)) as [ws [E _]].
    rewrite H in E. simpl in E.
    destruct (lstrip s) as [|c0 r0] eqn:E0; [discriminate|].
    inversion E; subst. now apply lstrip_head in E0.
  - destruct (rev (rstrip (lstrip s))) as [|x r'] eqn:E.
    + apply (f_equal (@rev ascii)) in E. rewrite rev_involutive in E.
      rewrite H in E. discriminate.
    + exists x, r'. split; [reflexivity|]. now apply rstrip_last in E.
Qed.

Lemma strip_solid s :
  Forall (fun c => is_space c = false) s -> strip s = s.
Proof.
  intro H. unfold strip, rstrip.
  rewrite (lstrip_fixed s) by (destruct H; auto).
  rewrite lstrip_fixed; [apply rev_involutive|].
  apply Forall_rev in H. destruct H; auto.
Qed.

Lemma sub_ws_from_solid repl : forall s b,
  Forall (fun c => is_space c = false) s -> sub_ws_from repl b s = s.
Proof.
  induction s as [|c s IH]; intros b H; simpl; [reflexivity|].
  inversion H as [|? ? Hc Hs]; subst. rewrite Hc. now rewrite IH.
Qed.

(** Collapsing the whitespace of text that ends with a character that is
    not whitespace gives tidy text. *)
Lemma sub_ws_from_tidy : forall s b x r,
  rev s = x :: r -> is_space x = false ->
  tidy_from b (sub_ws_from [space] b s) = true.
Proof.
  induction s as [|c s IH]; intros b x r Hrev Hx; [discriminate|].
  assert (Htail : s = [] \/ exists r', rev s = x :: r').
  { destruct (rev s) as [|y r'] eqn:E.
    - left. apply (f_equal (@rev ascii)) in E.
      now rewrite rev_involutive in E.
    - right. simpl in Hrev. rewrite E in Hrev. simpl in Hrev.
      inversion Hrev; subst. now exists r'. }
  assert (Hlast : s = [] -> c = x).
  { intros ->. simpl in Hrev. now inversion Hrev. }
  cbn [sub_ws_from]. destruct (is_space c) eqn:Hc.
  - destruct Htail as [->|[r' Hr']];
      [rewrite (Hlast eq_refl) in Hc; congruence|].
    destruct b.
    + now apply (IH true x r').
    + cbn [app tidy_from]. change (is_space space) with true. cbv iota.
      unfold ascii_eqb. rewrite Ascii.eqb_refl. simpl.
      now apply (IH true x r').
  - cbn [tidy_from]. rewrite Hc.
    destruct Htail as [->|[r' Hr']]; [reflexivity|].
    now apply (IH false x r').
Qed.

Lemma title_of_group_tidy g :
  title_of_group g <> [] -> tidy (title_of_group g) = true.
Proof.
  unfold title_of_group, sub_ws, tidy. intro Hne.
  destruct (strip g) as [|c r] eqn:E; [now destruct Hne|].
  destruct (strip_ends g c r E) as [Hc [x [r' [Hrev Hx]]]].
  rewrite E in Hrev.
  cbn [sub_ws_from]. rewrite Hc. cbn [tidy_from]. rewrite Hc.
  destruct r as [|c' r]; [reflexivity|].
  assert (Hr : exists r'', rev (c' :: r) = x :: r'').
  { change (c :: c' :: r) with ([c] ++ c' :: r) in Hrev.
    rewrite rev_app_distr in Hrev. simpl in Hrev.
    destruct (rev r ++ [c']) as [|y r''] eqn:E'.
    - destruct (rev r); discriminate.
    - simpl in Hrev. inversion Hrev; subst. simpl. rewrite E'. now exists r''. }
  destruct Hr as [r'' Hr]. now apply (sub_ws_from_tidy _ false x r'').
Qed.

End WhitespaceFacts.

(** ** Chapter Detector: what a page contributes *)

Section PageFacts.

Lemma split_nonempty sep s : split sep s <> [].
Proof.
  destruct s as [|c s]; simpl; [discriminate|].
  destruct (ascii_eqb c sep); [discriminate|].
  destruct (split sep s); discriminate.
Qed.

Lemma split_app sep : forall a b,
  split sep (a ++ sep :: b) = split sep a ++ split sep b.
Proof.
  induction a as [|c a IH]; intro b; simpl.
  - unfold ascii_eqb. now rewrite Ascii.eqb_refl.
  - rewrite IH. destruct (ascii_eqb c sep); [reflexivity|].
    destruct (split sep a) as [|piece pieces] eqn:E; [|reflexivity].
    now destruct (split_nonempty sep a).
Qed.

Lemma split_all (P : ascii -> Prop) sep : forall s,
  Forall P s -> Forall (Forall P) (split sep s).
Proof.
  induction 1 as [|c s Hc Hs IH]; simpl.
  - repeat constructor.
  - destruct (ascii_eqb c sep); [constructor; [constructor|exact IH]|].
    destruct (split sep s) as [|piece pieces].
    + repeat constructor. exact Hc.
    + inversion IH; subst. constructor; [now constructor|assumption].
Qed.

Lemma scan_patterns_empty_line : scan_patterns chapter_patterns [] = None.
Proof. vm_compute. reflexivity. Qed.

Lemma line_marks_blank page_num line :
  Forall (fun c => is_space c = true) line -> line_marks page_num line = [].
Proof.
  intro H. unfold line_marks. apply strip_blank in H. now rewrite H.
Qed.

(** The test of line 50 changes nothing: a page is the sum of its first
    five lines. *)
Lemma page_marks_lines page_num txt :
  page_marks page_num txt
  = flat_map (line_marks page_num) (firstn 5 (split newline txt)).
Proof.
  unfold page_marks. destruct (is_empty (strip txt)) eqn:E; [|reflexivity].
  apply is_empty_nil, strip_blank in E.
  apply (split_all _ newline) in E.
  assert (H : Forall (Forall (fun c => is_space c = true))
                     (firstn 5 (split newline txt))).
  { apply Forall_forall. intros l Hl. apply firstn_In in Hl.
    rewrite Forall_forall in E. now apply E. }
  induction H as [|l ls Hl Hls IH]; simpl; [reflexivity|].
  now rewrite line_marks_blank, <- IH.
Qed.

Lemma line_marks_in page_num line m :
  In m (line_marks page_num line)
  <-> fst m = page_num
      /\ scan_patterns chapter_patterns (strip line) = Some (snd m).
Proof.
  unfold line_marks. destruct (strip line) as [|c r] eqn:E; cbn [is_empty].
  - rewrite scan_patterns_empty_line. split; [intros []|intros [_ H]].
    discriminate.
  - destruct (scan_patterns chapter_patterns (c :: r)) as [t|]; simpl.
    + split.
      * intros [<-|[]]. auto.
      * intros [H1 H2]. left. destruct m. simpl in *. congruence.
    + split; [intros []|intros [_ H]]. discriminate.
Qed.

Lemma line_marks_short page_num line : length (line_marks page_num line) <= 1.
Proof.
  unfold line_marks. destruct (is_empty (strip line)); [simpl; lia|].
  destruct (scan_patterns chapter_patterns (strip line)); simpl; lia.
Qed.

Lemma found_chapters_in page_texts m :
  In m (found_chapters page_texts)
  <-> exists txt line,
        In (fst m, txt) page_texts
        /\ In line (firstn 5 (split newline txt))
        /\ scan_patterns chapter_patterns (strip line) = Some (snd m).
Proof.
  unfold found_chapters. rewrite in_flat_map. split.
  - intros [[p txt] [Hkv H]]. cbn [fst snd] in H.
    rewrite page_marks_lines in H. apply in_flat_map in H.
    destruct H as [line [Hline H]]. apply line_marks_in in H.
    destruct H as [<- H]. now exists txt, line.
  - intros [txt [line [Hkv [Hline H]]]]. exists (fst m, txt).
    split; [exact Hkv|]. cbn [fst snd]. rewrite page_marks_lines.
    apply in_flat_map. exists line. split; [exact Hline|].
    now apply line_marks_in.
Qed.

Lemma page_marks_short page_num txt : length (page_marks page_num txt) <= 5.
Proof.
  rewrite page_marks_lines.
  assert (H : length (firstn 5 (split newline txt)) <= 5)
    by apply firstn_le_length.
  revert H. generalize (firstn 5 (split newline txt)) as ls.
  induction ls as [|l ls IH]; simpl; intro H; [lia|].
  rewrite length_app. pose proof (line_marks_short page_num l).
  assert (length (flat_map (line_marks page_num) ls) <= length ls).
  { clear. induction ls as [|l ls IH]; simpl; [lia|].
    rewrite length_app. pose proof (line_marks_short page_num l). lia. }
  lia.
Qed.

Lemma page_marks_page page_num txt m :
  In m (page_marks page_num txt) -> fst m = page_num.
Proof.
  rewrite page_marks_lines, in_flat_map. intros [l [_ H]].
  now apply line_marks_in in H.
Qed.

Lemma scan_patterns_some : forall patterns line t,
  scan_patterns patterns line = Some t ->
  exists pat m g,
    In pat patterns /\ re_search pat line = Some m /\ m_grp m = Some g
    /\ t = title_of_group g /\ title_ok t = true.
Proof.
  induction patterns as [|pat later IH]; intros line t; simpl; [discriminate|].
  assert (Hlater : scan_patterns later line = Some t ->
                   exists pat0 m g,
                     (pat = pat0 \/ In pat0 later)
                     /\ re_search pat0 line = Some m /\ m_grp m = Some g
                     /\ t = title_of_group g /\ title_ok t = true).
  { intro H. destruct (IH line t H) as [q [m [g [Hq Hrest]]]].
    exists q, m, g. split; [now right|exact Hrest]. }
  destruct (re_search pat line) as [m|] eqn:Em; [|exact Hlater].
  destruct (m_grp m) as [g|] eqn:Eg; [|exact Hlater].
  destruct (title_ok (title_of_group g)) eqn:Eok; [|exact Hlater].
  intros [= <-]. exists pat, m, g. repeat split; auto.
Qed.

Lemma lead_set_heading k c :
  cs_mem true (lead_set k) c = true -> heading_lead c = true.
Proof.
  destruct k as [|[|k]]; cbn [lead_set];
    destruct c as [[] [] [] [] [] [] [] []]; vm_compute;
    try reflexivity; discriminate.
Qed.

End PageFacts.

(** X1. Only the first five lines of a page are looked at: text added
    after the fifth line of a page changes neither the marks of the page
    nor the values [detect_chapters] can return. *)
Theorem only_first_five_lines
    (page_num : Z) (txt more : str) (others after : list (Z * str))
    (r : list mark) :
  5 <= length (split newline txt) ->
  page_marks page_num (txt ++ newline :: more) = page_marks page_num txt
  /\ (detect_chapters
        (others ++ (page_num, txt ++ newline :: more) :: after) r
      <-> detect_chapters (others ++ (page_num, txt) :: after) r).
Proof.
  intro H5.
  assert (E : page_marks page_num (txt ++ newline :: more)
              = page_marks page_num txt).
  { rewrite !page_marks_lines, split_app, firstn_app.
    replace (5 - length (split newline txt)) with 0 by lia.
    simpl. now rewrite app_nil_r. }
  split; [exact E|].
  unfold detect_chapters, found_chapters.
  rewrite !flat_map_app. cbn [flat_map fst snd]. rewrite E. reflexivity.
Qed.

Lemma only_first_five_lines_witness :
  5 <= length (split newline five_plain_lines)
  /\ page_marks 0 (five_plain_lines
                   ++ newline :: lit "Chapter 4. Fluid Dynamics and Pressure")
     = page_marks 0 five_plain_lines
  /\ page_marks 0 five_plain_lines = [].
Proof.
  assert (H : 5 <= length (split newline five_plain_lines))
    by (vm_compute; lia).
  split; [exact H|]. split; [|vm_compute; reflexivity].
  exact (proj1 (only_first_five_lines 0
                  _ (lit "Chapter 4. Fluid Dynamics and Pressure") [] [] []
                  H)).
Defined.

(** X2. A mark is returned exactly for the lines that yield one: the
    values of [detect_chapters] hold the mark [(p, t)] if and only if the
    mapping has an entry for [p] one of whose first five lines, stripped,
    is matched by a pattern with the accepted title [t]. *)
Theorem detect_chapters_marks
    (page_texts : list (Z * str)) (r : list mark) (p : Z) (t : str) :
  detect_chapters page_texts r ->
  (In (p, t) r
   <-> exists txt line,
         In (p, txt) page_texts
         /\ In line (firstn 5 (split newline txt))
         /\ scan_patterns chapter_patterns (strip line) = Some t).
Proof.
  intro H. apply detect_chapters_facts in H. destruct H as [_ [_ Hin]].
  rewrite Hin. apply (found_chapters_in page_texts (p, t)).
Qed.

Lemma detect_chapters_marks_witness :
  detect_chapters two_chapter_pages two_chapter_marks
  /\ In (2%Z, lit "2. Thermodynamics") two_chapter_marks
  /\ exists txt line,
       In (2%Z, txt) two_chapter_pages
       /\ In line (firstn 5 (split newline txt))
       /\ scan_patterns chapter_patterns (strip line)
          = Some (lit "2. Thermodynamics").
Proof.
  assert (H : detect_chapters two_chapter_pages two_chapter_marks)
    by (exists two_chapter_marks; split; vm_compute; reflexivity).
  assert (Hin : In (2%Z, lit "2. Thermodynamics") two_chapter_marks)
    by (right; now left).
  split; [exact H|]. split; [exact Hin|].
  exact (proj1 (detect_chapters_marks _ _ _ _ H) Hin).
Defined.

Lemma blank_pages_no_marks
    (page_texts : list (Z * str)) (r : list mark) :
  Forall (fun kv => Forall (fun c => is_space c = true) (snd kv)) page_texts ->
  detect_chapters page_texts r -> r = [].
Proof.
  intros Hblank H. apply detect_chapters_facts in H.
  destruct H as [_ [_ Hin]].
  destruct r as [|m r]; [reflexivity|]. exfalso.
  assert (Hm : In m (found_chapters page_texts)) by (apply Hin; now left).
  apply found_chapters_in in Hm.
  destruct Hm as [txt [line [Hkv [Hline Hscan]]]].
  rewrite Forall_forall in Hblank. specialize (Hblank _ Hkv). simpl in Hblank.
  apply (split_all _ newline) in Hblank. rewrite Forall_forall in Hblank.
  apply firstn_In in Hline. apply Hblank in Hline.
  apply strip_blank in Hline. rewrite Hline in Hscan.
  rewrite scan_patterns_empty_line in Hscan. discriminate.
Qed.

(** X3. A mapping without entries, or whose pages are all empty or
    whitespace, has one value: the empty sequence. *)
Theorem detect_chapters_blank_pages
    (page_texts : list (Z * str)) (r : list mark) :
  Forall (fun kv => Forall (fun c => is_space c = true) (snd kv)) page_texts ->
  detect_chapters page_texts r -> r = [].
Proof. apply blank_pages_no_marks. Qed.

Lemma detect_chapters_blank_pages_witness :
  Forall (fun kv => Forall (fun c => is_space c = true) (snd kv))
         [(0%Z, []); (1%Z, [space; space; newline; space])]
  /\ detect_chapters [(0%Z, []); (1%Z, [space; space; newline; space])] []
  /\ @nil mark = [].
Proof.
  assert (H1 : Forall (fun kv => Forall (fun c => is_space c = true) (snd kv))
                 [(0%Z, []); (1%Z, [space; space; newline; space])])
    by (repeat constructor).
  assert (H2 : detect_chapters
                 [(0%Z, []); (1%Z, [space; space; newline; space])] [])
    by (exists []; split; vm_compute; reflexivity).
  split; [exact H1|]. split; [exact H2|].
  exact (detect_chapters_blank_pages _ _ H1 H2).
Defined.

(** ** Chapter Detector: how many marks, and what titles *)

Section MarkFacts.

Lemma found_chapters_length page_texts :
  length (found_chapters page_texts) <= 5 * length page_texts.
Proof.
  unfold found_chapters.
  induction page_texts as [|kv pt IH]; simpl; [lia|].
  rewrite length_app. pose proof (page_marks_short (fst kv) (snd kv)). lia.
Qed.

Lemma found_chapters_keys page_texts m :
  In m (found_chapters page_texts) -> In (fst m) (map fst page_texts).
Proof.
  intro H. apply found_chapters_in in H. destruct H as [txt [_ [H _]]].
  now apply (in_map fst) in H.
Qed.

Lemma filter_none {A} (f : A -> bool) l :
  (forall x, In x l -> f x = false) -> filter f l = [].
Proof.
  induction l as [|x l IH]; intro H; simpl; [reflexivity|].
  rewrite (H x) by now left. apply IH. intros y Hy. apply H. now right.
Qed.

Lemma found_on_page page_texts p :
  NoDup (map fst page_texts) ->
  length (filter (fun m => (fst m =? p)%Z) (found_chapters page_texts)) <= 5.
Proof.
  unfold found_chapters.
  induction page_texts as [|[k txt] pt IH]; intro Hk;
    cbn [flat_map fst snd map]; [simpl; lia|].
  cbn [map fst] in Hk. inversion Hk as [|? ? Hnotin Hk']; subst.
  rewrite filter_app, length_app.
  destruct (Z.eqb_spec k p) as [->|Hne].
  - rewrite (filter_none _ (flat_map _ pt)).
    + cbn [length]. rewrite Nat.add_0_r.
      etransitivity; [apply filter_length_le|apply page_marks_short].
    + intros m Hm. apply Z.eqb_neq. intros <-.
      apply Hnotin. now apply (found_chapters_keys pt m).
  - rewrite (filter_none _ (page_marks k txt)).
    + cbn [length]. now apply IH.
    + intros m Hm. apply page_marks_page in Hm. apply Z.eqb_neq. congruence.
Qed.

Lemma tidy_from_spaces : forall t b,
  tidy_from b t = true ->
  Forall (fun c => is_space c = true -> c = space) t.
Proof.
  induction t as [|c t IH]; intros b H; [constructor|].
  cbn [tidy_from] in H. destruct (is_space c) eqn:Hc.
  - apply andb_true_iff in H. destruct H as [H Ht].
    apply andb_true_iff in H. destruct H as [He _].
    apply Ascii.eqb_eq in He. constructor; [auto|now apply (IH true)].
  - constructor; [congruence|now apply (IH false)].
Qed.

Lemma tidy_from_single : forall t b pre post,
  tidy_from b t = true -> t <> pre ++ space :: space :: post.
Proof.
  induction t as [|c t IH]; intros b pre post H E.
  - destruct pre; discriminate.
  - cbn [tidy_from] in H. destruct pre as [|x pre]; simpl in E.
    + inversion E; subst. change (is_space space) with true in H. cbv iota in H.
      apply andb_true_iff in H. destruct H as [_ H].
      cbn [tidy_from] in H. change (is_space space) with true in H.
      cbv iota in H. rewrite andb_false_r in H. discriminate.
    + inversion E; subst. destruct (is_space x).
      * apply andb_true_iff in H. destruct H as [_ H].
        now apply (IH true pre post H).
      * now apply (IH false pre post H).
Qed.

Lemma tidy_ends t :
  tidy t = true ->
  exists c r x r',
    t = c :: r /\ is_space c = false
    /\ rev t = x :: r' /\ is_space x = false.
Proof.
  unfold tidy. intro H.
  destruct t as [|c r]; [discriminate|].
  cbn [tidy_from] in H. destruct (is_space c) eqn:Hc;
    [rewrite andb_false_r in H; discriminate|].
  assert (Hlast : forall t b, tidy_from b t = true ->
                    forall c0, is_space c0 = false ->
                    exists x r', rev (c0 :: t) = x :: r'
                                 /\ is_space x = false).
  { clear. induction t as [|c t IH]; intros b H c0 Hc0.
    - exists c0, []. auto.
    - cbn [tidy_from] in H. destruct (is_space c) eqn:Hc.
      + apply andb_true_iff in H. destruct H as [_ H].
        destruct t as [|c' t]; [discriminate|].
        cbn [tidy_from] in H. destruct (is_space c') eqn:Hc';
          [rewrite andb_false_r in H; discriminate|].
        destruct (IH true) with (c0 := c') as [x [r' [E Hx]]].
        * cbn [tidy_from]. now rewrite Hc'.
        * exact Hc'.
        * destruct (IH true) with (c0 := c0) as [y [r'' [E' Hy]]];
            [cbn [tidy_from]; now rewrite Hc'|exact Hc0|].
          change (rev (c0 :: c :: c' :: t))
            with ((rev (c' :: t) ++ [c]) ++ [c0]).
          simpl in E. simpl. destruct (rev t ++ [c']) as [|z zs] eqn:Ez.
          -- destruct (rev t); discriminate.
          -- exists z, ((zs ++ [c]) ++ [c0]). split; [reflexivity|].
             simpl in E. destruct (rev t) as [|u us]; simpl in *;
               inversion Ez; subst; inversion E; subst; exact Hx.
      + destruct (IH false H c Hc) as [x [r' [E Hx]]].
        change (rev (c0 :: c :: t)) with (rev (c :: t) ++ [c0]).
        rewrite E. exists x, (r' ++ [c0]). auto. }
  destruct (Hlast r false H c Hc) as [x [r' [E Hx]]].
  now exists c, r, x, r'.
Qed.

End MarkFacts.

(** X4. No page yields more than five marks: a value of
    [detect_chapters] has at most five marks per entry of the mapping,
    and at most five marks of any one page index when the keys of the
    mapping are distinct. *)
Theorem detect_chapters_at_most_five
    (page_texts : list (Z * str)) (r : list mark) (p : Z) :
  detect_chapters page_texts r ->
  length r <= 5 * length page_texts
  /\ (NoDup (map fst page_texts) ->
      length (filter (fun m => (fst m =? p)%Z) r) <= 5).
Proof.
  intro H. apply detect_chapters_facts in H. destruct H as [_ [Hnd Hin]].
  split.
  - etransitivity; [|apply found_chapters_length].
    apply NoDup_incl_length; [exact Hnd|]. intros m Hm. now apply Hin.
  - intro Hk. etransitivity; [|apply (found_on_page page_texts p Hk)].
    apply NoDup_incl_length; [now apply NoDup_filter|].
    intros m Hm. apply filter_In in Hm. apply filter_In.
    destruct Hm as [Hm Hp]. split; [now apply Hin|exact Hp].
Qed.

Lemma detect_chapters_at_most_five_witness :
  detect_chapters two_topics_first
    [(0%Z, lit "Topic I: Mass and Energy");
     (0%Z, lit "Topic II: Heat Transfer Basics");
     (1%Z, lit "2. Thermodynamics")]
  /\ NoDup (map fst two_topics_first)
  /\ 3 <= 5 * 2
  /\ length (filter (fun m => (fst m =? 0)%Z)
               [(0%Z, lit "Topic I: Mass and Energy");
                (0%Z, lit "Topic II: Heat Transfer Basics");
                (1%Z, lit "2. Thermodynamics")]) <= 5.
Proof.
  assert (H : detect_chapters two_topics_first
                [(0%Z, lit "Topic I: Mass and Energy");
                 (0%Z, lit "Topic II: Heat Transfer Basics");
                 (1%Z, lit "2. Thermodynamics")]).
  { exists [(0%Z, lit "Topic I: Mass and Energy");
            (0%Z, lit "Topic II: Heat Transfer Basics");
            (1%Z, lit "2. Thermodynamics")].
    split; vm_compute; reflexivity. }
  assert (Hk : NoDup (map fst two_topics_first))
    by (repeat constructor; simpl; intuition discriminate).
  split; [exact H|]. split; [exact Hk|].
  destruct (detect_chapters_at_most_five _ _ 0%Z H) as [L P].
  split; [exact L|exact (P Hk)].
Defined.

(** X5. Every title [detect_chapters] returns is tidy: it begins and
    ends with a character that is not whitespace, its only whitespace
    characters are U+0020 (no tab, no newline), and no two of them are
    adjacent. *)
Theorem detected_titles_tidy
    (page_texts : list (Z * str)) (r : list mark) (m : mark) :
  detect_chapters page_texts r -> In m r ->
  tidy (snd m) = true
  /\ (exists c rest x rest',
        snd m = c :: rest /\ is_space c = false
        /\ rev (snd m) = x :: rest' /\ is_space x = false)
  /\ Forall (fun c => is_space c = true -> c = space) (snd m)
  /\ forall pre post, snd m <> pre ++ space :: space :: post.
Proof.
  intros H Hm. apply detect_chapters_facts in H. destruct H as [_ [_ Hin]].
  apply Hin, found_chapters_in in Hm.
  destruct Hm as [txt [line [_ [_ Hscan]]]].
  apply scan_patterns_some in Hscan.
  destruct Hscan as [pat [ms [g [_ [_ [_ [Et Hok]]]]]]].
  assert (Ht : tidy (snd m) = true).
  { rewrite Et. apply title_of_group_tidy. rewrite <- Et.
    apply title_ok_spec in Hok. destruct Hok as [Hlen _].
    destruct (snd m); [simpl in Hlen; lia|discriminate]. }
  split; [exact Ht|]. split; [now apply tidy_ends|].
  split; [now apply (tidy_from_spaces _ true)|].
  intros pre post. now apply (tidy_from_single _ true).
Qed.

Lemma detected_titles_tidy_witness :
  detect_chapters
    [(7%Z, lit "  Chapter 4.   Fluid" ++ chr 9 :: lit "Dynamics  ")]
    [(7%Z, lit "4. Fluid Dynamics")]
  /\ In (7%Z, lit "4. Fluid Dynamics") [(7%Z, lit "4. Fluid Dynamics")]
  /\ tidy (lit "4. Fluid Dynamics") = true.
Proof.
  assert (H : detect_chapters
                [(7%Z, lit "  Chapter 4.   Fluid" ++ chr 9
                       :: lit "Dynamics  ")]
                [(7%Z, lit "4. Fluid Dynamics")])
    by (exists [(7%Z, lit "4. Fluid Dynamics")];
        split; vm_compute; reflexivity).
  assert (Hin : In (7%Z, lit "4. Fluid Dynamics")
                   [(7%Z, lit "4. Fluid Dynamics")]) by now left.
  split; [exact H|]. split; [exact Hin|].
  exact (proj1 (detected_titles_tidy _ _ _ H Hin)).
Defined.

(** X6. A line yields a mark only if, once stripped, it begins with T,
    t, a decimal digit, C or c: a line that begins with any other
    character yields no mark, whatever follows. *)
Theorem other_lines_yield_no_mark
    (page_num : Z) (line : str) (c : ascii) (rest : str) :
  strip line = c :: rest -> heading_lead c = false ->
  line_marks page_num line = [].
Proof.
  intros E Hlead.
  destruct (line_marks page_num line) as [|m ms] eqn:Em; [reflexivity|].
  exfalso.
  assert (Hm : In m (line_marks page_num line)) by (rewrite Em; now left).
  apply line_marks_in in Hm. destruct Hm as [_ Hscan].
  apply scan_patterns_some in Hscan.
  destruct Hscan as [pat [ms0 [g [Hpat [Hre _]]]]].
  apply In_nth_error in Hpat. destruct Hpat as [k Hk].
  destruct (pattern_lead k pat _ ms0 Hk Hre) as [c' [rest' [El Hc']]].
  apply strip_ends in E as Hends. destruct Hends as [Hc _].
  rewrite E, (lstrip_solid c rest Hc) in El. inversion El; subst c' rest'.
  apply lead_set_heading in Hc'. congruence.
Qed.

Lemma other_lines_yield_no_mark_witness :
  strip (lit " Section 4. Fluid Dynamics and Pressure ")
  = "S"%char :: lit "ection 4. Fluid Dynamics and Pressure"
  /\ heading_lead "S"%char = false
  /\ line_marks 3 (lit " Section 4. Fluid Dynamics and Pressure ") = [].
Proof.
  assert (H1 : strip (lit " Section 4. Fluid Dynamics and Pressure ")
               = "S"%char :: lit "ection 4. Fluid Dynamics and Pressure")
    by (vm_compute; reflexivity).
  assert (H2 : heading_lead "S"%char = false) by reflexivity.
  split; [exact H1|]. split; [exact H2|].
  exact (other_lines_yield_no_mark 3 _ _ _ H1 H2).
Defined.

(** ** Filename Sanitizer: more *)

Section FilenameFacts.

Lemma slug_char_kept c :
  slug_char c = true ->
  cs_mem false problematic c = false /\ is_space c = false
  /\ c <> "/"%char.
Proof.
  destruct c as [[] [] [] [] [] [] [] []]; vm_compute;
    intro H; try discriminate; repeat split; congruence.
Qed.

Lemma slug_of_clean t :
  Forall (fun c => slug_char c = true) t -> length t <= 50 -> slug t = t.
Proof.
  intros Hc Hlen. unfold slug.
  assert (Hs : Forall (fun c => is_space c = false) t).
  { eapply Forall_impl; [|exact Hc]. intros c H. now apply slug_char_kept. }
  assert (Hd : delete_chars problematic t = t).
  { unfold delete_chars. clear Hlen Hs.
    induction Hc as [|c t H Hc IH]; simpl; [reflexivity|].
    apply slug_char_kept in H. destruct H as [-> _]. simpl. now rewrite IH. }
  rewrite Hd, strip_solid by exact Hs.
  unfold sub_ws. rewrite sub_ws_from_solid by exact Hs.
  apply firstn_all2. exact Hlen.
Qed.

Lemma decimal_no_slash n : Forall (fun c => c <> "/"%char) (decimal n).
Proof.
  assert (Hu' : forall d, Forall (fun c => c <> "/"%char)
                                 (lit (NilZero.string_of_uint d))).
  { intro d.
    assert (E : NilZero.string_of_uint d
                = NilEmpty.string_of_uint
                    match d with Decimal.Nil => Decimal.zero | _ => d end)
      by (destruct d; reflexivity).
    rewrite E. eapply Forall_impl; [|apply uint_digits].
    intros c Hc Ec. subst c. discriminate. }
  unfold decimal. destruct (Z.to_int n) as [d|d]; simpl.
  - apply Hu'.
  - constructor; [discriminate|apply Hu'].
Qed.

Lemma filename_no_slash t n :
  Forall (fun c => c <> "/"%char) (create_chapter_filename t n).
Proof.
  assert (Hl : forall s : string,
             Forall (fun c => ascii_eqb c "/"%char = false) (lit s) ->
             Forall (fun c => c <> "/"%char) (lit s)).
  { intros s H. eapply Forall_impl; [|exact H]. intros c Hc E. subst c.
    discriminate. }
  unfold create_chapter_filename.
  apply Forall_app. split; [apply Hl; repeat constructor|].
  apply Forall_app. split.
  { unfold format_02d. destruct (_ <? 2).
    - constructor; [discriminate|apply decimal_no_slash].
    - apply decimal_no_slash. }
  apply Forall_app. split; [apply Hl; repeat constructor|].
  apply Forall_app. split; [|apply Hl; repeat constructor].
  eapply Forall_impl; [|apply slug_chars]. intros c [H _].
  now apply slug_char_kept in H.
Qed.

Lemma basename_from_plain : forall b acc,
  Forall (fun c => c <> "/"%char) b -> basename_from acc b = acc ++ b.
Proof.
  induction b as [|c b IH]; intros acc H; simpl.
  - now rewrite app_nil_r.
  - inversion H as [|? ? Hc Hb]; subst. unfold ascii_eqb.
    destruct (Ascii.eqb_spec c "/"%char); [contradiction|].
    rewrite IH by exact Hb. now rewrite <- app_assoc.
Qed.

Lemma basename_from_slash : forall a acc b,
  basename_from acc (a ++ "/"%char :: b) = basename_from [] b.
Proof.
  induction a as [|c a IH]; intros acc b; simpl.
  - reflexivity.
  - destruct (ascii_eqb c "/"%char); apply IH.
Qed.

Lemma join_prefix_shape dir :
  join_prefix dir = [] \/ exists a, join_prefix dir = a ++ ["/"%char].
Proof.
  unfold join_prefix. destruct (rev dir) as [|c r] eqn:E; [now left|].
  right. destruct (Ascii.eqb_spec c "/"%char) as [->|Hc].
  - exists (rev r). apply (f_equal (@rev ascii)) in E.
    rewrite rev_involutive in E. simpl in E. exact E.
  - exists dir.
    destruct c as [[] [] [] [] [] [] [] []]; try reflexivity.
    now destruct Hc.
Qed.

Lemma basename_of_joined dir t n :
  basename (path_join dir (create_chapter_filename t n))
  = create_chapter_filename t n.
Proof.
  rewrite path_join_filename. unfold basename.
  destruct (join_prefix_shape dir) as [->|[a ->]].
  - simpl app. now rewrite basename_from_plain by apply filename_no_slash.
  - rewrite <- app_assoc. simpl app. rewrite basename_from_slash.
    now rewrite basename_from_plain by apply filename_no_slash.
Qed.

End FilenameFacts.

(** X7. A title that is already a slug is kept as it is: the slug of a
    title of at most 50 characters, all alphanumeric, underscore or
    hyphen, is the title; so the slug of a slug is the slug itself. *)
Theorem slug_fixed_on_slugs (chapter_title : str) :
  (Forall (fun c => slug_char c = true) chapter_title ->
   length chapter_title <= 50 -> slug chapter_title = chapter_title)
  /\ slug (slug chapter_title) = slug chapter_title.
Proof.
  split; [apply slug_of_clean|].
  apply slug_of_clean; [|apply slug_length].
  eapply Forall_impl; [|apply slug_chars]. now intros c [H _].
Qed.

Lemma slug_fixed_on_slugs_witness :
  Forall (fun c => slug_char c = true) (lit "Heat-Transfer_2")
  /\ length (lit "Heat-Transfer_2") <= 50
  /\ slug (lit "Heat-Transfer_2") = lit "Heat-Transfer_2".
Proof.
  assert (H1 : Forall (fun c => slug_char c = true) (lit "Heat-Transfer_2"))
    by (repeat constructor).
  assert (H2 : length (lit "Heat-Transfer_2") <= 50) by (simpl; lia).
  split; [exact H1|]. split; [exact H2|].
  exact (proj1 (slug_fixed_on_slugs _) H1 H2).
Defined.

(** X8. Filenames of different ordinals never coincide, whatever the
    titles: from a filename the ordinal (not negative) can be read back. *)
Theorem filename_determines_ordinal
    (t t' : str) (n n' : Z) :
  (0 <= n)%Z -> (0 <= n')%Z ->
  create_chapter_filename t n = create_chapter_filename t' n' -> n = n'.
Proof. apply create_chapter_filename_ordinal. Qed.

Lemma filename_determines_ordinal_witness :
  (0 <= 3)%Z /\ (0 <= 3)%Z
  /\ create_chapter_filename (lit "a b") 3
     = create_chapter_filename (lit "a  b!") 3
  /\ 3%Z = 3%Z.
Proof.
  assert (H : create_chapter_filename (lit "a b") 3
              = create_chapter_filename (lit "a  b!") 3)
    by (vm_compute; reflexivity).
  assert (H0 : (0 <= 3)%Z) by lia.
  split; [exact H0|]. split; [exact H0|]. split; [exact H|].
  exact (filename_determines_ordinal _ _ _ _ H0 H0 H).
Defined.

(** X9. A filename holds no path separator and no whitespace: joined to
    any output directory it stays the last component of the path, which
    [os.path.basename] gives back. *)
Theorem filename_is_basename (dir chapter_title : str) (chapter_num : Z) :
  Forall (fun c => c <> "/"%char)
         (create_chapter_filename chapter_title chapter_num)
  /\ path_join dir (create_chapter_filename chapter_title chapter_num)
     = join_prefix dir ++ create_chapter_filename chapter_title chapter_num
  /\ basename (path_join dir
                 (create_chapter_filename chapter_title chapter_num))
     = create_chapter_filename chapter_title chapter_num.
Proof.
  split; [apply filename_no_slash|].
  split; [apply path_join_filename|apply basename_of_joined].
Qed.

(** ** PDF Splitter: marks of any page index *)

Section SplitAnyMark.

Open Scope Z_scope.

Variables (total : Z) (dir : str) (chapters : list mark).

Hypothesis total_nonneg : 0 <= total.

Lemma get_page_wrap a :
  - total <= a < total -> get_page total a = Some (wrap_page total a).
Proof.
  intro H. unfold get_page, wrap_page.
  destruct (Z.ltb_spec a 0) as [Ha|Ha]; cbv beta iota zeta.
  - destruct (Z.ltb_spec (total + a) 0); [lia|].
    destruct (Z.leb_spec total (total + a)); [lia|]. reflexivity.
  - destruct (Z.ltb_spec a 0); [lia|].
    destruct (Z.leb_spec total a); [lia|]. reflexivity.
Qed.

Lemma get_page_before a : a < - total -> get_page total a = None.
Proof.
  intro H. unfold get_page.
  destruct (Z.ltb_spec a 0) as [Ha|Ha]; cbv beta iota zeta; [|lia].
  destruct (Z.ltb_spec (total + a) 0); [reflexivity|lia].
Qed.

(** The inner loop on a range that starts inside the document, counted
    from either end. *)
Lemma add_pages_wrap b : forall n a,
  Z.to_nat (b - a) = n -> - total <= a ->
  add_pages total (range a b)
  = Some (map (wrap_page total) (range a (Z.min b total))).
Proof.
  induction n as [|n IH]; intros a Hn Ha.
  - rewrite (range_nil a b) by lia. rewrite range_nil by lia. reflexivity.
  - rewrite (range_cons a b) by lia. cbn [add_pages].
    destruct (Z.ltb_spec a total) as [Hlt|Hge].
    + rewrite get_page_wrap, IH by lia.
      now rewrite (range_cons a (Z.min b total)) by lia.
    + rewrite IH by lia. f_equal.
      rewrite !range_nil by lia. reflexivity.
Qed.

Lemma add_pages_raise a b :
  a < - total -> a < b -> add_pages total (range a b) = None.
Proof.
  intros Ha Hb. rewrite (range_cons a b) by lia. cbn [add_pages].
  destruct (Z.ltb_spec a total); [|lia].
  now rewrite get_page_before.
Qed.

Lemma offends_dec i m :
  {offends total chapters i m} + {~ offends total chapters i m}.
Proof.
  unfold offends.
  destruct (Z_lt_dec (fst m) (- total));
    destruct (Z_le_dec (fst m) (end_page total chapters i));
    [left; lia|right; lia..].
Qed.

Lemma write_chapter_copied i m :
  ~ offends total chapters i m ->
  write_chapter total dir chapters i m
  = Some (copied_file total dir chapters i m).
Proof.
  intro H. unfold write_chapter, copied_file, offends in *.
  destruct (Z_le_dec (- total) (fst m)) as [Hm|Hm].
  - now rewrite (add_pages_wrap _ _ _ eq_refl Hm).
  - rewrite !range_nil by lia. reflexivity.
Qed.

Lemma write_chapter_raises i m :
  offends total chapters i m -> write_chapter total dir chapters i m = None.
Proof.
  intros [H1 H2]. unfold write_chapter. now rewrite add_pages_raise by lia.
Qed.

Lemma split_loop_copied : forall todo k,
  (forall j m, nth_error todo j = Some m ->
               ~ offends total chapters (k + j) m) ->
  split_loop total dir chapters k todo
  = (copied_from total dir chapters k todo, true).
Proof.
  induction todo as [|m todo IH]; intros k H; simpl; [reflexivity|].
  rewrite write_chapter_copied.
  - rewrite IH; [reflexivity|]. intros j m' Hj.
    replace (S k + j)%nat with (k + S j)%nat by lia. now apply H.
  - specialize (H 0%nat m eq_refl). now rewrite Nat.add_0_r in H.
Qed.

Lemma split_loop_raises : forall pre k m post,
  (forall j m', nth_error pre j = Some m' ->
                ~ offends total chapters (k + j) m') ->
  offends total chapters (k + length pre) m ->
  split_loop total dir chapters k (pre ++ m :: post)
  = (copied_from total dir chapters k pre, false).
Proof.
  induction pre as [|m0 pre IH]; intros k m post Hpre Hm; simpl.
  - rewrite Nat.add_0_r in Hm. now rewrite write_chapter_raises.
  - rewrite write_chapter_copied.
    + rewrite (IH (S k) m post); [reflexivity| |].
      * intros j m' Hj. replace (S k + j)%nat with (k + S j)%nat by lia.
        now apply Hpre.
      * simpl in Hm.
        replace (S k + length pre)%nat with (k + S (length pre))%nat by lia.
        exact Hm.
    + specialize (Hpre 0%nat m0 eq_refl). now rewrite Nat.add_0_r in Hpre.
Qed.

(** Either no mark offends, or there is a first one that does. *)
Lemma first_offender : forall todo k,
  (forall j m, nth_error todo j = Some m ->
               ~ offends total chapters (k + j) m)
  \/ exists pre m post,
       todo = pre ++ m :: post
       /\ (forall j m', nth_error pre j = Some m' ->
                        ~ offends total chapters (k + j) m')
       /\ offends total chapters (k + length pre) m.
Proof.
  induction todo as [|a todo IH]; intro k.
  - left. intros [|j] m H; discriminate.
  - destruct (offends_dec k a) as [Ha|Ha].
    + right. exists [], a, todo. split; [reflexivity|]. split.
      * intros [|j] m H; discriminate.
      * simpl. now rewrite Nat.add_0_r.
    + destruct (IH (S k)) as [H|[pre [m [post [E [Hpre Hm]]]]]].
      * left. intros [|j] m Hj; simpl in Hj.
        -- inversion Hj; subst. now rewrite Nat.add_0_r.
        -- replace (k + S j)%nat with (S k + j)%nat by lia. now apply H.
      * right. exists (a :: pre), m, post. split; [now rewrite E|]. split.
        -- intros [|j] m' Hj; simpl in Hj.
           ++ inversion Hj; subst. now rewrite Nat.add_0_r.
           ++ replace (k + S j)%nat with (S k + j)%nat by lia.
              now apply Hpre.
        -- simpl.
           replace (k + S (length pre))%nat
             with (S k + length pre)%nat by lia.
           exact Hm.
Qed.

Lemma copied_from_length : forall todo k,
  length (copied_from total dir chapters k todo) = length todo.
Proof. induction todo as [|m todo IH]; intro k; simpl; auto. Qed.

Lemma copied_from_nth : forall todo k i m,
  nth_error todo i = Some m ->
  nth_error (copied_from total dir chapters k todo) i
  = Some (copied_file total dir chapters (k + i) m).
Proof.
  induction todo as [|m0 todo IH]; intros k i m H.
  - destruct i; discriminate.
  - destruct i as [|i]; simpl in *.
    + inversion H; subst. now rewrite Nat.add_0_r.
    + rewrite (IH (S k) i m H). do 2 f_equal. lia.
Qed.

Lemma copied_pages_inside i m :
  ~ offends total chapters i m ->
  Forall (fun p => 0 <= p < total)
         (pages (copied_file total dir chapters i m)).
Proof.
  intro Hno. apply Forall_forall. intros p Hp.
  unfold copied_file in Hp. cbn [pages] in Hp.
  apply in_map_iff in Hp. destruct Hp as [q [<- Hq]].
  apply in_range in Hq. unfold offends in Hno. unfold wrap_page.
  destruct (Z.ltb_spec q 0); lia.
Qed.

End SplitAnyMark.

(** X10. Start pages before page 0 are counted from the end of the
    document.  When no mark has a start page before [- total_pages] with
    a range that is not empty, [split_pdf_by_chapters] returns normally
    with one file per mark; the file of a mark holds the pages of
    [range(start_page, min(end_page + 1, total_pages))], an index below 0
    standing for the page that far from the end; every page it holds is a
    page of the document. *)
Theorem split_without_offence
    (total_pages : nat) (output_dir : str) (chapters : list mark) :
  (forall i m, nth_error chapters i = Some m ->
               ~ offends (Z.of_nat total_pages) chapters i m) ->
  exists files,
    split_pdf_by_chapters total_pages output_dir chapters
    = (files, Some (map path files))
    /\ length files = length chapters
    /\ forall i m, nth_error chapters i = Some m ->
         exists f,
           nth_error files i = Some f
           /\ path f = path_join output_dir
                         (create_chapter_filename (snd m) (Z.of_nat i + 1))
           /\ pages f
              = map (wrap_page (Z.of_nat total_pages))
                    (range (fst m)
                       (Z.min (end_page (Z.of_nat total_pages) chapters i + 1)
                              (Z.of_nat total_pages)))
           /\ Forall (fun p => (0 <= p < Z.of_nat total_pages)%Z) (pages f).
Proof.
  intro H. exists (copied_from (Z.of_nat total_pages) output_dir chapters 0
                               chapters).
  split.
  - unfold split_pdf_by_chapters.
    now rewrite split_loop_copied by (try lia; exact H).
  - split; [apply copied_from_length|].
    intros i m Hi.
    exists (copied_file (Z.of_nat total_pages) output_dir chapters i m).
    split; [exact (copied_from_nth _ _ _ _ 0 i m Hi)|].
    split; [reflexivity|]. split; [reflexivity|].
    apply copied_pages_inside; [lia|now apply H].
Qed.

Lemma split_without_offence_witness :
  exists files,
    split_pdf_by_chapters 3 (lit "out")
      [((-2)%Z, lit "Part One"); (1%Z, lit "Part Two")]
    = (files, Some (map path files))
    /\ map pages files = [[1; 2; 0]%Z; [1; 2]%Z].
Proof.
  assert (H : forall i m,
             nth_error [((-2)%Z, lit "Part One"); (1%Z, lit "Part Two")] i
             = Some m ->
             ~ offends (Z.of_nat 3)
                 [((-2)%Z, lit "Part One"); (1%Z, lit "Part Two")] i m).
  { intros [|[|[|i]]] m E; try discriminate; inversion E; subst;
      unfold offends; simpl; lia. }
  destruct (split_without_offence 3 (lit "out") _ H) as [files [E _]].
  exists files. split; [exact E|].
  vm_compute in E. inversion E. reflexivity.
Defined.

(** X11. When a mark has a start page before [- total_pages] and a range
    that is not empty, and no mark before it has, [split_pdf_by_chapters]
    raises at that mark: the files of the marks before it are written, no
    file is written for it or for a later mark, and no list is
    returned. *)
Theorem split_raises_at_first_offence
    (total_pages : nat) (output_dir : str) (pre : list mark) (m : mark)
    (post : list mark) :
  (forall j m', nth_error pre j = Some m' ->
                ~ offends (Z.of_nat total_pages) (pre ++ m :: post) j m') ->
  offends (Z.of_nat total_pages) (pre ++ m :: post) (length pre) m ->
  exists files,
    split_pdf_by_chapters total_pages output_dir (pre ++ m :: post)
    = (files, None)
    /\ length files = length pre
    /\ forall j m', nth_error pre j = Some m' ->
         exists f,
           nth_error files j = Some f
           /\ path f = path_join output_dir
                         (create_chapter_filename (snd m') (Z.of_nat j + 1)).
Proof.
  intros Hpre Hm.
  exists (copied_from (Z.of_nat total_pages) output_dir (pre ++ m :: post) 0
                      pre).
  split.
  - unfold split_pdf_by_chapters.
    now rewrite split_loop_raises by (try lia; assumption).
  - split; [apply copied_from_length|].
    intros j m' Hj.
    exists (copied_file (Z.of_nat total_pages) output_dir (pre ++ m :: post)
                        j m').
    split; [exact (copied_from_nth _ _ _ _ 0 j m' Hj)|reflexivity].
Qed.

Lemma split_raises_at_first_offence_witness :
  exists files,
    split_pdf_by_chapters 3 (lit "out")
      ([(0%Z, lit "A")] ++ ((-5)%Z, lit "B") :: [(2%Z, lit "C")])
    = (files, None)
    /\ map pages files = [[]].
Proof.
  assert (Hpre : forall j m',
             nth_error [(0%Z, lit "A")] j = Some m' ->
             ~ offends (Z.of_nat 3)
                 ([(0%Z, lit "A")] ++ ((-5)%Z, lit "B") :: [(2%Z, lit "C")])
                 j m').
  { intros [|[|j]] m' E; try discriminate; inversion E; subst;
      unfold offends; simpl; lia. }
  assert (Hm : offends (Z.of_nat 3)
                 ([(0%Z, lit "A")] ++ ((-5)%Z, lit "B") :: [(2%Z, lit "C")])
                 (length [(0%Z, lit "A")]) ((-5)%Z, lit "B"))
    by (unfold offends; split; vm_compute; [reflexivity|discriminate]).
  destruct (split_raises_at_first_offence 3 (lit "out") _ _ _ Hpre Hm)
    as [files [E _]].
  exists files. split; [exact E|].
  vm_compute in E. inversion E. reflexivity.
Defined.

(** X12. [split_pdf_by_chapters] raises exactly when some mark has a
    start page before [- total_pages] and a range that is not empty: no
    other list of marks makes the page loop fail. *)
Theorem split_raises_iff
    (total_pages : nat) (output_dir : str) (chapters : list mark) :
  snd (split_pdf_by_chapters total_pages output_dir chapters) = None
  <-> exists i m, nth_error chapters i = Some m
                  /\ offends (Z.of_nat total_pages) chapters i m.
Proof.
  assert (Ht : (0 <= Z.of_nat total_pages)%Z) by lia.
  unfold split_pdf_by_chapters.
  destruct (first_offender (Z.of_nat total_pages) chapters chapters 0)
    as [H|[pre [m [post [E [Hpre Hm]]]]]].
  - rewrite split_loop_copied by (try lia; exact H). simpl. split.
    + discriminate.
    + intros [i [m [Hi Ho]]]. now destruct (H i m Hi).
  - rewrite E at 2.
    rewrite split_loop_raises by (try lia; assumption). simpl.
    split; [|reflexivity]. intros _. exists (length pre), m.
    split; [|exact Hm]. rewrite E, nth_error_app2 by lia.
    now rewrite Nat.sub_diag.
Qed.

(** ** The pipeline: extraction, detection and splitting together *)

Section PipelineFacts.

Open Scope Z_scope.

Lemma extract_numbered reader :
  extract_text_from_pdf reader = numbered 0 reader.
Proof.
  unfold extract_text_from_pdf.
  rewrite extract_loop_numbered by constructor. reflexivity.
Qed.

Lemma numbered_length k ps : length (numbered k ps) = length ps.
Proof.
  unfold numbered.
  rewrite length_combine, !length_map, length_seq. lia.
Qed.

Lemma numbered_in : forall ps k p txt,
  In (p, txt) (numbered k ps) ->
  exists i page,
    p = Z.of_nat (k + i) /\ nth_error ps i = Some page
    /\ txt = text_of page.
Proof.
  induction ps as [|p0 ps IH]; intros k p txt H.
  - destruct H.
  - unfold numbered in H. cbn [length seq map combine] in H.
    destruct H as [E|H].
    + inversion E; subst. exists 0%nat, p0.
      rewrite Nat.add_0_r. auto.
    + apply (IH (S k)) in H. destruct H as [i [page [Hp [Hi Ht]]]].
      exists (S i), page. split; [rewrite Hp; f_equal; lia|]. auto.
Qed.

(** A mark found on the texts of a document sits on a page whose
    extraction gave a text, and comes from one of its first five lines. *)
Lemma found_in_document reader m :
  In m (found_chapters (extract_text_from_pdf reader)) ->
  exists i t line,
    fst m = Z.of_nat i /\ nth_error reader i = Some (Text t)
    /\ In line (firstn 5 (split newline t))
    /\ scan_patterns chapter_patterns (strip line) = Some (snd m).
Proof.
  rewrite extract_numbered, found_chapters_in.
  intros [txt [line [Hkv [Hline Hscan]]]].
  apply numbered_in in Hkv. destruct Hkv as [i [page [Hp [Hi ->]]]].
  destruct page as [t|].
  - exists i, t, line. auto.
  - simpl in Hline. destruct Hline as [<-|[]].
    change (strip []) with (@nil ascii) in Hscan.
    rewrite scan_patterns_empty_line in Hscan. discriminate.
Qed.

Lemma detected_in_document reader r :
  detect_chapters (extract_text_from_pdf reader) r ->
  Forall (fun m => 0 <= fst m < Z.of_nat (length reader)) r.
Proof.
  intro H. apply detect_chapters_facts in H. destruct H as [_ [_ Hin]].
  apply Forall_forall. intros m Hm. apply Hin, found_in_document in Hm.
  destruct Hm as [i [t [_ [E [Hi _]]]]].
  assert (i < length reader)%nat
    by (apply nth_error_Some; congruence).
  lia.
Qed.

Lemma basenames_of_files total dir chapters : forall todo k,
  map basename (map path (files_from total dir chapters k todo))
  = filenames_from k todo.
Proof.
  induction todo as [|m todo IH]; intro k; cbn [files_from map];
    [reflexivity|].
  rewrite IH. unfold chapter_file_at. cbn [path filenames_from].
  now rewrite basename_of_joined.
Qed.

(** The run after a detection that gave marks. *)
Lemma after_detection_splits w reader r :
  r <> [] ->
  detect_chapters (extract_text_from_pdf reader) r ->
  [Print Processing; Print OutputDirectory]
  ++ [Print Extracting;
      Print (Extracted (length (extract_text_from_pdf reader)));
      Print Detecting]
  ++ after_detection w (length reader) r
  = splitting_run w (length reader) r.
Proof.
  intros Hne Hd. apply detected_in_document in Hd.
  unfold after_detection, split_and_report, split_pdf_by_chapters.
  destruct r as [|m r]; [contradiction|]. cbn [no_marks].
  rewrite split_loop_nonneg
    by (eapply Forall_impl; [|exact Hd]; simpl; intros; lia).
  rewrite extract_numbered, numbered_length. unfold splitting_run.
  rewrite length_map, files_from_length.
  rewrite <- (basenames_of_files (Z.of_nat (length reader)) (output_dir w)
                (m :: r) (m :: r) 0).
  rewrite (map_map basename (fun name => Print (CreatedFile name))).
  reflexivity.
Qed.

End PipelineFacts.

(** X13. Detection on the texts of a document: every mark carries the
    index of a page of the document whose text extraction succeeded, and
    its title is read off one of the first five lines of that text; a
    page whose extraction failed carries no mark. *)
Theorem detected_marks_come_from_pages
    (reader : pdf) (r : list mark) (m : mark) :
  detect_chapters (extract_text_from_pdf reader) r -> In m r ->
  (0 <= fst m < Z.of_nat (length reader))%Z
  /\ exists t line,
       nth_error reader (Z.to_nat (fst m)) = Some (Text t)
       /\ In line (firstn 5 (split newline t))
       /\ scan_patterns chapter_patterns (strip line) = Some (snd m).
Proof.
  intros H Hm.
  pose proof (detected_in_document reader r H) as Hall.
  rewrite Forall_forall in Hall. split; [now apply Hall|].
  apply detect_chapters_facts in H. destruct H as [_ [_ Hin]].
  apply Hin, found_in_document in Hm.
  destruct Hm as [i [t [line [E [Hi [Hl Hs]]]]]].
  exists t, line. rewrite E, Nat2Z.id. auto.
Qed.

Lemma detected_marks_come_from_pages_witness :
  detect_chapters
    (extract_text_from_pdf
       [Fails; Text (lit "Chapter 4. Fluid Dynamics and Pressure")])
    [(1%Z, lit "4. Fluid Dynamics and Pressure")]
  /\ (0 <= 1 < 2)%Z.
Proof.
  assert (H : detect_chapters
                (extract_text_from_pdf
                   [Fails; Text (lit "Chapter 4. Fluid Dynamics and Pressure")])
                [(1%Z, lit "4. Fluid Dynamics and Pressure")])
    by (exists [(1%Z, lit "4. Fluid Dynamics and Pressure")];
        split; vm_compute; reflexivity).
  split; [exact H|].
  exact (proj1 (detected_marks_come_from_pages _ _
                  (1%Z, lit "4. Fluid Dynamics and Pressure") H
                  (or_introl eq_refl))).
Defined.

(** X14. A run of [main] in which the detector returns marks: the
    splitter is called once, with these marks; it does not raise, since
    every mark sits on a page of the document; one file is written per
    mark, in the output directory; the names reported are the filenames
    of the marks with the ordinals 1, 2, ...; no error is reported. *)
Theorem main_splits_detected_chapters
    (w : world) (r : list mark) (tr : list event) :
  main w (Some r) tr -> r <> [] ->
  exists reader,
    document w = Some reader
    /\ detect_chapters (extract_text_from_pdf reader) r
    /\ tr = splitting_run w (length reader) r
    /\ length (files_from (Z.of_nat (length reader)) (output_dir w) r 0 r)
       = length r
    /\ ~ In Traceback tr
    /\ ~ In (Print ErrorDuringProcessing) tr.
Proof.
  unfold main. destruct (input_exists w); cbn [negb].
  2: { intros [H _]. discriminate. }
  destruct (document w) as [reader|].
  2: { intros [H _]. discriminate. }
  intros [r' [Hd [E ->]]] Hne. inversion E; subst r'. clear E.
  exists reader. split; [reflexivity|]. split; [exact Hd|].
  rewrite (after_detection_splits w reader r Hne Hd).
  split; [reflexivity|]. split; [apply files_from_length|].
  unfold splitting_run.
  split; intro Hin; repeat (apply in_app_or in Hin; destruct Hin as [Hin|Hin]);
    try (apply in_map_iff in Hin; destruct Hin as [x [Hx _]]; discriminate);
    simpl in Hin; intuition discriminate.
Qed.

Lemma main_splits_detected_chapters_witness :
  main (World true
          (Some [Fails; Text (lit "Chapter 4. Fluid Dynamics and Pressure")])
          (lit "out"))
       (Some [(1%Z, lit "4. Fluid Dynamics and Pressure")])
       (splitting_run (World true None (lit "out")) 2
          [(1%Z, lit "4. Fluid Dynamics and Pressure")])
  /\ [(1%Z, lit "4. Fluid Dynamics and Pressure")] <> []
  /\ ~ In Traceback
          (splitting_run (World true None (lit "out")) 2
             [(1%Z, lit "4. Fluid Dynamics and Pressure")]).
Proof.
  assert (H : main (World true
                      (Some
                         [Fails;
                          Text (lit "Chapter 4. Fluid Dynamics and Pressure")])
                      (lit "out"))
                   (Some [(1%Z, lit "4. Fluid Dynamics and Pressure")])
                   (splitting_run (World true None (lit "out")) 2
                      [(1%Z, lit "4. Fluid Dynamics and Pressure")])).
  { unfold main. cbn [input_exists negb document].
    exists [(1%Z, lit "4. Fluid Dynamics and Pressure")].
    split; [|split; [reflexivity|vm_compute; reflexivity]].
    exists [(1%Z, lit "4. Fluid Dynamics and Pressure")].
    split; vm_compute; reflexivity. }
  assert (Hne : [(1%Z, lit "4. Fluid Dynamics and Pressure")] <> [])
    by discriminate.
  split; [exact H|]. split; [exact Hne|].
  destruct (main_splits_detected_chapters _ _ _ H Hne)
    as [reader [_ [_ [_ [_ [Ht _]]]]]].
  exact Ht.
Defined.

(** X15. Whatever the run of [main]: a file is written only after the
    input was found, the document opened and the detector returned marks;
    the splitter was then called with these marks; the file lies in the
    output directory under the filename of one of the marks, and every
    page it holds is a page of the document. *)
Theorem files_only_after_detection
    (w : world) (detected : option (list mark)) (tr : list event)
    (f : chapter_file) :
  main w detected tr -> In (FileWritten f) tr ->
  exists reader r,
    input_exists w = true /\ document w = Some reader
    /\ detected = Some r /\ r <> []
    /\ In (SplitterCalled r) tr
    /\ (exists i m,
          nth_error r i = Some m
          /\ path f = path_join (output_dir w)
                        (create_chapter_filename (snd m) (Z.of_nat i + 1)))
    /\ Forall (fun p => (0 <= p < Z.of_nat (length reader))%Z) (pages f).
Proof.
  unfold main. destruct (input_exists w); cbn [negb].
  2: { intros [_ ->] Hin. simpl in Hin. intuition discriminate. }
  destruct (document w) as [reader|].
  2: { intros [_ ->] Hin. simpl in Hin. intuition discriminate. }
  intros [r [Hd [-> ->]]] Hin.
  destruct r as [|m0 r].
  { simpl in Hin. intuition discriminate. }
  assert (Hne : m0 :: r <> []) by discriminate.
  rewrite (after_detection_splits w reader _ Hne Hd) in Hin |- *.
  exists reader, (m0 :: r). split; [reflexivity|]. split; [reflexivity|].
  split; [reflexivity|]. split; [exact Hne|].
  pose proof (detected_in_document reader _ Hd) as Hall.
  set (marks := m0 :: r) in *. clearbody marks.
  unfold splitting_run in *. split.
  { apply in_or_app. right. apply in_or_app. right. apply in_or_app. left.
    right. now left. }
  assert (Hf : In f (files_from (Z.of_nat (length reader)) (output_dir w)
                                marks 0 marks)).
  { repeat (apply in_app_or in Hin; destruct Hin as [Hin|Hin]);
      try (apply in_map_iff in Hin; destruct Hin as [x [Hx Hxin]];
           first [discriminate | inversion Hx; subst; exact Hxin]);
      simpl in Hin; intuition discriminate. }
  apply In_nth_error in Hf. destruct Hf as [i Hi].
  assert (Hlt : (i < length marks)%nat).
  { rewrite <- (files_from_length (Z.of_nat (length reader)) (output_dir w)
                  marks marks 0).
    apply nth_error_Some. congruence. }
  destruct (nth_error marks i) as [m|] eqn:Em;
    [|apply nth_error_None in Em; lia].
  rewrite (files_from_nth _ _ _ _ 0 i m Em) in Hi. inversion Hi; subst f.
  split; [exists i, m; split; [exact Em|reflexivity]|].
  unfold chapter_file_at. cbn [pages Nat.add].
  apply Forall_forall. intros p Hp. apply in_range in Hp.
  rewrite Forall_forall in Hall. apply nth_error_In in Em.
  specialize (Hall m Em). lia.
Qed.

Lemma files_only_after_detection_witness :
  main one_chapter_world (Some one_chapter_marks)
       (splitting_run one_chapter_world 2 one_chapter_marks)
  /\ In (FileWritten one_chapter_file)
        (splitting_run one_chapter_world 2 one_chapter_marks)
  /\ exists reader r,
       input_exists one_chapter_world = true
       /\ document one_chapter_world = Some reader
       /\ Some one_chapter_marks = Some r /\ r <> []
       /\ In (SplitterCalled r)
             (splitting_run one_chapter_world 2 one_chapter_marks)
       /\ (exists i m,
             nth_error r i = Some m
             /\ path one_chapter_file
                = path_join (output_dir one_chapter_world)
                    (create_chapter_filename (snd m) (Z.of_nat i + 1)))
       /\ Forall (fun p => (0 <= p < Z.of_nat (length reader))%Z)
                 (pages one_chapter_file).
Proof.
  assert (H : main one_chapter_world (Some one_chapter_marks)
                   (splitting_run one_chapter_world 2 one_chapter_marks)).
  { unfold main. cbn [one_chapter_world input_exists negb document].
    exists one_chapter_marks.
    split; [|split; [reflexivity|vm_compute; reflexivity]].
    exists one_chapter_marks. split; vm_compute; reflexivity. }
  assert (Hin : In (FileWritten one_chapter_file)
                   (splitting_run one_chapter_world 2 one_chapter_marks)).
  { vm_compute. repeat (first [left; reflexivity | right]). }
  split; [exact H|]. split; [exact Hin|].
  exact (files_only_after_detection _ _ _ _ H Hin).
Defined.

(** ** Manual Override Collector *)

Section ManualFacts.

Open Scope Z_scope.

Variable int_of : str -> option Z.

(** What holds of the list when the loop starts, and is kept by each
    accepted entry, holds of the list the loop ends with. *)
Lemma input_loop_inv (P : list mark -> Prop) (inputs : list keyboard) :
  (forall cs page_input typed n,
      P cs -> In (Line page_input) inputs -> In (Line typed) inputs ->
      int_of page_input = Some n -> 0 <= n - 1 -> strip typed <> [] ->
      P (cs ++ [(n - 1, strip typed)])) ->
  forall k rest chapters r,
    (length rest <= k)%nat -> incl rest inputs -> P chapters ->
    input_loop int_of chapters rest = Some r -> P r.
Proof.
  intro Hstep. induction k as [|k IH]; intros rest chapters r Hk Hincl HP H.
  - destruct rest; [discriminate|simpl in Hk; lia].
  - destruct rest as [|[page_input|] rest]; [discriminate| |].
    2: { cbn [input_loop] in H. inversion H; subst. exact HP. }
    cbn [input_loop] in H. cbn [length] in Hk.
    assert (Hrest : incl rest inputs)
      by (intros x Hx; apply Hincl; now right).
    destruct (is_empty (strip page_input)).
    { inversion H; subst. exact HP. }
    destruct (int_of page_input) as [n|] eqn:En.
    2: { apply (IH rest chapters r); auto. lia. }
    destruct (Z.ltb_spec (n - 1) 0) as [Hn|Hn].
    { apply (IH rest chapters r); auto. lia. }
    destruct rest as [|[typed|] rest']; [discriminate| |].
    2: { inversion H; subst. exact HP. }
    cbn [length] in Hk.
    assert (Hrest' : incl rest' inputs)
      by (intros x Hx; apply Hrest; now right).
    destruct (is_empty (strip typed)) eqn:Et.
    { apply (IH rest' chapters r); auto. lia. }
    apply (IH rest' (chapters ++ [(n - 1, strip typed)]) r); auto; [lia|].
    apply (Hstep chapters page_input typed n); auto.
    + apply Hincl. now left.
    + apply Hrest. now left.
    + intro E. rewrite E in Et. discriminate.
Qed.

Lemma manual_marks inputs r :
  manual_chapter_input int_of inputs = Some r ->
  Sorted page_le r
  /\ Forall (fun m =>
               0 <= fst m /\ snd m <> []
               /\ exists page_input typed,
                    In (Line page_input) inputs /\ In (Line typed) inputs
                    /\ int_of page_input = Some (fst m + 1)
                    /\ snd m = strip typed) r.
Proof.
  unfold manual_chapter_input.
  destruct (input_loop int_of [] inputs) as [l|] eqn:E; [|discriminate].
  intro H. inversion H; subst r. clear H.
  split; [apply sort_by_page_sorted|].
  eapply Permutation_Forall; [apply Permutation_sym, sort_by_page_perm|].
  revert E.
  apply (input_loop_inv _ inputs) with (k := length inputs);
    [|lia|apply incl_refl|constructor].
  intros cs page_input typed n Hcs H1 H2 Hn Hpos Ht.
  apply Forall_app. split; [exact Hcs|]. constructor; [|constructor].
  cbn [fst snd]. split; [exact Hpos|]. split; [exact Ht|].
  exists page_input, typed. repeat split; auto.
  rewrite Hn. f_equal. lia.
Qed.

(** Once KeyboardInterrupt is among what is typed, the loop ends with a
    list that what follows does not change. *)
Lemma input_loop_interrupt : forall k pre chapters,
  (length pre <= k)%nat ->
  exists r, forall post,
    input_loop int_of chapters (pre ++ Interrupt :: post) = Some r.
Proof.
  induction k as [|k IH]; intros pre chapters Hk.
  - destruct pre; [|simpl in Hk; lia]. now exists chapters.
  - destruct pre as [|[page_input|] pre]; [now exists chapters| |].
    2: { now exists chapters. }
    cbn [app input_loop]. cbn [length] in Hk.
    destruct (is_empty (strip page_input)); [now exists chapters|].
    destruct (int_of page_input) as [n|]; [|apply IH; lia].
    destruct (n - 1 <? 0); [apply IH; lia|].
    destruct pre as [|[typed|] pre']; [now exists chapters| |].
    2: { now exists chapters. }
    cbn [app]. cbn [length] in Hk.
    destruct (is_empty (strip typed)); apply IH; lia.
Qed.

(** Accepted entries are appended in the order typed. *)
Lemma input_loop_pairs pairs marks :
  Forall2 (entered int_of) pairs marks ->
  forall chapters rest,
    input_loop int_of chapters (typed_pairs pairs ++ rest)
    = input_loop int_of (chapters ++ marks) rest.
Proof.
  induction 1 as [|pt m pairs marks Hpt Hrest IH]; intros chapters rest.
  - simpl. now rewrite app_nil_r.
  - destruct Hpt as [Hp [Hn [Hpos [Ht Hne]]]].
    cbn [typed_pairs flat_map app input_loop].
    destruct (is_empty (strip (fst pt))) eqn:Ep.
    { apply is_empty_nil in Ep. contradiction. }
    rewrite Hn. replace (fst m + 1 - 1) with (fst m) by lia.
    destruct (Z.ltb_spec (fst m) 0); [lia|].
    rewrite <- Ht.
    destruct (is_empty (snd m)) eqn:Em.
    { apply is_empty_nil in Em. contradiction. }
    change (flat_map (fun pt0 => [Line (fst pt0); Line (snd pt0)]) pairs)
      with (typed_pairs pairs).
    rewrite IH, <- app_assoc. now destruct m.
Qed.

Lemma insert_by_page_on_page p x : forall l,
  on_page p (insert_by_page x l) = on_page p (x :: l).
Proof.
  unfold on_page. induction l as [|y l IH]; [reflexivity|].
  cbn [insert_by_page].
  destruct (Z.leb_spec (fst x) (fst y)) as [Hle|Hgt]; [reflexivity|].
  cbn [filter] in *. rewrite IH.
  destruct (Z.eqb_spec (fst x) p); destruct (Z.eqb_spec (fst y) p);
    try reflexivity; lia.
Qed.

Lemma sort_by_page_stable p : forall l,
  on_page p (sort_by_page l) = on_page p l.
Proof.
  induction l as [|x l IH]; [reflexivity|].
  cbn [sort_by_page fold_right]. rewrite insert_by_page_on_page.
  unfold on_page in *. cbn [filter]. fold (sort_by_page l). now rewrite IH.
Qed.

End ManualFacts.

(** X16. Whatever is typed, a list returned by [manual_chapter_input] is
    sorted by page and holds only valid marks: a page index that is not
    negative, one less than a number typed, and a title that is not
    empty, a line typed with the whitespace around it removed. *)
Theorem manual_marks_valid
    (int_of : str -> option Z) (inputs : list keyboard) (r : list mark) :
  manual_chapter_input int_of inputs = Some r ->
  Sorted page_le r
  /\ Forall (fun m =>
               (0 <= fst m)%Z /\ snd m <> []
               /\ exists page_input typed,
                    In (Line page_input) inputs /\ In (Line typed) inputs
                    /\ int_of page_input = Some (fst m + 1)%Z
                    /\ snd m = strip typed) r.
Proof. apply manual_marks. Qed.

Lemma manual_marks_valid_witness :
  manual_chapter_input int_of_digits
    [Line (lit "3"); Line (lit " Heat "); Line (lit "0"); Line (lit "x");
     Line (lit "1"); Line (lit "Intro"); Line []]
  = Some [(0%Z, lit "Intro"); (2%Z, lit "Heat")]
  /\ Sorted page_le [(0%Z, lit "Intro"); (2%Z, lit "Heat")].
Proof.
  assert (H : manual_chapter_input int_of_digits
                [Line (lit "3"); Line (lit " Heat "); Line (lit "0");
                 Line (lit "x"); Line (lit "1"); Line (lit "Intro"); Line []]
              = Some [(0%Z, lit "Intro"); (2%Z, lit "Heat")])
    by (vm_compute; reflexivity).
  split; [exact H|].
  exact (proj1 (manual_marks_valid _ _ _ H)).
Defined.

(** X17. KeyboardInterrupt ends [manual_chapter_input] wherever it
    arrives, at the prompt for a page number or at the prompt for a
    title: the function returns, and what it returns does not depend on
    what would have been typed afterwards. *)
Theorem manual_interrupt_returns
    (int_of : str -> option Z) (pre : list keyboard) :
  exists r, forall post,
    manual_chapter_input int_of (pre ++ Interrupt :: post) = Some r.
Proof.
  destruct (input_loop_interrupt int_of (length pre) pre [] (le_n _))
    as [r Hr].
  exists (sort_by_page r). intro post. unfold manual_chapter_input.
  now rewrite Hr.
Qed.

(** X18. Entries that are each a positive page number followed by a title
    that is not blank are all accepted: ended by a blank line or by
    KeyboardInterrupt they give the marks sorted by page, the marks of
    one page in the order typed; when the input ends without either, the
    function raises and the entries are lost. *)
Theorem manual_accepts_entries
    (int_of : str -> option Z) (pairs : list (str * str))
    (marks : list mark) :
  Forall2 (entered int_of) pairs marks ->
  (forall blank rest, strip blank = [] ->
     manual_chapter_input int_of (typed_pairs pairs ++ Line blank :: rest)
     = Some (sort_by_page marks))
  /\ (forall rest,
        manual_chapter_input int_of (typed_pairs pairs ++ Interrupt :: rest)
        = Some (sort_by_page marks))
  /\ manual_chapter_input int_of (typed_pairs pairs) = None
  /\ Permutation (sort_by_page marks) marks
  /\ forall p, on_page p (sort_by_page marks) = on_page p marks.
Proof.
  intro H. unfold manual_chapter_input. repeat split.
  - intros blank rest Hb. rewrite (input_loop_pairs int_of _ _ H).
    cbn [input_loop]. rewrite Hb. reflexivity.
  - intro rest. rewrite (input_loop_pairs int_of _ _ H). reflexivity.
  - rewrite <- (app_nil_r (typed_pairs pairs)).
    rewrite (input_loop_pairs int_of _ _ H). reflexivity.
  - apply sort_by_page_perm.
  - intro p. apply sort_by_page_stable.
Qed.

Lemma manual_accepts_entries_witness :
  Forall2 (entered int_of_digits)
    [(lit "3", lit " Heat "); (lit "1", lit "Intro"); (lit " 3", lit "Work")]
    [(2%Z, lit "Heat"); (0%Z, lit "Intro"); (2%Z, lit "Work")]
  /\ manual_chapter_input int_of_digits
       (typed_pairs [(lit "3", lit " Heat "); (lit "1", lit "Intro");
                     (lit " 3", lit "Work")]
        ++ Line [] :: [])
     = Some [(0%Z, lit "Intro"); (2%Z, lit "Heat"); (2%Z, lit "Work")].
Proof.
  assert (H : Forall2 (entered int_of_digits)
                [(lit "3", lit " Heat "); (lit "1", lit "Intro");
                 (lit " 3", lit "Work")]
                [(2%Z, lit "Heat"); (0%Z, lit "Intro"); (2%Z, lit "Work")]).
  { repeat constructor; try discriminate; try reflexivity;
      vm_compute; congruence. }
  split; [exact H|].
  exact (proj1 (manual_accepts_entries _ _ _ H) [] [] eq_refl).
Defined.

(** X19. The splitter accepts whatever [manual_chapter_input] returns:
    on these marks [split_pdf_by_chapters] does not raise and writes one
    file per mark, whatever the number of pages of the document. *)
Theorem manual_marks_split
    (int_of : str -> option Z) (inputs : list keyboard) (r : list mark)
    (total_pages : nat) (output_dir : str) :
  manual_chapter_input int_of inputs = Some r ->
  exists files,
    split_pdf_by_chapters total_pages output_dir r
    = (files, Some (map path files))
    /\ length files = length r.
Proof.
  intro H. apply manual_marks in H. destruct H as [_ H].
  exists (files_from (Z.of_nat total_pages) output_dir r 0 r).
  unfold split_pdf_by_chapters. rewrite split_loop_nonneg.
  - split; [reflexivity|apply files_from_length].
  - eapply Forall_impl; [|exact H]. simpl. intros m Hm. apply Hm.
Qed.

Lemma manual_marks_split_witness :
  manual_chapter_input int_of_digits
    [Line (lit "2"); Line (lit "Second"); Line (lit "2"); Line (lit "Again");
     Interrupt]
  = Some [(1%Z, lit "Second"); (1%Z, lit "Again")]
  /\ exists files,
       split_pdf_by_chapters 1 (lit "out")
         [(1%Z, lit "Second"); (1%Z, lit "Again")]
       = (files, Some (map path files))
       /\ map pages files = [[]; []].
Proof.
  assert (H : manual_chapter_input int_of_digits
                [Line (lit "2"); Line (lit "Second"); Line (lit "2");
                 Line (lit "Again"); Interrupt]
              = Some [(1%Z, lit "Second"); (1%Z, lit "Again")])
    by (vm_compute; reflexivity).
  split; [exact H|].
  destruct (manual_marks_split _ _ _ 1 (lit "out") H) as [files [E _]].
  exists files. split; [exact E|].
  vm_compute in E. inversion E. reflexivity.
Defined.

(** ** The extraction batches *)

Section NameFacts.

Lemma code_inj a b : code a = code b -> a = b.
Proof.
  unfold code. intro H.
  rewrite <- (ascii_nat_embedding a), <- (ascii_nat_embedding b).
  now rewrite H.
Qed.

Lemma str_leb_total : forall a b, str_leb a b = true \/ str_leb b a = true.
Proof.
  induction a as [|x a IH]; intros [|y b]; cbn [str_leb]; auto.
  destruct (Nat.ltb_spec (code x) (code y));
    destruct (Nat.ltb_spec (code y) (code x)); auto; lia.
Qed.

Lemma str_leb_antisym : forall a b,
  str_leb a b = true -> str_leb b a = true -> a = b.
Proof.
  induction a as [|x a IH]; intros [|y b]; cbn [str_leb];
    try reflexivity; try discriminate.
  destruct (Nat.ltb_spec (code x) (code y));
    destruct (Nat.ltb_spec (code y) (code x));
    try discriminate; try lia.
  intros H1 H2. f_equal; [apply code_inj; lia|now apply IH].
Qed.

Lemma str_leb_trans : forall a b c,
  str_leb a b = true -> str_leb b c = true -> str_leb a c = true.
Proof.
  induction a as [|x a IH]; intros [|y b] [|z c]; cbn [str_leb];
    try reflexivity; try discriminate.
  destruct (Nat.ltb_spec (code x) (code y));
    destruct (Nat.ltb_spec (code y) (code x));
    destruct (Nat.ltb_spec (code y) (code z));
    destruct (Nat.ltb_spec (code z) (code y));
    destruct (Nat.ltb_spec (code x) (code z));
    destruct (Nat.ltb_spec (code z) (code x));
    try discriminate; try reflexivity; try lia.
  apply IH.
Qed.

Lemma insert_name_perm x : forall l, Permutation (insert_name x l) (x :: l).
Proof.
  induction l as [|y l IH]; cbn [insert_name]; [reflexivity|].
  destruct (str_leb x y); [reflexivity|].
  rewrite IH. apply perm_swap.
Qed.

Lemma sort_names_perm : forall l, Permutation (sort_names l) l.
Proof.
  induction l as [|x l IH]; [reflexivity|].
  cbn [sort_names fold_right]. fold (sort_names l).
  rewrite insert_name_perm. now constructor.
Qed.

Lemma insert_name_sorted x : forall l,
  Sorted name_le l -> Sorted name_le (insert_name x l).
Proof.
  induction l as [|y l IH]; intro H; cbn [insert_name].
  - repeat constructor.
  - destruct (str_leb x y) eqn:Exy.
    + constructor; [exact H|]. now constructor.
    + assert (Hyx : name_le y x).
      { destruct (str_leb_total x y) as [E|E]; [congruence|exact E]. }
      inversion H as [|? ? Hs Hhd]; subst. constructor; [now apply IH|].
      destruct l as [|z l]; cbn [insert_name].
      * now constructor.
      * destruct (str_leb x z); constructor; [exact Hyx|].
        now inversion Hhd.
Qed.

Lemma sort_names_sorted : forall l, Sorted name_le (sort_names l).
Proof.
  induction l as [|x l IH]; [constructor|].
  cbn [sort_names fold_right]. fold (sort_names l).
  now apply insert_name_sorted.
Qed.

Lemma sorted_names_unique : forall l1 l2 : list str,
  Sorted name_le l1 -> Sorted name_le l2 -> Permutation l1 l2 -> l1 = l2.
Proof.
  assert (Htrans : Relations_1.Transitive name_le)
    by (intros a b c; apply str_leb_trans).
  induction l1 as [|x l1 IH]; intros l2 H1 H2 HP.
  - apply Permutation_nil in HP. now subst.
  - destruct l2 as [|y l2];
      [apply Permutation_sym, Permutation_nil in HP; discriminate|].
    apply Sorted_StronglySorted in H1; [|exact Htrans].
    apply Sorted_StronglySorted in H2; [|exact Htrans].
    inversion H1 as [|? ? S1 F1]; subst. inversion H2 as [|? ? S2 F2]; subst.
    assert (x = y).
    { assert (Hx : In x (y :: l2))
        by (eapply Permutation_in; [exact HP|now left]).
      assert (Hy : In y (x :: l1))
        by (eapply Permutation_in; [apply Permutation_sym, HP|now left]).
      rewrite Forall_forall in F1, F2.
      destruct Hx as [->|Hx]; [reflexivity|].
      destruct Hy as [->|Hy]; [reflexivity|].
      apply F2 in Hx. apply F1 in Hy. now apply str_leb_antisym. }
    subst y. f_equal. apply Permutation_cons_inv in HP.
    apply IH; auto using StronglySorted_Sorted.
Qed.

Lemma filter_perm {A} (f : A -> bool) l l' :
  Permutation l l' -> Permutation (filter f l) (filter f l').
Proof.
  induction 1 as [|x l l' H IH|x y l|l l' l'' H1 IH1 H2 IH2]; cbn [filter].
  - constructor.
  - destruct (f x); [now constructor|exact IH].
  - destruct (f x); destruct (f y); try reflexivity. apply perm_swap.
  - now transitivity (filter f l').
Qed.

Lemma ends_with_spec suffix s :
  ends_with suffix s = true <-> exists stem, s = stem ++ suffix.
Proof.
  unfold ends_with. rewrite starts_with_spec. split.
  - intros [post E]. exists (rev post).
    apply (f_equal (@rev ascii)) in E.
    now rewrite rev_involutive, rev_app_distr, rev_involutive in E.
  - intros [stem ->]. exists (rev stem). apply rev_app_distr.
Qed.

Lemma drop_last_app stem suffix :
  drop_last (length suffix) (stem ++ suffix) = stem.
Proof.
  unfold drop_last. rewrite length_app.
  replace (length stem + length suffix - length suffix)
    with (length stem + 0) by lia.
  now rewrite firstn_app_2, app_nil_r.
Qed.

Lemma path_join_plain dir b :
  match b with c :: _ => c <> "/"%char | [] => True end ->
  path_join dir b = join_prefix dir ++ b.
Proof.
  intro Hb. unfold path_join, join_prefix.
  assert (E : forall A (c : ascii) (x y : A),
             c <> "/"%char -> match c with "/"%char => x | _ => y end = y).
  { intros A c x y Hc.
    destruct c as [[] [] [] [] [] [] [] []]; try reflexivity.
    now destruct Hc. }
  assert (Ehead : forall A (x y : A),
             match b with "/"%char :: _ => x | _ => y end = y).
  { intros A x y. destruct b as [|c b]; [reflexivity|]. now apply E. }
  rewrite Ehead.
  destruct (rev dir) as [|c r]; [reflexivity|].
  destruct (Ascii.eqb_spec c "/"%char) as [->|Hc]; [reflexivity|].
  rewrite !E by exact Hc. now rewrite <- app_assoc.
Qed.

(** The output file of a plain name [stem.pdf]. *)
Lemma output_of_stem out_dir stem :
  plain_name (stem ++ lit ".pdf") ->
  output_file_of out_dir (stem ++ lit ".pdf")
  = join_prefix out_dir ++ stem ++ lit ".json".
Proof.
  intro Hp. unfold output_file_of.
  change 4 with (length (lit ".pdf")).
  rewrite (drop_last_app stem (lit ".pdf")).
  apply path_join_plain. destruct stem as [|c stem]; [discriminate|].
  intros ->. apply Hp. now left.
Qed.

Lemma output_inj out_dir f g :
  ends_with (lit ".pdf") f = true -> ends_with (lit ".pdf") g = true ->
  plain_name f -> plain_name g ->
  output_file_of out_dir f = output_file_of out_dir g -> f = g.
Proof.
  intros Hf Hg Pf Pg E.
  apply ends_with_spec in Hf. destruct Hf as [a ->].
  apply ends_with_spec in Hg. destruct Hg as [b ->].
  rewrite !output_of_stem in E by assumption.
  apply app_inv_head, app_inv_tail in E. now subst.
Qed.

Lemma NoDup_map_on {A B} (f : A -> B) : forall l,
  (forall x y, In x l -> In y l -> f x = f y -> x = y) ->
  NoDup l -> NoDup (map f l).
Proof.
  induction l as [|x l IH]; intros Hinj Hnd; cbn [map]; [constructor|].
  inversion Hnd as [|? ? Hx Hl]; subst. constructor.
  - intro H. apply in_map_iff in H. destruct H as [y [E Hy]].
    apply Hinj in E; [|now right|now left]. now subst.
  - apply IH; [|exact Hl]. intros a b Ha Hb. apply Hinj; now right.
Qed.

Lemma pdf_files_in listing f :
  In f (pdf_files listing)
  <-> In f listing /\ ends_with (lit ".pdf") f = true.
Proof.
  unfold pdf_files. rewrite <- filter_In. split; apply Permutation_in.
  - apply sort_names_perm.
  - apply Permutation_sym, sort_names_perm.
Qed.

Lemma pdf_files_outputs out_dir listing :
  NoDup listing -> Forall plain_name listing ->
  NoDup (map (output_file_of out_dir) (pdf_files listing)).
Proof.
  intros Hnd Hp. rewrite Forall_forall in Hp. apply NoDup_map_on.
  - intros f g Hf Hg. apply pdf_files_in in Hf, Hg.
    destruct Hf as [Hf1 Hf2]. destruct Hg as [Hg1 Hg2].
    apply output_inj; auto.
  - unfold pdf_files.
    eapply Permutation_NoDup; [apply Permutation_sym, sort_names_perm|].
    now apply NoDup_filter.
Qed.

Lemma str_eqb_eq a b : str_eqb a b = true <-> a = b.
Proof.
  unfold str_eqb. destruct (list_eq_dec ascii_dec a b); split; congruence.
Qed.

End NameFacts.

Section RunFacts.

Variable data : Type.
Variable agent_extract : str -> outcome data.
Variables chapter_pdfs_dir out_dir : str.
Variable present : str -> bool.

Local Abbreviation run :=
  (process data agent_extract chapter_pdfs_dir out_dir present).
Local Abbreviation out := (output_file_of out_dir).

(** One turn of the loop. *)
Lemma process_step skip f rest written :
  run skip (f :: rest) written
  = if skip && path_exists data present written (out f)
    then (Skipped f :: fst (run skip rest written),
          snd (run skip rest written))
    else match agent_extract (path_join chapter_pdfs_dir f) with
         | Written d =>
             (Attempted f :: Saved (out f)
                :: fst (run skip rest ((out f, d) :: written)),
              snd (run skip rest ((out f, d) :: written)))
         | WrittenThenRaises d =>
             (Attempted f :: Failed f
                :: fst (run skip rest ((out f, d) :: written)),
              snd (run skip rest ((out f, d) :: written)))
         | Raises =>
             (Attempted f :: Failed f :: fst (run skip rest written),
              snd (run skip rest written))
         end.
Proof.
  cbn [process].
  destruct (skip && _); [now destruct (run skip rest written)|].
  destruct (agent_extract _) as [|d|d].
  - now destruct (run skip rest written).
  - now destruct (run skip rest ((out f, d) :: written)).
  - now destruct (run skip rest ((out f, d) :: written)).
Qed.

Lemma process_handles : forall todo skip written,
  handled (fst (run skip todo written)) = todo.
Proof.
  induction todo as [|f rest IH]; intros skip written; [reflexivity|].
  rewrite process_step.
  destruct (skip && _); [cbn; now rewrite IH|].
  destruct (agent_extract _); cbn; now rewrite IH.
Qed.

Lemma process_attempts : forall todo written,
  attempted (fst (run false todo written)) = todo.
Proof.
  induction todo as [|f rest IH]; intro written; [reflexivity|].
  rewrite process_step. cbn [andb].
  destruct (agent_extract _); cbn; now rewrite IH.
Qed.

Lemma path_exists_false written p :
  path_exists data present written p = false
  <-> present p = false /\ ~ In p (map fst written).
Proof.
  unfold path_exists. rewrite orb_false_iff. split.
  - intros [H1 H2]. split; [exact H1|]. intro Hin.
    apply in_map_iff in Hin. destruct Hin as [kv [E Hkv]].
    assert (Ht : existsb (fun kv => str_eqb p (fst kv)) written = true).
    { apply existsb_exists. exists kv. split; [exact Hkv|].
      now apply str_eqb_eq. }
    congruence.
  - intros [H1 H2]. split; [exact H1|].
    destruct (existsb _ written) eqn:E; [|reflexivity].
    apply existsb_exists in E. destruct E as [kv [Hkv E]].
    apply str_eqb_eq in E. destruct H2. subst p. now apply in_map.
Qed.

(** With the test of [os.path.exists], no path is written twice and no
    path present at the start is written. *)
Lemma process_fresh : forall todo written,
  NoDup (map fst written) ->
  Forall (fun kv => present (fst kv) = false) written ->
  NoDup (map fst (snd (run true todo written)))
  /\ Forall (fun kv => present (fst kv) = false)
            (snd (run true todo written)).
Proof.
  induction todo as [|f rest IH]; intros written Hnd Hp; [now split|].
  rewrite process_step. cbn [andb].
  destruct (path_exists data present written (out f)) eqn:E;
    [now apply IH|].
  apply path_exists_false in E. destruct E as [E1 E2].
  destruct (agent_extract _) as [|d|d]; cbn [snd]; apply IH; auto;
    cbn [map fst]; constructor; auto.
Qed.

(** Every file on the disk after the loop was there before it, or is the
    output of a file of the loop on which the agent wrote. *)
Lemma process_written : forall todo skip written kv,
  In kv (snd (run skip todo written)) ->
  In kv written
  \/ exists f, In f todo /\ fst kv = out f
               /\ (agent_extract (path_join chapter_pdfs_dir f)
                   = Written (snd kv)
                   \/ agent_extract (path_join chapter_pdfs_dir f)
                      = WrittenThenRaises (snd kv)).
Proof.
  induction todo as [|f rest IH]; intros skip written kv H; [now left|].
  rewrite process_step in H.
  assert (Hrest : forall w,
             In kv (snd (run skip rest w)) ->
             In kv w \/ exists g, In g (f :: rest) /\ fst kv = out g
               /\ (agent_extract (path_join chapter_pdfs_dir g)
                   = Written (snd kv)
                   \/ agent_extract (path_join chapter_pdfs_dir g)
                      = WrittenThenRaises (snd kv))).
  { intros w Hw. apply IH in Hw. destruct Hw as [Hw|[g [Hg Hw]]];
      [now left|]. right. exists g. split; [now right|exact Hw]. }
  destruct (skip && _); [now apply Hrest|].
  destruct (agent_extract _) as [|d|d] eqn:Ea; cbn [snd] in H;
    apply Hrest in H; [exact H| |];
    (destruct H as [[<-|H]|H]; [right|now left|now right]);
    exists f; (split; [now left|]); (split; [reflexivity|]); cbn [snd]; auto.
Qed.

(** The loop when the outputs of its files are distinct and none of them
    was written earlier in the run. *)
Lemma process_by_file : forall todo written,
  NoDup (map out todo) ->
  (forall f, In f todo -> ~ In (out f) (map fst written)) ->
  run true todo written
  = (flat_map (file_steps data agent_extract chapter_pdfs_dir out_dir
                          present) todo,
     rev (flat_map (file_left data agent_extract chapter_pdfs_dir out_dir
                              present) todo)
     ++ written).
Proof.
  induction todo as [|f rest IH]; intros written Hnd Hw; [reflexivity|].
  cbn [map] in Hnd. inversion Hnd as [|? ? Hf Hrest]; subst.
  assert (Hw' : forall g, In g rest -> ~ In (out g) (map fst written))
    by (intros g Hg; apply Hw; now right).
  assert (Hw'' : forall d g, In g rest ->
                             ~ In (out g) (map fst ((out f, d) :: written))).
  { intros d g Hg [E|Hin]; [|now apply (Hw' g)].
    cbn [fst] in E. apply Hf. rewrite E. now apply in_map. }
  rewrite process_step. cbn [andb flat_map].
  unfold file_steps at 1, file_left at 1.
  assert (Ex : path_exists data present written (out f) = present (out f)).
  { unfold path_exists. destruct (present (out f)); [reflexivity|].
    cbn [orb]. destruct (existsb _ written) eqn:E; [|reflexivity].
    apply existsb_exists in E. destruct E as [kv [Hkv E]].
    apply str_eqb_eq in E. destruct (Hw f (or_introl eq_refl)).
    rewrite E. now apply in_map. }
  rewrite Ex. destruct (present (out f)).
  - now rewrite (IH written Hrest Hw').
  - destruct (agent_extract _) as [|d|d].
    + now rewrite (IH written Hrest Hw').
    + rewrite (IH _ Hrest (Hw'' d)). cbn [fst snd app rev].
      now rewrite <- app_assoc.
    + rewrite (IH _ Hrest (Hw'' d)). cbn [fst snd app rev].
      now rewrite <- app_assoc.
Qed.

Lemma file_steps_attempted : forall todo,
  attempted (flat_map (file_steps data agent_extract chapter_pdfs_dir
                                  out_dir present) todo)
  = filter (fun f => negb (present (out f))) todo.
Proof.
  induction todo as [|f rest IH]; [reflexivity|].
  cbn [flat_map filter]. unfold attempted in *. rewrite flat_map_app, IH.
  unfold file_steps. destruct (present (out f)); [reflexivity|].
  destruct (agent_extract _); reflexivity.
Qed.

(** After the loop, the output of a file of the loop is on the disk
    exactly when it was there before, or the agent wrote it. *)
Lemma written_presence todo f :
  (forall g, In g todo -> out g = out f -> g = f) -> In f todo ->
  path_exists data present
    (rev (flat_map (file_left data agent_extract chapter_pdfs_dir out_dir
                              present) todo))
    (out f)
  = present (out f)
    || negb (is_raises (agent_extract (path_join chapter_pdfs_dir f))).
Proof.
  intros Hinj Hf.
  destruct (present (out f)) eqn:P;
    [unfold path_exists; now rewrite P|].
  cbn [orb].
  destruct (agent_extract (path_join chapter_pdfs_dir f)) as [|d|d] eqn:A;
    cbn [is_raises negb].
  - apply path_exists_false. split; [exact P|]. intro Hin.
    apply in_map_iff in Hin. destruct Hin as [kv [E Hkv]].
    apply in_rev, in_flat_map in Hkv. destruct Hkv as [g [Hg Hkv]].
    unfold file_left in Hkv. destruct (present (out g)); [destruct Hkv|].
    destruct (agent_extract (path_join chapter_pdfs_dir g)) as [|d|d] eqn:Ag;
      [destruct Hkv| |];
      (destruct Hkv as [<-|[]]; cbn [fst] in E; apply Hinj in E;
       [subst g; congruence|exact Hg]).
  - unfold path_exists. rewrite P. cbn [orb]. apply existsb_exists.
    exists (out f, d). split; [|now apply str_eqb_eq].
    apply in_rev. rewrite rev_involutive. apply in_flat_map. exists f.
    split; [exact Hf|]. unfold file_left. rewrite P, A. now left.
  - unfold path_exists. rewrite P. cbn [orb]. apply existsb_exists.
    exists (out f, d). split; [|now apply str_eqb_eq].
    apply in_rev. rewrite rev_involutive. apply in_flat_map. exists f.
    split; [exact Hf|]. unfold file_left. rewrite P, A. now left.
Qed.

End RunFacts.

(** X20. The list [pdf_files] of a batch holds exactly the names of the
    listing that end in [.pdf], in ascending order of their code points;
    it does not depend on the order in which [os.listdir] returns the
    names. *)
Theorem pdf_files_sorted (listing listing' : list str) :
  Permutation listing listing' ->
  pdf_files listing = pdf_files listing'
  /\ Sorted name_le (pdf_files listing)
  /\ Permutation (pdf_files listing)
                 (filter (ends_with (lit ".pdf")) listing)
  /\ forall f, In f (pdf_files listing)
               <-> In f listing /\ exists stem, f = stem ++ lit ".pdf".
Proof.
  intro HP. split; [|split; [|split]].
  - apply sorted_names_unique; try apply sort_names_sorted.
    unfold pdf_files. rewrite !sort_names_perm. now apply filter_perm.
  - apply sort_names_sorted.
  - apply sort_names_perm.
  - intro f. rewrite pdf_files_in, ends_with_spec. reflexivity.
Qed.

Lemma pdf_files_sorted_witness :
  Permutation [lit "b.pdf"; lit "a.pdf"; lit "notes.txt"]
              [lit "a.pdf"; lit "b.pdf"; lit "notes.txt"]
  /\ pdf_files [lit "b.pdf"; lit "a.pdf"; lit "notes.txt"]
     = pdf_files [lit "a.pdf"; lit "b.pdf"; lit "notes.txt"]
  /\ pdf_files [lit "b.pdf"; lit "a.pdf"; lit "notes.txt"]
     = [lit "a.pdf"; lit "b.pdf"].
Proof.
  assert (H : Permutation [lit "b.pdf"; lit "a.pdf"; lit "notes.txt"]
                          [lit "a.pdf"; lit "b.pdf"; lit "notes.txt"])
    by apply perm_swap.
  split; [exact H|]. split; [|vm_compute; reflexivity].
  exact (proj1 (pdf_files_sorted _ _ H)).
Defined.

(** X21. An exception on one file never ends a batch: whatever the agent
    does on each file, the script that skips existing outputs handles
    every file of [pdf_files], skipped or passed to the agent, once and
    in order; [simple_extract.py] passes every one of them to the agent,
    whether its output file exists or not. *)
Theorem batch_handles_every_pdf
    (data : Type) (agent_extract : str -> outcome data)
    (chapter_pdfs_dir out_dir : str) (present : str -> bool)
    (listing : list str) :
  handled (fst (SimpleExtractWithImages.main data agent_extract
                  chapter_pdfs_dir out_dir present listing))
  = pdf_files listing
  /\ attempted (fst (SimpleExtract.main data agent_extract
                       chapter_pdfs_dir out_dir present listing))
     = pdf_files listing.
Proof.
  split; [apply process_handles|apply process_attempts].
Qed.

(** X22. The script that skips existing outputs never writes a path
    twice in one run and never writes a path that existed when the run
    began; each file it leaves is the output file of a file of
    [pdf_files] on which the agent got as far as writing. *)
Theorem skip_existing_never_overwrites
    (data : Type) (agent_extract : str -> outcome data)
    (chapter_pdfs_dir out_dir : str) (present : str -> bool)
    (listing : list str) :
  NoDup (map fst (snd (SimpleExtractWithImages.main data agent_extract
                         chapter_pdfs_dir out_dir present listing)))
  /\ Forall (fun kv => present (fst kv) = false)
            (snd (SimpleExtractWithImages.main data agent_extract
                    chapter_pdfs_dir out_dir present listing))
  /\ forall kv,
       In kv (snd (SimpleExtractWithImages.main data agent_extract
                     chapter_pdfs_dir out_dir present listing)) ->
       exists f,
         In f (pdf_files listing) /\ fst kv = output_file_of out_dir f
         /\ (agent_extract (path_join chapter_pdfs_dir f) = Written (snd kv)
             \/ agent_extract (path_join chapter_pdfs_dir f)
                = WrittenThenRaises (snd kv)).
Proof.
  unfold SimpleExtractWithImages.main.
  destruct (process_fresh data agent_extract chapter_pdfs_dir out_dir
              present (pdf_files listing) []) as [H1 H2];
    [constructor|constructor|].
  split; [exact H1|]. split; [exact H2|].
  intros kv Hkv. apply process_written in Hkv.
  destruct Hkv as [[]|H]. exact H.
Qed.



(** X24. Running the script that skips existing outputs a second time on
    the same listing: the agent is called again on exactly the files on
    which it raised before the output file was opened, and whose output
    did not exist at the first start.  A file whose first run raised
    after the output file was opened is skipped, although it was
    reported as failed. *)
Theorem rerun_attempts_only_unwritten
    (data : Type) (first_agent second_agent : str -> outcome data)
    (chapter_pdfs_dir out_dir : str) (present : str -> bool)
    (listing : list str) :
  NoDup listing -> Forall plain_name listing ->
  attempted
    (fst (SimpleExtractWithImages.main data second_agent chapter_pdfs_dir
            out_dir
            (path_exists data present
               (snd (SimpleExtractWithImages.main data first_agent
                       chapter_pdfs_dir out_dir present listing)))
            listing))
  = filter (fun f =>
              negb (present (output_file_of out_dir f))
              && is_raises (first_agent (path_join chapter_pdfs_dir f)))
           (pdf_files listing).
Proof.
  intros Hnd Hp.
  pose proof (pdf_files_outputs out_dir listing Hnd Hp) as Hout.
  unfold SimpleExtractWithImages.main.
  rewrite (process_by_file data first_agent) by (auto; intros f _ []).
  rewrite (process_by_file data second_agent) by (auto; intros f _ []).
  cbn [fst snd]. rewrite app_nil_r, file_steps_attempted.
  apply filter_ext_in. intros f Hf.
  rewrite written_presence.
  - now rewrite negb_orb, negb_involutive.
  - intros g Hg E. apply pdf_files_in in Hf, Hg.
    rewrite Forall_forall in Hp.
    destruct Hf as [Hf1 Hf2]. destruct Hg as [Hg1 Hg2].
    apply (output_inj out_dir); auto.
  - exact Hf.
Qed.

Lemma rerun_attempts_only_unwritten_witness :
  NoDup [lit "b.pdf"; lit "a.pdf"; lit "c.pdf"]
  /\ Forall plain_name [lit "b.pdf"; lit "a.pdf"; lit "c.pdf"]
  /\ attempted
       (fst (SimpleExtractWithImages.main nat (fun _ => Written 1)
               (lit "in") (lit "out")
               (path_exists nat (fun _ => false)
                  (snd (SimpleExtractWithImages.main nat
                          (fun p => if str_eqb p (lit "in/b.pdf") then Raises
                                    else WrittenThenRaises 0)
                          (lit "in") (lit "out") (fun _ => false)
                          [lit "b.pdf"; lit "a.pdf"; lit "c.pdf"])))
               [lit "b.pdf"; lit "a.pdf"; lit "c.pdf"]))
     = [lit "b.pdf"].
Proof.
  assert (H1 : NoDup [lit "b.pdf"; lit "a.pdf"; lit "c.pdf"]).
  { repeat constructor; simpl; intuition discriminate. }
  assert (H2 : Forall plain_name [lit "b.pdf"; lit "a.pdf"; lit "c.pdf"]).
  { repeat constructor; unfold plain_name; simpl; intuition discriminate. }
  split; [exact H1|]. split; [exact H2|].
  rewrite (rerun_attempts_only_unwritten nat _ _ (lit "in") (lit "out") _ _
             H1 H2).
  vm_compute. reflexivity.
Defined.

(** X25. The output file of [stem.pdf], a name without path separator,
    is [stem.json] in the output directory; two such names with the same
    output file are the same name. *)
Theorem output_file_of_pdf (out_dir f g : str) :
  ends_with (lit ".pdf") f = true -> ends_with (lit ".pdf") g = true ->
  plain_name f -> plain_name g ->
  (exists stem,
     f = stem ++ lit ".pdf"
     /\ output_file_of out_dir f = join_prefix out_dir ++ stem ++ lit ".json")
  /\ (output_file_of out_dir f = output_file_of out_dir g -> f = g).
Proof.
  intros Hf Hg Pf Pg. split; [|now apply output_inj].
  apply ends_with_spec in Hf. destruct Hf as [stem ->].
  exists stem. split; [reflexivity|now apply output_of_stem].
Qed.

Lemma output_file_of_pdf_witness :
  ends_with (lit ".pdf") (lit "Chapter_01_Intro.pdf") = true
  /\ plain_name (lit "Chapter_01_Intro.pdf")
  /\ exists stem,
       lit "Chapter_01_Intro.pdf" = stem ++ lit ".pdf"
       /\ output_file_of (lit "out/") (lit "Chapter_01_Intro.pdf")
          = join_prefix (lit "out/") ++ stem ++ lit ".json".
Proof.
  assert (H1 : ends_with (lit ".pdf") (lit "Chapter_01_Intro.pdf") = true)
    by reflexivity.
  assert (H2 : plain_name (lit "Chapter_01_Intro.pdf")).
  { unfold plain_name. simpl. intuition discriminate. }
  split; [exact H1|]. split; [exact H2|].
  exact (proj1 (output_file_of_pdf (lit "out/") _ _ H1 H1 H2 H2)).
Defined.

(** ** The pipeline: what the files hold *)

Section CoverFacts.

Open Scope Z_scope.

Lemma sorted_adjacent : forall (l : list mark) i m m',
  Sorted page_le l ->
  nth_error l i = Some m -> nth_error l (S i) = Some m' -> page_le m m'.
Proof.
  induction l as [|x l IH]; intros i m m' Hs Hi Hi'.
  - destruct i; discriminate.
  - inversion Hs as [|? ? Hs' Hhd]; subst. destruct i as [|i].
    + simpl in Hi, Hi'. inversion Hi; subst.
      destruct l as [|y l]; [discriminate|]. simpl in Hi'.
      inversion Hi'; subst. now inversion Hhd.
    + simpl in Hi. now apply (IH i).
Qed.

(** With start pages in order and inside the document, the files from
    an index on hold, one after the other, the pages from the start page
    of that index to the last page, two marks of one page or not. *)
Lemma files_from_cover_le total dir chapters : forall todo done,
  chapters = done ++ todo ->
  Sorted page_le todo ->
  Forall (fun m => fst m < total) todo ->
  concat (map pages (files_from total dir chapters (length done) todo))
  = match todo with
    | m :: _ => range (fst m) total
    | [] => []
    end.
Proof.
  induction todo as [|m todo IH]; intros done Hch Hs Hlt; [reflexivity|].
  inversion Hs as [|? ? Hs' Hhd]; subst.
  inversion Hlt as [|? ? Hm Hlt']; subst.
  cbn [files_from map concat].
  replace (S (length done)) with (length (done ++ [m]))
    by (rewrite length_app; simpl; lia).
  rewrite (IH (done ++ [m])); auto; [|now rewrite <- app_assoc].
  unfold chapter_file_at. cbn [pages]. rewrite end_page_next.
  destruct todo as [|next todo].
  - replace (total - 1 + 1) with total by lia.
    rewrite Z.min_id. apply app_nil_r.
  - inversion Hhd as [|? ? Hle]; subst. inversion Hlt'; subst.
    unfold page_le in Hle.
    replace (fst next - 1 + 1) with (fst next) by lia.
    rewrite Z.min_l by lia. apply range_app; lia.
Qed.

End CoverFacts.

(** X26. A document none of whose pages gives text other than
    whitespace, a scan without a text layer for instance, is never split:
    the detector returns the empty sequence and the run ends after the
    report that no chapters were detected, with no file written. *)
Theorem main_on_textless_document
    (w : world) (reader : pdf) (detected : option (list mark))
    (tr : list event) :
  input_exists w = true -> document w = Some reader ->
  Forall (fun page => Forall (fun c => is_space c = true) (text_of page))
         reader ->
  main w detected tr ->
  detected = Some []
  /\ tr = [Print Processing; Print OutputDirectory; Print Extracting;
           Print (Extracted (length reader)); Print Detecting;
           Print NoChaptersDetected; Print WillAttemptSections].
Proof.
  intros Hi Hd Hblank. unfold main. rewrite Hi, Hd. cbn [negb].
  intros [r [Hr [-> ->]]].
  assert (E : r = []).
  { apply (blank_pages_no_marks (extract_text_from_pdf reader)); [|exact Hr].
    rewrite extract_numbered. unfold numbered.
    apply Forall_forall. intros [k txt] Hin. cbn [snd].
    apply in_combine_r in Hin. apply in_map_iff in Hin.
    destruct Hin as [page [<- Hpage]].
    rewrite Forall_forall in Hblank. now apply Hblank. }
  subst r. split; [reflexivity|].
  now rewrite extract_numbered, numbered_length.
Qed.

Lemma main_on_textless_document_witness :
  input_exists (World true (Some [Fails; Text [space; newline]]) (lit "out"))
  = true
  /\ main (World true (Some [Fails; Text [space; newline]]) (lit "out"))
          (Some [])
          [Print Processing; Print OutputDirectory; Print Extracting;
           Print (Extracted 2); Print Detecting;
           Print NoChaptersDetected; Print WillAttemptSections]
  /\ Some (@nil mark) = Some [].
Proof.
  assert (Hb : Forall (fun page =>
                         Forall (fun c => is_space c = true) (text_of page))
                      [Fails; Text [space; newline]])
    by (repeat constructor).
  assert (H : main (World true (Some [Fails; Text [space; newline]])
                          (lit "out"))
                   (Some [])
                   [Print Processing; Print OutputDirectory; Print Extracting;
                    Print (Extracted 2); Print Detecting;
                    Print NoChaptersDetected; Print WillAttemptSections]).
  { unfold main. simpl. exists []. split; [|split; reflexivity].
    exists []. split; vm_compute; reflexivity. }
  split; [reflexivity|]. split; [exact H|].
  exact (proj1 (main_on_textless_document
                  (World true (Some [Fails; Text [space; newline]])
                         (lit "out"))
                  [Fails; Text [space; newline]] _ _
                  eq_refl eq_refl Hb H)).
Defined.

(** X27. Splitting on the marks the detector returns for a document
    loses no page from the first mark on: the files, one after the other,
    hold each page from the first start page to the last page once, in
    order; the pages before the first mark are in no file.  When two
    marks sit on one page, the file of the first of them holds no page;
    the file of any other mark but the last holds at least one. *)
Theorem detected_split_covers
    (reader : pdf) (output_dir : str) (first : mark) (rest : list mark) :
  detect_chapters (extract_text_from_pdf reader) (first :: rest) ->
  exists files,
    split_pdf_by_chapters (length reader) output_dir (first :: rest)
    = (files, Some (map path files))
    /\ concat (map pages files)
       = range (fst first) (Z.of_nat (length reader))
    /\ forall i m m' f,
         nth_error (first :: rest) i = Some m ->
         nth_error (first :: rest) (S i) = Some m' ->
         nth_error files i = Some f ->
         (pages f = [] <-> fst m = fst m').
Proof.
  intro H.
  pose proof (detected_in_document reader _ H) as Hall.
  apply detect_chapters_facts in H. destruct H as [Hs _].
  set (r := first :: rest) in *.
  set (total := Z.of_nat (length reader)) in *.
  exists (files_from total output_dir r 0 r).
  split; [|split].
  - unfold split_pdf_by_chapters. fold total.
    rewrite split_loop_nonneg; [reflexivity|].
    eapply Forall_impl; [|exact Hall]. simpl. intros; lia.
  - apply (files_from_cover_le total output_dir r r []); auto.
    eapply Forall_impl; [|exact Hall]. simpl. intros; lia.
  - intros i m m' f Hi Hi' Hf.
    rewrite (files_from_nth _ _ _ _ 0 i m Hi) in Hf. inversion Hf; subst f.
    unfold chapter_file_at, end_page. cbn [pages Nat.add]. rewrite Hi'.
    pose proof (sorted_adjacent r i m m' Hs Hi Hi') as Hle.
    unfold page_le in Hle.
    rewrite Forall_forall in Hall.
    pose proof (Hall m' (nth_error_In _ _ Hi')) as Hm'. cbn beta in Hm'.
    replace (fst m' - 1 + 1)%Z with (fst m') by lia.
    rewrite Z.min_l by lia. split.
    + intro E. apply (f_equal (@length Z)) in E.
      rewrite range_length in E. simpl in E. lia.
    + intros ->. apply range_nil. lia.
Qed.

Lemma detected_split_covers_witness :
  detect_chapters (extract_text_from_pdf two_topics_document)
                  two_topics_marks
  /\ exists files,
       split_pdf_by_chapters 2 (lit "out") two_topics_marks
       = (files, Some (map path files))
       /\ map pages files = [[]; [0%Z]; [1%Z]].
Proof.
  assert (H : detect_chapters (extract_text_from_pdf two_topics_document)
                              two_topics_marks)
    by (exists two_topics_marks; split; vm_compute; reflexivity).
  split; [exact H|].
  destruct (detected_split_covers two_topics_document (lit "out") _ _ H)
    as [files [E _]].
  exists files. split; [exact E|].
  vm_compute in E. inversion E. reflexivity.
Defined.

